(** * FarmXpert orchestration client: a shallow embedding and its properties

    The development follows the JavaScript sources of the repository:
    - [JS]              the fragment of JavaScript the code relies on: values
                        (parsed JSON and object literals), property reads,
                        truthiness, exceptions, string methods;
    - [Orchestrator]    the reducer and the provider functions of the
                        orchestrator context;
    - [Chat]            the chat context ([sendMessage], [clearChat]);
    - [SuperAgent]      the SuperAgentChat page ([generateSessionId],
                        [sendMessage], [addMessage],
                        [createAgentResponseDetails]), and [Rendering], what
                        its agent-analysis block consists of;
    - [DashboardLayout] the session id of the dashboard;
    - [Voice]           [getConsultedAgents] of the voice interface;
    - [TaskStatus]      task statuses and their progress;
    - [Fertilizer], [Aggregator]  two parts of the backend that the repository
                        documents and whose code is not available;
    - [Examples]        concrete runs.

    The properties follow the definitions. *)

From Stdlib Require Import QArith Ascii String.
From stdpp Require Import gmap strings list sorting pretty.

(** ** JavaScript values *)

Module JS.

(** Values as [JSON.parse] and the object literals of the sources build them.
    [Obj] lists the own properties in enumeration order, [Date] is a [Date]
    object holding its time value in milliseconds. *)
#[warnings="-register-all"]
Inductive value : Type :=
  | Undefined
  | Null
  | Bool (b : bool)
  | Num (q : Q)
  | Str (s : string)
  | Arr (elems : list value)
  | Obj (props : list (string * value))
  | Date (ms : Z).

(** An exception object; only its [message] is ever read by the sources. *)
Record exn : Type := Error { message : string }.

(** Outcome of evaluating an expression or awaiting a promise. *)
Inductive completion (A : Type) : Type :=
  | Normal (a : A)
  | Throw (e : exn).
Arguments Normal {A} a.
Arguments Throw {A} e.

#[global] Instance completion_ret : MRet completion := λ A a, Normal a.
#[global] Instance completion_bind : MBind completion := λ A B k c,
  match c with
  | Normal a => k a
  | Throw e => Throw e
  end.

(** The message of the TypeError raised by a property read on [undefined] or
    [null]; engines word it differently, no code path inspects it. *)
Definition type_error (what : string) : exn :=
  Error ("Cannot read properties of " +:+ what).

Definition of_nat (n : nat) : value := Num (inject_Z (Z.of_nat n)).
Definition of_Z (z : Z) : value := Num (inject_Z z).

(** ToBoolean. *)
Definition truthy (v : value) : bool :=
  match v with
  | Undefined | Null => false
  | Bool b => b
  | Num q => negb (Qeq_bool q 0)
  | Str s => negb (String.eqb s "")
  | Arr _ | Obj _ | Date _ => true
  end.

Fixpoint lookup_prop (k : string) (props : list (string * value)) : value :=
  match props with
  | [] => Undefined
  | (k', v) :: rest => if String.eqb k' k then v else lookup_prop k rest
  end.

(** Canonical array indices ["0"], ["1"], ... below [n]. *)
Definition indices (n : nat) : list string := (λ i : nat, pretty i) <$> seq 0 n.

Definition chars (s : string) : list value :=
  (λ c, Str (String c EmptyString)) <$> list_ascii_of_string s.

Fixpoint lookup_index (k : string) (i : nat) (l : list value) : value :=
  match l with
  | [] => Undefined
  | v :: rest => if String.eqb (pretty i) k then v else lookup_index k (S i) rest
  end.

(** [v.k] for a data property [k]: a TypeError on [undefined] and [null], the
    own property of an object, [length] and the indexed elements of arrays and
    strings, [undefined] otherwise. *)
Definition get (v : value) (k : string) : completion value :=
  match v with
  | Undefined => Throw (type_error "undefined")
  | Null => Throw (type_error "null")
  | Obj props => Normal (lookup_prop k props)
  | Arr l =>
      if String.eqb k "length" then Normal (of_nat (length l))
      else Normal (lookup_index k 0 l)
  | Str s =>
      if String.eqb k "length" then Normal (of_nat (String.length s))
      else Normal (lookup_index k 0 (chars s))
  | Bool _ | Num _ | Date _ => Normal Undefined
  end.

(** [v?.k] *)
Definition opt_get (v : value) (k : string) : completion value :=
  match v with
  | Undefined | Null => Normal Undefined
  | _ => get v k
  end.

(** [a || b] *)
Definition or_else (a b : value) : value := if truthy a then a else b.

(** [v === false] and [v === s] for a string literal [s]. *)
Definition is_false (v : value) : bool :=
  match v with Bool false => true | _ => false end.
Definition is_str (s : string) (v : value) : bool :=
  match v with Str s' => String.eqb s' s | _ => false end.

(** [Object.entries(v)] and [Object.keys(v)]. *)
Definition object_entries (v : value) : completion (list (string * value)) :=
  match v with
  | Undefined | Null => Throw (Error "Cannot convert undefined or null to object")
  | Obj props => Normal props
  | Arr l => Normal (zip (indices (length l)) l)
  | Str s => Normal (zip (indices (String.length s)) (chars s))
  | Bool _ | Num _ | Date _ => Normal []
  end.

Definition object_keys (v : value) : completion (list string) :=
  es ← object_entries v; Normal (es.*1).

(** [l[0]] on an array of strings. *)
Definition first_key (ks : list string) : value :=
  match ks with
  | [] => Undefined
  | k :: _ => Str k
  end.

(** *** String methods *)

(** [s.replace(/c/g, by)] for a one-character pattern. *)
Fixpoint replace_all (c : ascii) (by_ : string) (s : string) : string :=
  match s with
  | EmptyString => EmptyString
  | String c' rest =>
      if Ascii.eqb c' c then by_ +:+ replace_all c by_ rest
      else String c' (replace_all c by_ rest)
  end.

Fixpoint drop_chars (n : nat) (s : string) : string :=
  match n, s with
  | S n', String _ rest => drop_chars n' rest
  | _, _ => s
  end.

(** [s.replace(pat, by)] for a string pattern: the first occurrence only. *)
Fixpoint replace_first (pat by_ : string) (s : string) : string :=
  if String.prefix pat s then by_ +:+ drop_chars (String.length pat) s
  else match s with
       | EmptyString => EmptyString
       | String c rest => String c (replace_first pat by_ rest)
       end.

Fixpoint trim_start (s : string) : string :=
  match s with
  | String c rest => if Ascii.is_space c then trim_start rest else s
  | EmptyString => EmptyString
  end.

(** [s.trim()], on the white space of the ASCII range (tab, line feed,
    vertical tab, form feed, carriage return, space). *)
Definition trim (s : string) : string :=
  String.rev (trim_start (String.rev (trim_start s))).

(** Strings made of decimal digits only, such as the rendering of a
    non-negative integer. *)
Fixpoint digits_only (s : string) : bool :=
  match s with
  | EmptyString => true
  | String c rest => bool_decide (is_Some (Ascii.is_nat c)) && digits_only rest
  end.

(** [s.substr(start, len)] for non-negative arguments. *)
Definition substr (start len : nat) (s : string) : string :=
  String.substring start len s.

(** [l.filter(p)] and [l.map(f)] with callbacks that may throw, on a value:
    a TypeError when the value is not an array. *)
Fixpoint filter_list (p : value → completion bool) (l : list value)
    : completion (list value) :=
  match l with
  | [] => Normal []
  | x :: rest =>
      keep ← p x;
      kept ← filter_list p rest;
      Normal (if keep : bool then x :: kept else kept)
  end.

Fixpoint map_list {B} (f : value → completion B) (l : list value)
    : completion (list B) :=
  match l with
  | [] => Normal []
  | x :: rest =>
      y ← f x;
      ys ← map_list f rest;
      Normal (y :: ys)
  end.

Definition array_filter (p : value → completion bool) (v : value)
    : completion (list value) :=
  match v with
  | Arr l => filter_list p l
  | Undefined => Throw (type_error "undefined")
  | Null => Throw (type_error "null")
  | _ => Throw (Error "filter is not a function")
  end.

(** *** Stateful code that may throw *)

(** A computation on a state of type [S] that completes normally or throws;
    the state changes made before a throw stay. *)
Definition stateful (S A : Type) : Type := S → S * completion A.

#[global] Instance stateful_ret {S} : MRet (stateful S) := λ A a st, (st, Normal a).
#[global] Instance stateful_bind {S} : MBind (stateful S) := λ A B k m st,
  match m st with
  | (st', Normal a) => k a st'
  | (st', Throw e) => (st', Throw e)
  end.

Definition lift {S A} (c : completion A) : stateful S A := λ st, (st, c).

(** [try { m } catch (e) { handler e }] *)
Definition try_catch {S A} (m : stateful S A) (handler : exn → stateful S A)
    : stateful S A := λ st,
  match m st with
  | (st', Normal a) => (st', Normal a)
  | (st', Throw e) => handler e st'
  end.

(** [try { m } finally { final }] *)
Definition try_finally {S A} (m : stateful S A) (final : stateful S unit)
    : stateful S A := λ st,
  match m st with
  | (st', r) =>
      match final st' with
      | (st'', Normal _) => (st'', r)
      | (st'', Throw e) => (st'', Throw e)
      end
  end.

End JS.

(** ** The orchestrator context *)

Module Orchestrator.
Import JS.

(** [initialState] and the shape of every later state. *)
Record state : Type := State {
  loading : value;
  error : value;
  session : value;
  currentWorkflow : value;
  agentStatuses : gmap string value;
  messages : list value;
  reasoningTree : value;
  systemStatus : value;
}.

Definition initialState : state := {|
  loading := Bool false;
  error := Null;
  session := Null;
  currentWorkflow := Null;
  agentStatuses := ∅;
  messages := [];
  reasoningTree := Null;
  systemStatus := Null;
|}.

(** The actions of [ACTIONS] with their payloads; [UNKNOWN] stands for any
    other action type, which the reducer's [default] branch receives. *)
Inductive action : Type :=
  | SET_LOADING (payload : value)
  | SET_ERROR (payload : value)
  | SET_SESSION (payload : value)
  | SET_WORKFLOW (payload : value)
  | UPDATE_AGENT_STATUS (agentName : string) (status : value)
  | ADD_MESSAGE (payload : value)
  | SET_REASONING_TREE (payload : value)
  | CLEAR_WORKFLOW
  | SET_SYSTEM_STATUS (payload : value)
  | UNKNOWN.

Definition orchestratorReducer (st : state) (a : action) : state :=
  match a with
  | SET_LOADING p =>
      {| loading := p; error := error st; session := session st;
         currentWorkflow := currentWorkflow st; agentStatuses := agentStatuses st;
         messages := messages st; reasoningTree := reasoningTree st;
         systemStatus := systemStatus st |}
  | SET_ERROR p =>
      {| loading := Bool false; error := p; session := session st;
         currentWorkflow := currentWorkflow st; agentStatuses := agentStatuses st;
         messages := messages st; reasoningTree := reasoningTree st;
         systemStatus := systemStatus st |}
  | SET_SESSION p =>
      {| loading := loading st; error := error st; session := p;
         currentWorkflow := currentWorkflow st; agentStatuses := agentStatuses st;
         messages := messages st; reasoningTree := reasoningTree st;
         systemStatus := systemStatus st |}
  | SET_WORKFLOW p =>
      {| loading := Bool false; error := Null; session := session st;
         currentWorkflow := p; agentStatuses := agentStatuses st;
         messages := messages st; reasoningTree := reasoningTree st;
         systemStatus := systemStatus st |}
  | UPDATE_AGENT_STATUS name status =>
      {| loading := loading st; error := error st; session := session st;
         currentWorkflow := currentWorkflow st;
         agentStatuses := <[name := status]> (agentStatuses st);
         messages := messages st; reasoningTree := reasoningTree st;
         systemStatus := systemStatus st |}
  | ADD_MESSAGE p =>
      {| loading := loading st; error := error st; session := session st;
         currentWorkflow := currentWorkflow st; agentStatuses := agentStatuses st;
         messages := messages st ++ [p]; reasoningTree := reasoningTree st;
         systemStatus := systemStatus st |}
  | SET_REASONING_TREE p =>
      {| loading := loading st; error := error st; session := session st;
         currentWorkflow := currentWorkflow st; agentStatuses := agentStatuses st;
         messages := messages st; reasoningTree := p;
         systemStatus := systemStatus st |}
  | CLEAR_WORKFLOW =>
      {| loading := loading st; error := Null; session := session st;
         currentWorkflow := Null; agentStatuses := ∅;
         messages := messages st; reasoningTree := Null;
         systemStatus := systemStatus st |}
  | SET_SYSTEM_STATUS p =>
      {| loading := loading st; error := error st; session := session st;
         currentWorkflow := currentWorkflow st; agentStatuses := agentStatuses st;
         messages := messages st; reasoningTree := reasoningTree st;
         systemStatus := p |}
  | UNKNOWN => st
  end.

(** [useReducer]: the state after a sequence of dispatched actions. *)
Definition dispatch_all (st : state) (acts : list action) : state :=
  foldl orchestratorReducer st acts.

(** A provider function: the actions it dispatches, in order, and how it
    completes. *)
Record prog (A : Type) : Type := Prog {
  trace : list action;
  outcome : completion A;
}.
Arguments Prog {A} trace outcome.
Arguments trace {A} p.
Arguments outcome {A} p.

#[global] Instance prog_ret : MRet prog := λ A a, Prog [] (Normal a).
#[global] Instance prog_bind : MBind prog := λ A B k p,
  match outcome p with
  | Normal a => Prog (trace p ++ trace (k a)) (outcome (k a))
  | Throw e => Prog (trace p) (Throw e)
  end.

Definition dispatch (a : action) : prog unit := Prog [a] (Normal tt).
Definition await {A} (c : completion A) : prog A := Prog [] c.
Definition throw {A} (e : exn) : prog A := Prog [] (Throw e).

(** [try { p } catch (error) { handler error }] *)
Definition try_catch {A} (p : prog A) (handler : exn → prog A) : prog A :=
  match outcome p with
  | Normal _ => p
  | Throw e => Prog (trace p ++ trace (handler e)) (outcome (handler e))
  end.

Definition when (b : bool) (p : prog unit) : prog unit :=
  if b then p else mret tt.

(** [l.forEach(body)] *)
Fixpoint for_each {A} (l : list A) (body : A → prog unit) : prog unit :=
  match l with
  | [] => mret tt
  | x :: rest => body x;; for_each rest body
  end.

(** The state after the provider function [p] has run from [st]. *)
Definition run {A} (p : prog A) (st : state) : state :=
  dispatch_all st (trace p).

(** One evaluation of [Date.now()] together with the ISO rendering
    ([toISOString]) of the [Date] object created next to it. *)
Record tick : Type := Tick { now : Z; iso : string }.

(** [catch (error) { dispatch SET_ERROR error.message; throw error; }] *)
Definition report_error {A} (p : prog A) : prog A :=
  try_catch p (λ e, dispatch (SET_ERROR (Str (message e)));; throw e).

(** The provider functions.  The argument [api] is the completion of the
    [apiService] call the function awaits: the parsed JSON body, or the
    exception [ApiService.request] raises (network failure, HTTP status that
    is not ok, body that is not JSON). *)

Definition initializeSystem (api : completion value) : prog unit :=
  try_catch
    (dispatch (SET_LOADING (Bool true));;
     status ← await api;
     dispatch (SET_SYSTEM_STATUS status))
    (λ e, dispatch (SET_ERROR (Str (message e)))).

Definition processQuery (query : value) (t1 t2 : tick) (api : completion value)
    : prog value :=
  report_error
    (dispatch (SET_LOADING (Bool true));;
     dispatch (SET_ERROR Null);;
     dispatch (ADD_MESSAGE (Obj [
       ("id", of_Z (now t1)); ("type", Str "user"); ("content", query);
       ("timestamp", Str (iso t1))]));;
     response ← await api;
     workflow ← await (get response "workflow");
     dispatch (SET_WORKFLOW workflow);;
     session ← await (get response "session");
     when (truthy session) (dispatch (SET_SESSION session));;
     content ← await (get response "response");
     workflowId ← await (opt_get workflow "id");
     dispatch (ADD_MESSAGE (Obj [
       ("id", of_Z (now t2 + 1)); ("type", Str "system"); ("content", content);
       ("timestamp", Str (iso t2)); ("workflowId", workflowId)]));;
     mret response).

Definition getWorkflowStatus (api : completion value) : prog value :=
  report_error
    (status ← await api;
     agents ← await (get status "agents");
     when (truthy agents)
       (entries ← await (object_entries agents);
        for_each entries (λ entry,
          dispatch (UPDATE_AGENT_STATUS entry.1 entry.2)));;
     workflow ← await (get status "workflow");
     when (truthy workflow) (dispatch (SET_WORKFLOW workflow));;
     mret status).

Definition getReasoningTree (api : completion value) : prog value :=
  report_error
    (reasoningTree ← await api;
     dispatch (SET_REASONING_TREE reasoningTree);;
     mret reasoningTree).

Definition submitVoiceInput (t1 t2 : tick) (api apiQuery : completion value)
    : prog value :=
  report_error
    (dispatch (SET_LOADING (Bool true));;
     response ← await api;
     query ← await (get response "query");
     (if truthy query
      then processQuery query t1 t2 apiQuery;; mret tt
      else mret tt);;
     mret response).

Definition getVoiceOutput (api : completion value) : prog value :=
  report_error (await api).

(** [st] is the state the provider closure reads [state.session?.id] from. *)
Definition updateSession (st : state) (api : completion value) : prog value :=
  report_error
    (id ← await (opt_get (session st) "id");
     (if truthy id then mret tt else throw (Error "No active session"));;
     updatedSession ← await api;
     dispatch (SET_SESSION updatedSession);;
     mret updatedSession).

Definition cancelWorkflow (api : completion value) : prog unit :=
  report_error
    (await api;;
     dispatch CLEAR_WORKFLOW).

Definition clearError : prog unit := dispatch (SET_ERROR Null).

Definition clearWorkflow : prog unit := dispatch CLEAR_WORKFLOW.

End Orchestrator.

(** ** The chat context *)

Module Chat.
Import JS.

Record state : Type := State {
  messages : list value;
  loading : bool;
  sessionId : value;
  currentAgent : value;
}.

Definition initialState : state :=
  {| messages := []; loading := false; sessionId := Null; currentAgent := Null |}.

(** Code of the provider. *)
Abbreviation M := (stateful state).

Definition setLoading (b : bool) : M unit := λ st,
  ({| messages := messages st; loading := b; sessionId := sessionId st;
      currentAgent := currentAgent st |}, Normal tt).

Definition setSessionId (v : value) : M unit := λ st,
  ({| messages := messages st; loading := loading st; sessionId := v;
      currentAgent := currentAgent st |}, Normal tt).

(** [setMessages(prev => [...prev, m])] *)
Definition appendMessage (m : value) : M unit := λ st,
  ({| messages := messages st ++ [m]; loading := loading st;
      sessionId := sessionId st; currentAgent := currentAgent st |}, Normal tt).

(** One evaluation of [Date.now()] and of [new Date()]. *)
Record tick : Type := Tick { now : Z; date : Z }.

(** What the request delivers: it fails with an exception ([fetch] rejects,
    or building the request throws), or [fetch] resolves to a response with
    its [ok] flag, whose body [response.json()] parses to a value or fails to
    parse. *)
Inductive fetch_result : Type :=
  | Rejected (e : exn)
  | Response (ok : bool) (json : completion value).

(** [c ? v.k : null] *)
Definition field_or_null (v : value) (k : string) : completion value :=
  if truthy v then get v k else Normal Null.

(** The object [sendMessage] returns on success and on failure. *)
Definition success_result (data : value) : value :=
  Obj [("success", Bool true); ("data", data)].
Definition failure_result (err : value) : value :=
  Obj [("success", Bool false); ("error", err)].

(** The user message added to the chat. *)
Definition userMessage (message agent : value) (tu : tick) : value :=
  Obj [("id", of_Z (now tu)); ("type", Str "user"); ("content", message);
       ("timestamp", Date (date tu)); ("agent", agent)].

(** The assistant response added to the chat, from the fields read off the
    reply. *)
Definition assistantMessage
    (response agent intent recommendations warnings execution_time : value)
    (tr : tick) : value :=
  Obj [("id", of_Z (now tr + 1)); ("type", Str "assistant");
       ("content", or_else response (Str "No response received"));
       ("timestamp", Date (date tr)); ("agent", agent);
       ("intent", intent);
       ("recommendations", or_else recommendations (Arr []));
       ("warnings", or_else warnings (Arr []));
       ("executionTime", execution_time)].

(** [sendMessage(message, selectedAgent)], as one run on the state of the
    provider with no other update in between; [tu] and [tr] are the clock
    readings at the user message and at the reply, [net] what the request
    delivers.  The request body only feeds [fetch]. *)
Definition sendMessage (message selectedAgent : value) (tu tr : tick)
    (net : fetch_result) : M value :=
  try_finally
    (try_catch
       (setLoading true;;
        agent ← lift (field_or_null selectedAgent "indian_name");
        appendMessage (userMessage message agent tu);;
        match net with
        | Rejected e => lift (Throw e)
        | Response ok json =>
            let data :=
              match json with
              | Normal d => d
              | Throw _ =>
                  Obj [("success", Bool false);
                       ("response", Str "Unexpected server response.")]
              end in
            success ← lift (opt_get data "success");
            if negb ok || is_false success then
              response ← lift (opt_get data "response");
              error ← lift (opt_get data "error");
              let serverMsg :=
                or_else (or_else response error) (Str "Failed to send message") in
              appendMessage (Obj [
                ("id", of_Z (now tr + 1)); ("type", Str "assistant");
                ("content", serverMsg); ("timestamp", Date (date tr));
                ("agent", Null)]);;
              mret (failure_result serverMsg)
            else
              session ← lift (get data "session");
              id ← lift (opt_get session "id");
              (if truthy id then setSessionId id else mret tt);;
              response ← lift (get data "response");
              agent_details ← lift (get data "agent_details");
              agent ← (if truthy agent_details
                       then keys ← lift (object_keys agent_details);
                            mret (first_key keys)
                       else mret Null);
              intent ← lift (get data "intent");
              recommendations ← lift (get data "recommendations");
              warnings ← lift (get data "warnings");
              execution_time ← lift (get data "execution_time");
              appendMessage
                (assistantMessage response agent intent recommendations
                   warnings execution_time tr);;
              mret (success_result data)
        end)
       (λ e,
          appendMessage (Obj [
            ("id", of_Z (now tr + 1)); ("type", Str "error");
            ("content", Str ("Error: " +:+ JS.message e));
            ("timestamp", Date (date tr))]);;
          mret (failure_result (Str (JS.message e)))))
    (setLoading false).

(** [clearChat()] *)
Definition clearChat (st : state) : state :=
  {| messages := []; loading := loading st; sessionId := Null;
     currentAgent := Null |}.

End Chat.

(** ** The SuperAgent chat page *)

Module SuperAgent.
Import JS.

Definition dq : string := String "034"%char EmptyString.
Definition nl : string := String "010"%char EmptyString.

Fixpoint spaces (n : nat) : string :=
  match n with
  | O => EmptyString
  | S n' => String " "%char (spaces n')
  end.

(** [<tag class="c">] *)
Definition open_tag (tag c : string) : string :=
  "<" +:+ tag +:+ " class=" +:+ dq +:+ c +:+ dq +:+ ">".

(** [generateSessionId()]: [now] is the reading of [Date.now()], [random36]
    the rendering [Math.random().toString(36)] of the random draw. *)
Definition generateSessionId (now : N) (random36 : string) : string :=
  "session_" +:+ pretty now +:+ "_" +:+ substr 2 9 random36.

(** A child of the chat container. *)
Record node : Type := Node {
  className : string;
  id : string;
  innerHTML : string;
}.

(** The instance fields and the parts of the page the class writes. *)
Record state : Type := State {
  sessionId : string;
  isLoading : bool;
  chatInput_value : string;
  chatInput_disabled : bool;
  sendButton_disabled : bool;
  loadingOverlay_show : bool;
  chatMessages : list node;
}.

(** The body of a reply of [/super-agent/query], in the shape the page
    consumes: [success] is the truth value of the field, [response] the answer
    text ([None] when the field is not a string), the three arrays are [None]
    when the field is absent.  [blockers] is the blockers list of the client
    boundary, which no method reads. *)
Record agent_response : Type := AgentResponse { agent_name : string }.

Record response_data : Type := ResponseData {
  success : bool;
  response : option string;
  agent_responses : option (list agent_response);
  recommendations : option (list string);
  warnings : option (list string);
  blockers : list string;
}.

(** Code of the class. *)
Abbreviation M := (stateful state).

(** What the request of [callSuperAgentAPI] delivers: it fails with an
    exception ([fetch] rejects, or reading the page throws), or [fetch]
    resolves to a response with its [ok] flag and [status], whose body parses
    or fails to parse. *)
Inductive fetch_result : Type :=
  | Rejected (e : exn)
  | Response (ok : bool) (status : N) (json : completion response_data).

Definition getAvatarForType (type : string) : string :=
  if String.eqb type "user" then "👤"
  else if String.eqb type "assistant" then "🤖"
  else if String.eqb type "system" then "ℹ️"
  else "🤖".

(** [content.replace(/\n/g, '<br>')]: a TypeError when [content] is not a
    string. *)
Definition formatMessage (content : option string) : completion string :=
  match content with
  | Some text => Normal (replace_all "010"%char "<br>" text)
  | None => Throw (type_error "undefined")
  end.

(** [l.forEach(x => { html += item x })] *)
Definition append_each {A} (item : A → string) (l : list A) (html : string)
    : string :=
  foldl (λ acc x, acc +:+ item x) html l.

Definition createAgentResponseDetails (responseData : response_data) : string :=
  match agent_responses responseData with
  | None | Some [] => ""
  | Some responses =>
      let detailsHtml := open_tag "div" "agent-response-details" in
      let detailsHtml := detailsHtml +:+ "<h4>Agent Analysis</h4>" in
      let usedAgents := agent_name <$> responses in
      let detailsHtml := detailsHtml +:+ open_tag "div" "agent-list-details" in
      let detailsHtml :=
        append_each (λ agent, open_tag "span" "agent-tag" +:+ agent +:+ "</span>")
          usedAgents detailsHtml in
      let detailsHtml := detailsHtml +:+ "</div>" in
      let detailsHtml :=
        match recommendations responseData with
        | Some ((_ :: _) as recs) =>
            let detailsHtml := detailsHtml +:+ open_tag "div" "recommendations" in
            let detailsHtml := detailsHtml +:+ "<h5>Recommendations</h5><ul>" in
            let detailsHtml :=
              append_each (λ rec, "<li>" +:+ rec +:+ "</li>") recs detailsHtml in
            detailsHtml +:+ "</ul></div>"
        | _ => detailsHtml
        end in
      let detailsHtml :=
        match warnings responseData with
        | Some ((_ :: _) as warns) =>
            let detailsHtml := detailsHtml +:+ open_tag "div" "warnings" in
            let detailsHtml := detailsHtml +:+ "<h5>Warnings</h5><ul>" in
            let detailsHtml :=
              append_each (λ warning, "<li>" +:+ warning +:+ "</li>") warns
                detailsHtml in
            detailsHtml +:+ "</ul></div>"
        | _ => detailsHtml
        end in
      detailsHtml +:+ "</div>"
  end.

Definition appendChild (child : node) : M unit := λ st,
  ({| sessionId := sessionId st; isLoading := isLoading st;
      chatInput_value := chatInput_value st;
      chatInput_disabled := chatInput_disabled st;
      sendButton_disabled := sendButton_disabled st;
      loadingOverlay_show := loadingOverlay_show st;
      chatMessages := chatMessages st ++ [child] |}, Normal tt).

(** [addMessage(type, content, responseData)]; [time] is the rendering of the
    current time by [toLocaleTimeString].  Scrolling and the timer that drops
    the class [new] are layout effects outside the state. *)
Definition addMessage (type : string) (content : option string)
    (responseData : option response_data) (time : string) : M unit :=
  let avatar := getAvatarForType type in
  formatted ← lift (formatMessage content);
  let messageContent :=
    nl +:+ spaces 12 +:+ open_tag "div" "message-avatar" +:+ avatar +:+ "</div>" +:+
    nl +:+ spaces 12 +:+ open_tag "div" "message-content" +:+
    nl +:+ spaces 16 +:+ open_tag "div" "message-text" +:+ formatted +:+ "</div>" +:+
    nl +:+ spaces 16 +:+ open_tag "div" "message-time" +:+ time +:+ "</div>" +:+
    nl +:+ spaces 8 in
  let messageContent :=
    match responseData with
    | Some data =>
        match agent_responses data with
        | Some _ => messageContent +:+ createAgentResponseDetails data
        | None => messageContent
        end
    | None => messageContent
    end in
  let messageContent := messageContent +:+ "</div>" in
  appendChild
    {| className := "message " +:+ type +:+ " new"; id := "";
       innerHTML := messageContent |}.

Definition typingDiv : node :=
  {| className := "message assistant typing"; id := "typing-indicator";
     innerHTML :=
       nl +:+ spaces 12 +:+ open_tag "div" "message-avatar" +:+ "🤖</div>" +:+
       nl +:+ spaces 12 +:+ open_tag "div" "message-content" +:+
       nl +:+ spaces 16 +:+ open_tag "div" "typing-indicator" +:+
       nl +:+ spaces 20 +:+ "<span>SuperAgent is thinking</span>" +:+
       nl +:+ spaces 20 +:+ open_tag "div" "typing-dots" +:+
       nl +:+ spaces 24 +:+ open_tag "div" "typing-dot" +:+ "</div>" +:+
       nl +:+ spaces 24 +:+ open_tag "div" "typing-dot" +:+ "</div>" +:+
       nl +:+ spaces 24 +:+ open_tag "div" "typing-dot" +:+ "</div>" +:+
       nl +:+ spaces 20 +:+ "</div>" +:+
       nl +:+ spaces 16 +:+ "</div>" +:+
       nl +:+ spaces 12 +:+ "</div>" +:+
       nl +:+ spaces 8 |}.

Definition addTypingIndicator : M unit := appendChild typingDiv.

(** Removal of the first element whose id is [i]. *)
Fixpoint remove_by_id (i : string) (l : list node) : list node :=
  match l with
  | [] => []
  | n :: rest => if String.eqb (id n) i then rest else n :: remove_by_id i rest
  end.

Definition removeTypingIndicator : M unit := λ st,
  ({| sessionId := sessionId st; isLoading := isLoading st;
      chatInput_value := chatInput_value st;
      chatInput_disabled := chatInput_disabled st;
      sendButton_disabled := sendButton_disabled st;
      loadingOverlay_show := loadingOverlay_show st;
      chatMessages := remove_by_id "typing-indicator" (chatMessages st) |},
   Normal tt).

Definition setLoading (loading : bool) : M unit := λ st,
  ({| sessionId := sessionId st; isLoading := loading;
      chatInput_value := chatInput_value st;
      chatInput_disabled := loading;
      sendButton_disabled := loading;
      loadingOverlay_show := loading;
      chatMessages := chatMessages st |}, Normal tt).

(** [this.chatInput.value = ''] *)
Definition clearInput : M unit := λ st,
  ({| sessionId := sessionId st; isLoading := isLoading st;
      chatInput_value := "";
      chatInput_disabled := chatInput_disabled st;
      sendButton_disabled := sendButton_disabled st;
      loadingOverlay_show := loadingOverlay_show st;
      chatMessages := chatMessages st |}, Normal tt).

(** [callSuperAgentAPI(message)]: the request is built from the page and the
    session id; what comes back is [net]. *)
Definition callSuperAgentAPI (net : fetch_result) : completion response_data :=
  match net with
  | Rejected e => Throw e
  | Response ok status json =>
      if negb ok then Throw (Error ("HTTP error! status: " +:+ pretty status))
      else json
  end.

(** [sendMessage()], as one run on the page with no other handler in
    between; [time_user] and [time_reply] are the clock renderings at the two
    [addMessage] calls. *)
Definition sendMessage (time_user time_reply : string) (net : fetch_result)
    : M unit := λ st,
  let message := trim (chatInput_value st) in
  if String.eqb message "" || isLoading st then (st, Normal tt)
  else
    (addMessage "user" (Some message) None time_user;;
     clearInput;;
     setLoading true;;
     addTypingIndicator;;
     try_finally
       (try_catch
          (response_ ← lift (callSuperAgentAPI net);
           removeTypingIndicator;;
           if success response_
           then addMessage "assistant" (response response_) (Some response_)
                  time_reply
           else addMessage "system"
                  (Some "Sorry, I encountered an error processing your request. Please try again.")
                  None time_reply)
          (λ _,
             removeTypingIndicator;;
             addMessage "system"
               (Some "Sorry, I'm having trouble connecting to the server. Please check your connection and try again.")
               None time_reply))
       (setLoading false)) st.

(** The same reply with another blockers list. *)
Definition with_blockers (b : list string) (data : response_data)
    : response_data :=
  {| success := success data; response := response data;
     agent_responses := agent_responses data;
     recommendations := recommendations data;
     warnings := warnings data; blockers := b |}.

End SuperAgent.

(** ** What the agent-analysis block consists of *)

Module Rendering.
Import SuperAgent.

(** The items of a list, rendered one after the other, in order. *)
Definition concat_map {A} (item : A → string) (l : list A) : string :=
  foldr (λ x acc, item x +:+ acc) "" l.

Definition agent_tags (names : list string) : string :=
  concat_map (λ agent, open_tag "span" "agent-tag" +:+ agent +:+ "</span>") names.

Definition list_items (items : list string) : string :=
  concat_map (λ item, "<li>" +:+ item +:+ "</li>") items.

(** A titled list, left out when it has no item. *)
Definition list_section (class title : string) (items : list string) : string :=
  match items with
  | [] => ""
  | _ :: _ =>
      open_tag "div" class +:+ "<h5>" +:+ title +:+ "</h5><ul>" +:+
      list_items items +:+ "</ul></div>"
  end.

(** The block for a reply to which at least one agent contributed: the agent
    names, then the recommendations, then the warnings. *)
Definition details (names recs warns : list string) : string :=
  open_tag "div" "agent-response-details" +:+ "<h4>Agent Analysis</h4>" +:+
  open_tag "div" "agent-list-details" +:+ agent_tags names +:+ "</div>" +:+
  list_section "recommendations" "Recommendations" recs +:+
  list_section "warnings" "Warnings" warns +:+ "</div>".

End Rendering.

(** ** The dashboard layout *)

Module DashboardLayout.
Import JS.

(** The initializer of the [sessionId] state of [DashboardLayout]. *)
Definition sessionId (now : N) (random36 : string) : string :=
  "session_" +:+ pretty now +:+ "_" +:+ substr 2 9 random36.

End DashboardLayout.

(** ** The voice interface *)

Module Voice.
Import JS.

(** [name.replace(/_/g, ' ').replace('agent', '').trim()]; a TypeError when
    the name is not a string. *)
Definition display_name (name : value) : completion string :=
  match name with
  | Str s => Normal (trim (replace_first "agent" "" (replace_all "_"%char " " s)))
  | Undefined => Throw (type_error "undefined")
  | Null => Throw (type_error "null")
  | _ => Throw (Error "replace is not a function")
  end.

(** The callbacks [t => t.status === 'completed'] and
    [t => t.agent_name.replace(...)...]. *)
Definition is_completed (t : value) : completion bool :=
  status ← get t "status"; Normal (is_str "completed" status).

Definition consulted_name (t : value) : completion string :=
  name ← get t "agent_name"; display_name name.

(** [getConsultedAgents()], on the [currentWorkflow] of the orchestrator
    state. *)
Definition getConsultedAgents (workflow : value) : completion (list string) :=
  if negb (truthy workflow) then Normal []
  else
    tasks ← get workflow "tasks";
    if negb (truthy tasks) then Normal []
    else
      completed ← array_filter is_completed tasks;
      map_list consulted_name completed.

End Voice.

(** ** Task statuses *)

Module TaskStatus.
Import JS.

(** The terminal statuses [completed] and [failed], the non-terminal ones
    [pending] and [running], as the status strings the client receives. *)
Definition is_terminal (status : value) : bool :=
  is_str "completed" status || is_str "failed" status.

Definition is_active (status : value) : bool :=
  is_str "pending" status || is_str "running" status.

(** A sequence of statuses in which no non-terminal status follows a terminal
    one. *)
Fixpoint monotone (l : list value) : bool :=
  match l with
  | [] => true
  | v :: rest =>
      (negb (is_terminal v) || forallb (λ w, negb (is_active w)) rest)
      && monotone rest
  end.

(** A sequence of status reports [(agentName, status)] as dispatched by
    [getWorkflowStatus]. *)
Definition status_updates (reports : list (string * value))
    : list Orchestrator.action :=
  (λ r, Orchestrator.UPDATE_AGENT_STATUS r.1 r.2) <$> reports.

(** The statuses reported for one task, in order. *)
Definition reported (name : string) (reports : list (string * value))
    : list value :=
  (filter (λ r, r.1 = name) reports).*2.

(** The status the state holds for the task, followed by the reported ones. *)
Definition history (name : string) (st : Orchestrator.state)
    (reports : list (string * value)) : list value :=
  option_list (Orchestrator.agentStatuses st !! name) ++ reported name reports.

(** Whether a task object carries the status [completed]. *)
Definition completed (task : value) : bool :=
  match get task "status" with
  | Normal status => is_str "completed" status
  | Throw _ => false
  end.

(** Between two observations the task keeps its agent name, and stays
    completed once it is. *)
Definition task_progress (earlier later : value) : Prop :=
  get earlier "agent_name" = get later "agent_name" ∧
  (completed earlier = true → completed later = true).

End TaskStatus.

(** ** Confidence of the fertilizer advisor *)

Module Fertilizer.

(** Modelled from the spec: the confidence adjustment of the fertilizer
    advisor, whose code ([fertilizer_advisor.py]) is not among the sources.
    Its design summary states: RDF sources "exact", "group" or "generic";
    "Base 0.85, -0.10 for group, -0.20 for generic". *)
Inductive RDFSource : Type := exact | group | generic.

Definition base_confidence : Q := 0.85.

Definition deduction (source : RDFSource) : Q :=
  match source with
  | exact => 0
  | group => 0.10
  | generic => 0.20
  end.

Definition adjust (base : Q) (source : RDFSource) : Q :=
  (base - deduction source)%Q.

Definition confidence (source : RDFSource) : Q :=
  adjust base_confidence source.

End Fertilizer.

(** ** Ordering of recommendations by the aggregator *)

Module Aggregator.








End Aggregator.


(** ** Concrete runs *)

Module Examples.
Import JS.

(** A state with one running workflow whose only task is running. *)
Definition running_workflow : value :=
  Obj [("id", Str "wf-1"); ("status", Str "running")].

Definition st_running : Orchestrator.state := {|
  Orchestrator.loading := Bool false;
  Orchestrator.error := Null;
  Orchestrator.session := Null;
  Orchestrator.currentWorkflow := running_workflow;
  Orchestrator.agentStatuses := {[ "soil_health" := Str "running" ]};
  Orchestrator.messages := [];
  Orchestrator.reasoningTree := Null;
  Orchestrator.systemStatus := Null;
|}.

(** A state in which the task of [soil_health] has completed. *)
Definition st_completed : Orchestrator.state :=
  Orchestrator.orchestratorReducer Orchestrator.initialState
    (Orchestrator.UPDATE_AGENT_STATUS "soil_health" (Str "completed")).

(** Reports in which [soil_health] runs, completes and is then reported
    failed, with a report on another task in between. *)
Definition reports_ok : list (string * value) :=
  [("soil_health", Str "running"); ("soil_health", Str "completed");
   ("weather_watcher", Str "running"); ("soil_health", Str "failed")].

(** The chat after one question that the network failed to deliver. *)
Definition chat_after_query : Chat.state :=
  (Chat.sendMessage (Str "Which crop should I plant?") Null
     (Chat.Tick 1700000000000 1700000000000)
     (Chat.Tick 1700000000250 1700000000250)
     (Chat.Rejected (Error "Failed to fetch")) Chat.initialState).1.

(** The SuperAgent page with a question typed in and no request in flight. *)
Definition page_ready : SuperAgent.state := {|
  SuperAgent.sessionId := "session_1700000000000_k3j9x0q2z";
  SuperAgent.isLoading := false;
  SuperAgent.chatInput_value := "  Which crop should I plant? ";
  SuperAgent.chatInput_disabled := false;
  SuperAgent.sendButton_disabled := false;
  SuperAgent.loadingOverlay_show := false;
  SuperAgent.chatMessages := [];
|}.

(** Snapshots of one workflow as [getWorkflowStatus] may deliver them. *)
Definition task (id_ name status : string) : value :=
  Obj [("id", Str id_); ("agent_name", Str name); ("status", Str status)].

Definition workflow (tasks : list value) : value :=
  Obj [("id", Str "wf-1"); ("tasks", Arr tasks)].

Definition tasks_early : list value :=
  [task "t1" "soil_health_agent" "running";
   task "t2" "weather_watcher" "completed"].

Definition tasks_late : list value :=
  [task "t1" "soil_health_agent" "completed";
   task "t2" "weather_watcher" "completed"].

Definition tasks_added : list value :=
  [task "t3" "market_intelligence_agent" "running"].

(** A snapshot in which the completed task is reported running again. *)
Definition tasks_regressed : list value :=
  [task "t1" "soil_health_agent" "running";
   task "t2" "weather_watcher" "running"].

(** A reply to which a blocked task contributed. *)
Definition moisture_blocker : string :=
  "soil moisture too high for fertilizer application".

Definition blocked_reply : SuperAgent.response_data := {|
  SuperAgent.success := true;
  SuperAgent.response := Some "Fertilizer application is not advised today.";
  SuperAgent.agent_responses :=
    Some [SuperAgent.AgentResponse "fertilizer_advisor";
          SuperAgent.AgentResponse "weather_watcher"];
  SuperAgent.recommendations := Some ["Wait for the field to drain"];
  SuperAgent.warnings := Some ["Rain expected tomorrow"];
  SuperAgent.blockers := [moisture_blocker];
|}.

(** The same reply as the parsed JSON body the chat context receives. *)
Definition blocked_body : value :=
  Obj [("success", Bool true);
       ("response", Str "Fertilizer application is not advised today.");
       ("recommendations", Arr [Str "Wait for the field to drain"]);
       ("warnings", Arr [Str "Rain expected tomorrow"]);
       ("blockers", Arr [Str moisture_blocker])].


End Examples.

(** ** Traces of dispatched actions *)

Module Traces.
Import JS Orchestrator.

(** The one action that can raise [loading]. *)
Definition raises_loading (a : action) : Prop :=
  match a with SET_LOADING _ => True | _ => False end.

End Traces.

(** ** Further concrete runs *)

Module MoreExamples.
Import JS.

(** A status report on two agents and their workflow. *)
Definition reported_agents : list (string * value) :=
  [("soil_health", Str "running"); ("weather_watcher", Str "completed")].

Definition status_report : value :=
  Obj [("agents", Obj reported_agents);
       ("workflow", Examples.workflow Examples.tasks_early)].

End MoreExamples.

(** ** The chat context: agents, mentions and history *)

Module ChatQueries.
Import JS Chat.

(** An agent as the chat passes it around; [sendMessage] reads its [key] and
    its [indian_name]. *)
Record agent : Type := Agent { key : value; indian_name : string }.

Definition agent_object (a : agent) : value :=
  Obj [("key", key a); ("indian_name", Str (indian_name a))].

(** [sendMessageToAgent(message, agent)] *)
Definition sendMessageToAgent (message : string) (a : agent) (tu tr : tick)
    (net : fetch_result) : M value :=
  sendMessage (Str ("@" +:+ indian_name a +:+ " " +:+ message))
    (agent_object a) tu tr net.

(** [\w] of a regular expression without the unicode flag. *)
Definition is_word (c : ascii) : bool :=
  let n := nat_of_ascii c in
  (48 <=? n) && (n <=? 57) || (65 <=? n) && (n <=? 90) ||
  (97 <=? n) && (n <=? 122) || (n =? 95).

Fixpoint all_word (s : string) : bool :=
  match s with
  | EmptyString => true
  | String c rest => is_word c && all_word rest
  end.

(** The mention under construction, if it has a character. *)
Definition emit (w : string) : list string :=
  if String.eqb w "" then [] else [w].

(** The successive matches of [/@(\w+)/g] in [s], read from left to right:
    [cur] is [Some w] after an [@] followed by the word characters [w], and
    [None] elsewhere. *)
Fixpoint scan (cur : option string) (s : string) : list string :=
  match s with
  | EmptyString => from_option emit [] cur
  | String c rest =>
      match cur with
      | Some w =>
          if is_word c then scan (Some (w +:+ String c EmptyString)) rest
          else emit w ++
               (if Ascii.eqb c "@" then scan (Some EmptyString) rest
                else scan None rest)
      | None =>
          if Ascii.eqb c "@" then scan (Some EmptyString) rest
          else scan None rest
      end
  end.

Record parsed : Type := Parsed {
  originalMessage : string;
  mentions : list string;
  hasMentions : bool;
}.

(** [parseMessage(message)] *)
Definition parseMessage (message : string) : parsed :=
  let mentions := scan None message in
  {| originalMessage := message; mentions := mentions;
     hasMentions := 0 <? length mentions |}.

(** [getMessageHistory()] *)
Definition getMessageHistory (st : state) : list value := messages st.

(** [getLastMessage()] *)
Definition getLastMessage (st : state) : value :=
  match last (messages st) with
  | Some m => m
  | None => Null
  end.

(** Whether [pat] occurs in [s]. *)
Fixpoint contains (pat s : string) : bool :=
  String.prefix pat s ||
  match s with
  | EmptyString => false
  | String _ rest => contains pat rest
  end.

(** [v.includes(pat)] for a string [pat]: a substring test on a string, a
    membership test on an array, a TypeError otherwise. *)
Definition includes (v : value) (pat : string) : completion bool :=
  match v with
  | Str s => Normal (contains pat s)
  | Arr l => Normal (existsb (is_str pat) l)
  | Undefined => Throw (type_error "undefined")
  | Null => Throw (type_error "null")
  | _ => Throw (Error "includes is not a function")
  end.

(** The callback of [getMessagesByAgent]. *)
Definition of_agent (agentName : string) (msg : value) : completion bool :=
  a ← get msg "agent";
  if is_str agentName a then Normal true
  else
    type ← get msg "type";
    if is_str "user" type
    then content ← get msg "content"; includes content ("@" +:+ agentName)
    else Normal false.

(** [getMessagesByAgent(agentName)] *)
Definition getMessagesByAgent (agentName : string) (st : state)
    : completion (list value) :=
  filter_list (of_agent agentName) (messages st).

Definition has_type (type : string) (msg : value) : completion bool :=
  t ← get msg "type"; Normal (is_str type t).

(** SameValueZero, by which a [Set] tells its elements apart, on primitive
    values; arrays, objects and dates are references, and those of distinct
    messages are taken to be distinct. *)
Definition same_value_zero (a b : value) : bool :=
  match a, b with
  | Undefined, Undefined | Null, Null => true
  | Bool x, Bool y => Bool.eqb x y
  | Num p, Num q => Qeq_bool p q
  | Str s, Str t => String.eqb s t
  | _, _ => false
  end.

(** [[...new Set(l)]]: the first occurrence of every element, in order. *)
Fixpoint unique (seen l : list value) : list value :=
  match l with
  | [] => []
  | x :: rest =>
      if existsb (same_value_zero x) seen then unique seen rest
      else x :: unique (seen ++ [x]) rest
  end.

Record summary : Type := Summary {
  totalMessages : nat;
  userMessages : nat;
  assistantMessages : nat;
  errorMessages : nat;
  lastActivity : value;
  agentsUsed : list value;
}.

(** [getConversationSummary()] *)
Definition getConversationSummary (st : state) : completion summary :=
  userMessages ← filter_list (has_type "user") (messages st);
  assistantMessages ← filter_list (has_type "assistant") (messages st);
  errorMessages ← filter_list (has_type "error") (messages st);
  lastActivity ←
    match last (messages st) with
    | Some m => get m "timestamp"
    | None => Normal Null
    end;
  agents ← map_list (λ msg, get msg "agent") (messages st);
  Normal {|
    totalMessages := length (messages st);
    userMessages := length userMessages;
    assistantMessages := length assistantMessages;
    errorMessages := length errorMessages;
    lastActivity := lastActivity;
    agentsUsed := unique [] (List.filter truthy agents) |}.

(** One call of [sendMessage] with what it meets. *)
Record send : Type := Send {
  send_message : value;
  send_agent : value;
  send_tu : tick;
  send_tr : tick;
  send_net : fetch_result;
}.

(** The state after the calls [calls], one after the other. *)
Definition after_sends (calls : list send) (st : state) : state :=
  foldl (λ st c,
    (sendMessage (send_message c) (send_agent c) (send_tu c) (send_tr c)
       (send_net c) st).1) st calls.

End ChatQueries.

Module ChatExamples.
Import JS.

(** An agent of the chat and two clock readings. *)
Definition mitti : ChatQueries.agent :=
  {| ChatQueries.key := Str "soil_health"; ChatQueries.indian_name := "Mitti" |}.

Definition asked : Chat.tick := Chat.Tick 1700000000000 1700000000000.
Definition answered : Chat.tick := Chat.Tick 1700000000250 1700000000250.

End ChatExamples.

(** ** The chat of the orchestrator page *)

Module EnhancedChat.
Import JS Orchestrator.

(** [handleSendMessage()]: [inputText] and [st] are the text of the input
    box and the orchestrator state the handler reads ([isProcessing] is the
    [loading] of the state), [api] is what the request of [processQuery]
    delivers.  The handler catches what [processQuery] throws; it leaves the
    actions dispatched and the text of the input box. *)
Definition handleSendMessage (inputText : string) (st : state) (t1 t2 : tick)
    (api : completion value) : list action * string :=
  if negb (String.eqb (trim inputText) "") && negb (truthy (loading st)) then
    let sent := processQuery (Str (trim inputText)) t1 t2 api in
    match outcome sent with
    | Normal _ => (trace sent, "")
    | Throw _ => (trace sent, inputText)
    end
  else ([], inputText).

(** [handleVoiceInput(voiceInput)]: a recognised text goes to [processQuery],
    anything else (a recording) to [submitVoiceInput]; [api] is what the
    request of [submitVoiceInput] delivers, [apiQuery] that of
    [processQuery]. *)
Definition handleVoiceInput (voiceInput : value) (t1 t2 : tick)
    (api apiQuery : completion value) : list action :=
  match voiceInput with
  | Str s =>
      let text := trim s in
      if String.eqb text "" then []
      else trace (processQuery (Str text) t1 t2 apiQuery)
  | _ => trace (submitVoiceInput t1 t2 api apiQuery)
  end.

(** The [textToSpeak] handed to the voice interface. *)
Definition textToSpeak (messages : list value) : completion value :=
  match last messages with
  | None => Normal (Str "")
  | Some m =>
      type ← get m "type";
      if is_str "user" type then Normal (Str "") else get m "content"
  end.

End EnhancedChat.

(** ** The voice interface *)

Module VoiceInterface.
Import JS.

(** The refs of the component that hold text. *)
Record refs : Type := Refs {
  transcriptRef : string;
  finalTranscriptRef : string;
  lastSpokenTextRef : string;
}.

Definition initialRefs : refs :=
  {| transcriptRef := ""; finalTranscriptRef := ""; lastSpokenTextRef := "" |}.

(** [commitTranscript()]: [onVoiceInput] tells whether the callback is
    given; the result is the refs left and the text the callback is called
    with, if it is called. *)
Definition commitTranscript (onVoiceInput : bool) (r : refs)
    : refs * option string :=
  let finalText := trim (transcriptRef r) in
  ({| transcriptRef := ""; finalTranscriptRef := "";
      lastSpokenTextRef := lastSpokenTextRef r |},
   if negb (String.eqb finalText "") && onVoiceInput then Some finalText
   else None).

(** A recognition result: its first alternative and whether it is final. *)
Record result : Type := Result { transcript : string; isFinal : bool }.

(** The loop of [onresult] over the results from [resultIndex] on: the final
    text and the interim text gathered. *)
Definition gather (results : list result) : string * string :=
  foldl (λ acc r,
    if isFinal r then (acc.1 +:+ transcript r, acc.2)
    else (acc.1, acc.2 +:+ transcript r)) ("", "") results.

(** [recognitionInstance.onresult], on the refs; stopping the speech and the
    silence timer are outside them. *)
Definition onresult (results : list result) (r : refs) : refs :=
  let newFinal := (gather results).1 in
  let interimTranscript := (gather results).2 in
  let final :=
    if negb (String.eqb (trim newFinal) "")
    then trim (finalTranscriptRef r +:+ " " +:+ newFinal)
    else finalTranscriptRef r in
  {| transcriptRef := trim_start (final +:+ " " +:+ interimTranscript);
     finalTranscriptRef := final;
     lastSpokenTextRef := lastSpokenTextRef r |}.

(** The effect on [textToSpeak]: the refs left and the text spoken, if any;
    [speechSynthesis] tells whether the browser has speech synthesis.  A
    [textToSpeak] that is truthy and no text has no [trim]. *)
Definition speakEffect (textToSpeak : value) (speechSynthesis : bool) (r : refs)
    : completion (refs * option string) :=
  next ← match or_else textToSpeak (Str "") with
         | Str s => Normal (trim s)
         | _ => Throw (Error "trim is not a function")
         end;
  if String.eqb next "" then Normal (r, None)
  else if negb speechSynthesis then Normal (r, None)
  else if String.eqb next (lastSpokenTextRef r) then Normal (r, None)
  else Normal ({| transcriptRef := transcriptRef r;
                  finalTranscriptRef := finalTranscriptRef r;
                  lastSpokenTextRef := next |}, Some next).

(** The texts spoken over successive runs of the effect. *)
Fixpoint speak_all (runs : list (value * bool)) (r : refs)
    : completion (refs * list string) :=
  match runs with
  | [] => Normal (r, [])
  | run :: rest =>
      first ← speakEffect run.1 run.2 r;
      more ← speak_all rest first.1;
      Normal (more.1, from_option (λ s, [s]) [] first.2 ++ more.2)
  end.

End VoiceInterface.

(** ** Routing and farm data of the dashboard *)

Module DashboardRoutes.
Import JS.

(** [pathname.split('/').pop()]: the text after the last slash; [cur] is the
    segment read so far. *)
Fixpoint last_segment_from (cur : string) (s : string) : string :=
  match s with
  | EmptyString => cur
  | String c rest =>
      if Ascii.eqb c "/" then last_segment_from EmptyString rest
      else last_segment_from (cur +:+ String c EmptyString) rest
  end.

Definition last_segment (pathname : string) : string :=
  last_segment_from EmptyString pathname.

(** The cases of the [switch] of [routeToAgent], in order. *)
Definition cases : list (string * string) :=
  [("orchestrator", "super-agent");
   ("crop-selector", "crop_selector");
   ("seed-selection", "seed_selection");
   ("soil-health", "soil_health");
   ("fertilizer-advisor", "fertilizer_advisor");
   ("irrigation-planner", "irrigation_planner");
   ("pest-diagnostic", "pest_disease_diagnostic");
   ("weather-watcher", "weather_watcher");
   ("growth-monitor", "growth_stage_monitor");
   ("task-scheduler", "task_scheduler");
   ("machinery-manager", "machinery_manager");
   ("drone-commander", "drone_commander");
   ("layout-mapper", "layout_mapper");
   ("yield-predictor", "yield_predictor");
   ("profit-optimizer", "profit_optimization");
   ("sustainability-tracker", "sustainability_tracker");
   ("market-intelligence", "market_intelligence");
   ("logistics-storage", "logistics_storage");
   ("input-procurement", "input_procurement");
   ("crop-insurance-risk", "crop_insurance_risk");
   ("farmer-coach", "farmer_coach");
   ("compliance-certification", "compliance_certification");
   ("community-engagement", "community_engagement")].

(** [switch (last) { case k: return v; ... default: return d; }] *)
Fixpoint switch (last : string) (cs : list (string * string)) (default : string)
    : string :=
  match cs with
  | [] => default
  | (k, v) :: rest => if String.eqb last k then v else switch last rest default
  end.

(** [routeToAgent()], on the [pathname] of the location. *)
Definition routeToAgent (pathname : string) : string :=
  switch (last_segment pathname) cases "super-agent".

(** The [Route] elements that render a [ChatPanel]: their [path] and the
    [agent] of the panel. *)
Definition routes : list (string * string) :=
  [("orchestrator", "super-agent");
   ("crop-selector", "crop_selector");
   ("seed-selection", "seed_selection");
   ("soil-health", "soil_health");
   ("fertilizer-advisor", "fertilizer_advisor");
   ("irrigation-planner", "irrigation_planner");
   ("pest-diagnostic", "pest_disease_diagnostic");
   ("weather-watcher", "weather_watcher");
   ("growth-monitor", "growth_stage_monitor");
   ("task-scheduler", "task_scheduler");
   ("machinery-manager", "machinery_manager");
   ("drone-commander", "drone_commander");
   ("layout-mapper", "layout_mapper");
   ("yield-predictor", "yield_predictor");
   ("profit-optimizer", "profit_optimization");
   ("sustainability-tracker", "sustainability_tracker");
   ("market-intelligence", "market_intelligence");
   ("logistics-storage", "logistics_storage");
   ("input-procurement", "input_procurement");
   ("crop-insurance-risk", "crop_insurance_risk");
   ("farmer-coach", "farmer_coach");
   ("compliance-certification", "compliance_certification");
   ("community-engagement", "community_engagement");
   ("", "super-agent")].

(** The weather shown before any is loaded. *)
Definition defaultWeather : value :=
  Obj [("temperature", of_Z 27); ("humidity", of_Z 85);
       ("condition", Str "Partly Cloudy")].

(** The initial [farmData]. *)
Definition initialFarmData : value :=
  Obj [("farm_name", Str "Krishna farm");
       ("location", Str "Ahmedabad, Gujarat");
       ("size_acres", of_Z 15);
       ("weather", defaultWeather)].

(** The body of the [try] of the effect that loads the farm data:
    [dashboardData] is what [getDashboardData] resolves to, [farmData] the
    state before; the result is the state after. *)
Definition loadedFarmData (dashboardData farmData : value) : completion value :=
  farm ← get dashboardData "farm";
  if truthy farm then
    name ← get farm "name";
    location ← get farm "location";
    size_acres ← get farm "size_acres";
    weather ← get dashboardData "weather";
    Normal (Obj [
      ("farm_name", or_else name (Str "Krishna farm"));
      ("location", or_else location (Str "Ahmedabad, Gujarat"));
      ("size_acres", or_else size_acres (of_Z 15));
      ("weather", or_else weather defaultWeather)])
  else Normal farmData.

(** The effect: a failure of the request or of the body leaves the state as
    it was. *)
Definition loadFarmData (api : completion value) (farmData : value) : value :=
  match api ≫= (λ dashboardData, loadedFarmData dashboardData farmData) with
  | Normal loaded => loaded
  | Throw _ => farmData
  end.

End DashboardRoutes.

(** ** The API service of the orchestrator *)

Module ApiService.
Import JS.

(** [o[k] = v] on the properties of an object: the value of an own property
    is replaced where it stands, a new property comes last. *)
Fixpoint set_prop (k : string) (v : value) (props : list (string * value))
    : list (string * value) :=
  match props with
  | [] => [(k, v)]
  | (k', v') :: rest =>
      if String.eqb k' k then (k', v) :: rest
      else (k', v') :: set_prop k v rest
  end.

(** The own enumerable properties a spread copies; [undefined] and [null]
    have none. *)
Definition own_entries (v : value) : list (string * value) :=
  match object_entries v with
  | Normal entries => entries
  | Throw _ => []
  end.

(** [{ ...target, ...source }], continuing an object literal whose
    properties so far are [target]. *)
Definition spread (target : list (string * value)) (source : value)
    : list (string * value) :=
  foldl (λ acc entry, set_prop entry.1 entry.2 acc) target (own_entries source).

Definition defaultHeaders : value :=
  Obj [("Content-Type", Str "application/json")].

(** The [config] that [request] hands to [fetch]. *)
Definition config (options : value) : completion value :=
  headers ← get options "headers";
  Normal (Obj (spread
    [("headers", Obj (spread (spread [] defaultHeaders) headers))] options)).

(** What [fetch] delivers: it rejects, or it resolves to a response with its
    [ok] flag, [status] and [statusText], whose body parses or fails to. *)
Inductive fetch_result : Type :=
  | Rejected (e : exn)
  | Response (ok : bool) (status : N) (statusText : string)
      (json : completion value).

(** [request(endpoint, options)], from the response on. *)
Definition request (net : fetch_result) : completion value :=
  match net with
  | Rejected e => Throw e
  | Response ok status statusText json =>
      if negb ok
      then Throw (Error ("API Error: " +:+ pretty status +:+ " " +:+ statusText))
      else json
  end.

Definition is_array (v : value) : bool :=
  match v with Arr _ => true | _ => false end.

(** [try { return await request(...) } catch (e) { return null }], of
    [api.auth.getSession] and [api.logs.addLog]. *)
Definition or_null (net : fetch_result) : completion value :=
  match request net with
  | Normal res => Normal res
  | Throw _ => Normal Null
  end.

(** [api.hardware.getDevices] and [api.fields.getFields], with the field
    ([devices], [fields]) they read off a reply that is no array. *)
Definition list_of (field : string) (net : fetch_result) : completion value :=
  match
    res ← request net;
    if is_array res then Normal res
    else listed ← opt_get res field; Normal (or_else listed (Arr []))
  with
  | Normal l => Normal l
  | Throw _ => Normal (Arr [])
  end.

End ApiService.

(** ** What the SuperAgent page renders for a message *)

Module RenderedMessage.
Import JS SuperAgent.





End RenderedMessage.
(** * Properties *)

(** ** The reducer *)

Section Reducer.
Import JS Orchestrator.

Lemma dispatch_all_nil st : dispatch_all st [] = st.
Proof. reflexivity. Qed.

Lemma dispatch_all_cons st a acts :
  dispatch_all st (a :: acts) = dispatch_all (orchestratorReducer st a) acts.
Proof. reflexivity. Qed.

Lemma dispatch_all_app st acts1 acts2 :
  dispatch_all st (acts1 ++ acts2) = dispatch_all (dispatch_all st acts1) acts2.
Proof. unfold dispatch_all. apply foldl_app. Qed.

Lemma dispatch_all_snoc st acts a :
  dispatch_all st (acts ++ [a]) = orchestratorReducer (dispatch_all st acts) a.
Proof. rewrite dispatch_all_app. reflexivity. Qed.

(** Every action keeps the messages or appends one. *)
Lemma reducer_messages st a :
  messages (orchestratorReducer st a) = messages st ∨
  ∃ m, a = ADD_MESSAGE m ∧ messages (orchestratorReducer st a) = messages st ++ [m].
Proof. destruct a; simpl; eauto. Qed.

Lemma reducer_messages_prefix st a :
  messages st `prefix_of` messages (orchestratorReducer st a).
Proof.
  destruct (reducer_messages st a) as [-> | (m & _ & ->)].
  - reflexivity.
  - by apply prefix_app_r.
Qed.

Lemma dispatch_all_messages_prefix st acts :
  messages st `prefix_of` messages (dispatch_all st acts).
Proof.
  revert st. induction acts as [|a acts IH]; intros st.
  - reflexivity.
  - rewrite dispatch_all_cons. etrans; [apply reducer_messages_prefix | apply IH].
Qed.

(** The trace of [cancelWorkflow] and of [clearWorkflow]. *)
Lemma cancelWorkflow_resolved body :
  trace (cancelWorkflow (Normal body)) = [CLEAR_WORKFLOW].
Proof. reflexivity. Qed.

Lemma cancelWorkflow_rejected e :
  trace (cancelWorkflow (Throw e)) = [SET_ERROR (Str (message e))].
Proof. reflexivity. Qed.

End Reducer.

(** C10. The CLEAR_WORKFLOW transition resets currentWorkflow, agentStatuses,
    reasoningTree and error and leaves messages, session, systemStatus and
    loading unchanged; clearing a workflow, and cancelling one when the
    request succeeds, perform exactly this transition. *)
Theorem clear_workflow_frame (st : Orchestrator.state) (body : JS.value) :
  let st' := Orchestrator.orchestratorReducer st Orchestrator.CLEAR_WORKFLOW in
  (Orchestrator.currentWorkflow st' = JS.Null ∧
   Orchestrator.agentStatuses st' = ∅ ∧
   Orchestrator.reasoningTree st' = JS.Null ∧
   Orchestrator.error st' = JS.Null) ∧
  (Orchestrator.messages st' = Orchestrator.messages st ∧
   Orchestrator.session st' = Orchestrator.session st ∧
   Orchestrator.systemStatus st' = Orchestrator.systemStatus st ∧
   Orchestrator.loading st' = Orchestrator.loading st) ∧
  Orchestrator.run Orchestrator.clearWorkflow st = st' ∧
  Orchestrator.run (Orchestrator.cancelWorkflow (JS.Normal body)) st = st'.
Proof. simpl. repeat split. Qed.

(** ** Task statuses under status updates *)

Section StatusUpdates.
Import JS Orchestrator TaskStatus.

Lemma status_updates_snoc reports r :
  status_updates (reports ++ [r]) =
  status_updates reports ++ [UPDATE_AGENT_STATUS r.1 r.2].
Proof. unfold status_updates. by rewrite fmap_app. Qed.

Lemma reported_app name rs1 rs2 :
  reported name (rs1 ++ rs2) = reported name rs1 ++ reported name rs2.
Proof. unfold reported. by rewrite filter_app, fmap_app. Qed.

Lemma reported_snoc name reports r :
  reported name (reports ++ [r]) =
  if decide (r.1 = name) then reported name reports ++ [r.2]
  else reported name reports.
Proof.
  rewrite reported_app. unfold reported at 2.
  rewrite filter_cons, filter_nil.
  destruct (decide (r.1 = name)); simpl; [done | by rewrite app_nil_r].
Qed.

(** The state holds, for every task, the status reported last. *)
Lemma status_is_last_report st reports name :
  agentStatuses (dispatch_all st (status_updates reports)) !! name =
  last (history name st reports).
Proof.
  induction reports as [|r reports IH] using rev_ind.
  - unfold history, reported. simpl. rewrite app_nil_r.
    by destruct (agentStatuses st !! name).
  - rewrite status_updates_snoc, dispatch_all_snoc. simpl.
    unfold history in *. rewrite reported_snoc.
    destruct (decide (r.1 = name)) as [-> | Hne].
    + rewrite lookup_insert_eq, app_assoc. by rewrite last_snoc.
    + by rewrite lookup_insert_ne.
Qed.

Lemma terminal_not_active v : is_terminal v = true → is_active v = false.
Proof.
  unfold is_terminal, is_active, is_str. destruct v; try discriminate.
  intros [H | H]%orb_true_iff; apply String.eqb_eq in H; subst; reflexivity.
Qed.

Lemma monotone_lookup l i j v w :
  monotone l = true → i < j → l !! i = Some v → l !! j = Some w →
  is_terminal v = true → is_active w = false.
Proof.
  revert i j. induction l as [|x l IH]; intros i j Hm Hij Hi Hj Hv; [done|].
  simpl in Hm. apply andb_true_iff in Hm as [Hx Hl].
  destruct i as [|i], j as [|j]; try lia; simpl in Hi, Hj.
  - injection Hi as ->. rewrite Hv in Hx. simpl in Hx.
    rewrite forallb_forall in Hx.
    apply negb_true_iff, Hx, list_elem_of_In, list_elem_of_lookup. eauto.
  - apply (IH i j); auto with lia.
Qed.

Lemma history_take name st reports k :
  ∃ rest, history name st reports = history name st (take k reports) ++ rest.
Proof.
  exists (reported name (drop k reports)). unfold history.
  rewrite <-(take_drop k reports) at 1. by rewrite reported_app, app_assoc.
Qed.

End StatusUpdates.

(** C5, as the code has it.  The state holds for each task the status
    reported last, whatever the status was before.  Whenever the statuses held
    and then reported for a task never go from a terminal status back to
    pending or running, the task, once its status in the state is terminal, is
    never pending or running in a later state. *)
Theorem status_monotone_when_reports_are
    (st : Orchestrator.state) (reports : list (string * JS.value))
    (name : string) :
  Orchestrator.agentStatuses
    (Orchestrator.dispatch_all st (TaskStatus.status_updates reports)) !! name
    = last (TaskStatus.history name st reports) ∧
  (TaskStatus.monotone (TaskStatus.history name st reports) = true →
   ∀ (k1 k2 : nat) (v w : JS.value),
     k1 ≤ k2 →
     Orchestrator.agentStatuses
       (Orchestrator.dispatch_all st
          (TaskStatus.status_updates (take k1 reports))) !! name = Some v →
     Orchestrator.agentStatuses
       (Orchestrator.dispatch_all st
          (TaskStatus.status_updates (take k2 reports))) !! name = Some w →
     TaskStatus.is_terminal v = true →
     TaskStatus.is_active w = false).
Proof.
  split; [apply status_is_last_report|].
  intros Hmono k1 k2 v w Hk Hv Hw Hterm.
  rewrite status_is_last_report in Hv, Hw.
  destruct (history_take name st reports k2) as [rest2 Hrest2].
  destruct (history_take name st (take k2 reports) k1) as [rest1 Hrest1].
  rewrite take_take, Nat.min_l in Hrest1 by done.
  set (h1 := TaskStatus.history name st (take k1 reports)) in *.
  rewrite Hrest1 in Hw, Hrest2. clear Hrest1.
  rewrite last_lookup in Hv.
  destruct rest1 as [|x rest1 _] using rev_ind.
  - rewrite app_nil_r, last_lookup in Hw.
    assert (v = w) as -> by congruence. by apply terminal_not_active.
  - rewrite app_assoc, last_snoc in Hw. injection Hw as ->.
    assert (length h1 ≠ 0).
    { intros Hlen. destruct h1; [done | discriminate]. }
    apply (monotone_lookup _ (pred (length h1)) (length h1 + length rest1) v w
             Hmono); [lia | | | done].
    + rewrite Hrest2, <-!app_assoc. by rewrite lookup_app_l by lia.
    + rewrite Hrest2, <-!app_assoc. rewrite lookup_app_r by lia.
      rewrite lookup_app_r by lia.
      by replace (length h1 + length rest1 - length h1 - length rest1) with 0 by lia.
Qed.

(** C5, witness: a task reported running, completed and then failed. *)
Lemma status_monotone_when_reports_are_witness :
  TaskStatus.monotone
    (TaskStatus.history "soil_health" Orchestrator.initialState
       Examples.reports_ok) = true ∧
  Orchestrator.agentStatuses
    (Orchestrator.dispatch_all Orchestrator.initialState
       (TaskStatus.status_updates (take 2 Examples.reports_ok)))
    !! "soil_health" = Some (JS.Str "completed") ∧
  Orchestrator.agentStatuses
    (Orchestrator.dispatch_all Orchestrator.initialState
       (TaskStatus.status_updates (take 4 Examples.reports_ok)))
    !! "soil_health" = Some (JS.Str "failed") ∧
  TaskStatus.is_active (JS.Str "failed") = false.
Proof.
  assert (H1 : TaskStatus.monotone
    (TaskStatus.history "soil_health" Orchestrator.initialState
       Examples.reports_ok) = true) by (vm_compute; reflexivity).
  assert (H2 : Orchestrator.agentStatuses
    (Orchestrator.dispatch_all Orchestrator.initialState
       (TaskStatus.status_updates (take 2 Examples.reports_ok)))
    !! "soil_health" = Some (JS.Str "completed")) by (vm_compute; reflexivity).
  assert (H3 : Orchestrator.agentStatuses
    (Orchestrator.dispatch_all Orchestrator.initialState
       (TaskStatus.status_updates (take 4 Examples.reports_ok)))
    !! "soil_health" = Some (JS.Str "failed")) by (vm_compute; reflexivity).
  split; [exact H1 | split; [exact H2 | split; [exact H3 |]]].
  apply (proj2 (status_monotone_when_reports_are Orchestrator.initialState
                  Examples.reports_ok "soil_health") H1 2 4
           (JS.Str "completed") (JS.Str "failed"));
    [lia | exact H2 | exact H3 | reflexivity].
Defined.

(** C5, counterexample: a task that has completed is assigned running again by
    a status update. *)
Lemma completed_task_runs_again :
  Orchestrator.agentStatuses Examples.st_completed !! "soil_health"
    = Some (JS.Str "completed") ∧
  Orchestrator.agentStatuses
    (Orchestrator.orchestratorReducer Examples.st_completed
       (Orchestrator.UPDATE_AGENT_STATUS "soil_health" (JS.Str "running")))
    !! "soil_health" = Some (JS.Str "running").
Proof. split; vm_compute; reflexivity. Qed.

(** ** Cancelling a workflow *)

(** C7, as the code has it.  A cancellation that the server accepts clears the
    workflow from the client state: currentWorkflow becomes null, no task
    keeps a status (none is pending or running any more, none is marked
    failed), reasoningTree and error are reset.  A cancellation that the
    server rejects leaves the workflow and the task statuses as they were and
    records the error. *)
Theorem cancel_clears_workflow
    (st : Orchestrator.state) (body : JS.value) (e : JS.exn) :
  let accepted :=
    Orchestrator.run (Orchestrator.cancelWorkflow (JS.Normal body)) st in
  let rejected :=
    Orchestrator.run (Orchestrator.cancelWorkflow (JS.Throw e)) st in
  (Orchestrator.currentWorkflow accepted = JS.Null ∧
   (∀ name, Orchestrator.agentStatuses accepted !! name = None) ∧
   Orchestrator.reasoningTree accepted = JS.Null ∧
   Orchestrator.error accepted = JS.Null) ∧
  (Orchestrator.currentWorkflow rejected = Orchestrator.currentWorkflow st ∧
   Orchestrator.agentStatuses rejected = Orchestrator.agentStatuses st ∧
   Orchestrator.error rejected = JS.Str (JS.message e) ∧
   Orchestrator.loading rejected = JS.Bool false).
Proof.
  simpl. repeat split.
Qed.

(** C7, counterexample: after an accepted cancellation the running task is not
    failed (it has no status at all), the workflow is not completed (it is
    null), and a status that arrives afterwards is recorded, not discarded. *)
Lemma cancel_does_not_fail_tasks :
  let st' :=
    Orchestrator.run (Orchestrator.cancelWorkflow (JS.Normal JS.Undefined))
      Examples.st_running in
  Orchestrator.agentStatuses Examples.st_running !! "soil_health"
    = Some (JS.Str "running") ∧
  Orchestrator.agentStatuses st' !! "soil_health" ≠ Some (JS.Str "failed") ∧
  JS.opt_get (Orchestrator.currentWorkflow st') "status"
    ≠ JS.Normal (JS.Str "completed") ∧
  Orchestrator.agentStatuses
    (Orchestrator.orchestratorReducer st'
       (Orchestrator.UPDATE_AGENT_STATUS "soil_health" (JS.Str "completed")))
    !! "soil_health" = Some (JS.Str "completed").
Proof.
  simpl. split; [| split; [| split]].
  - vm_compute; reflexivity.
  - rewrite lookup_empty. discriminate.
  - discriminate.
  - apply lookup_insert_eq.
Qed.

(** ** The chat context *)

Section ChatContext.
Import JS Chat.

Lemma field_or_null_normal v k : ∃ a, field_or_null v k = Normal a.
Proof. unfold field_or_null. destruct v; simpl; repeat case_match; eauto. Qed.

(** Every run of [sendMessage] returns, appends the user message and exactly
    one reply of type [assistant] or [error], and clears [loading]. *)
Lemma sendMessage_outcome message selectedAgent tu tr net st :
  ∃ agent reply result,
    sendMessage message selectedAgent tu tr net st =
      ({| messages := messages st ++ [userMessage message agent tu; reply];
          loading := false;
          sessionId := sessionId (sendMessage message selectedAgent tu tr net st).1;
          currentAgent := currentAgent st |}, Normal result) ∧
    (get reply "type" = Normal (Str "assistant") ∨
     get reply "type" = Normal (Str "error")).
Proof.
  destruct (field_or_null_normal selectedAgent "indian_name") as [agent Hagent].
  exists agent.
  unfold sendMessage, try_finally, try_catch, mbind, stateful_bind, lift, mret,
    stateful_ret,
    setLoading, appendMessage, setSessionId.
  rewrite Hagent. simpl.
  destruct net as [e | ok [data | e]].
  - simpl. rewrite <-app_assoc. simpl. eauto 10.
  - destruct ok, data; simpl; repeat case_match; simplify_eq/=;
      rewrite <-?app_assoc; simpl; eauto 10.
  - destruct ok; simpl; rewrite <-app_assoc; simpl; eauto 10.
Qed.

End ChatContext.

(** ** The SuperAgent chat page *)

Section SuperAgentPage.
Import JS SuperAgent.

Lemma remove_by_id_absent i l :
  Forall (λ n, id n ≠ i) l → remove_by_id i l = l.
Proof.
  induction 1 as [|n l Hn _ IH]; simpl; [done|].
  apply String.eqb_neq in Hn. rewrite Hn. by f_equal.
Qed.

Lemma remove_by_id_app_absent i l1 l2 :
  Forall (λ n, id n ≠ i) l1 →
  remove_by_id i (l1 ++ l2) = l1 ++ remove_by_id i l2.
Proof.
  induction 1 as [|n l Hn _ IH]; simpl; [done|].
  apply String.eqb_neq in Hn. rewrite Hn. by f_equal.
Qed.

(** [addMessage] with a text appends one node of the class of its type; with
    a content that is not a string it throws before it touches the page. *)
Lemma addMessage_text type text data time :
  ∃ html, ∀ st,
    addMessage type (Some text) data time st =
    appendChild {| className := "message " +:+ type +:+ " new"; id := "";
                   innerHTML := html |} st.
Proof. unfold addMessage. simpl. eauto. Qed.

Lemma addMessage_not_text type data time st :
  addMessage type None data time st = (st, Throw (type_error "undefined")).
Proof. reflexivity. Qed.



(** A send that the guard rejects (empty input, or a request in flight)
    changes nothing. *)
Lemma sendMessage_guarded time_user time_reply net st :
  trim (chatInput_value st) = "" ∨ isLoading st = true →
  SuperAgent.sendMessage time_user time_reply net st = (st, Normal tt).
Proof.
  intros [H | H]; unfold SuperAgent.sendMessage; rewrite H; simpl; [done|].
  by rewrite orb_true_r.
Qed.

End SuperAgentPage.

(** ** Terminal outcome of a query *)



(** ** The message history *)

(** C6, as the code has it.  Every action of the reducer, hence every
    operation of the orchestrator context (processing a query, receiving a
    response, updating workflow status, cancelling or clearing a workflow,
    clearing an error), and every [sendMessage] of the chat context, yields a
    message list of which the previous one is a prefix.  The explicit
    [clearChat] of the chat context is the exception: it empties the history. *)
Theorem message_history_append_only_but_clearChat :
  (∀ st acts,
     Orchestrator.messages st `prefix_of`
       Orchestrator.messages (Orchestrator.dispatch_all st acts)) ∧
  (∀ A (p : Orchestrator.prog A) st,
     Orchestrator.messages st `prefix_of`
       Orchestrator.messages (Orchestrator.run p st)) ∧
  (∀ message selectedAgent tu tr net st,
     Chat.messages st `prefix_of`
       Chat.messages (Chat.sendMessage message selectedAgent tu tr net st).1) ∧
  (∀ st, Chat.messages (Chat.clearChat st) = []).
Proof.
  split; [| split; [| split]].
  - apply dispatch_all_messages_prefix.
  - intros. apply dispatch_all_messages_prefix.
  - intros.
    destruct (sendMessage_outcome message selectedAgent tu tr net st)
      as (agent & reply & result & -> & _).
    simpl. by apply prefix_app_r.
  - reflexivity.
Qed.

(** C6, counterexample: [clearChat] removes the messages appended before. *)
Lemma clearChat_drops_history :
  length (Chat.messages Examples.chat_after_query) = 2 ∧
  ¬ (Chat.messages Examples.chat_after_query `prefix_of`
       Chat.messages (Chat.clearChat Examples.chat_after_query)).
Proof.
  split; [reflexivity|].
  intros H. apply prefix_nil_inv in H. discriminate H.
Qed.

(** ** Session ids *)

Section SessionIds.
Import JS SuperAgent.

Lemma append_nil_l (s : string) : "" +:+ s = s.
Proof. reflexivity. Qed.

Lemma append_cons (c : ascii) (s t : string) :
  String c s +:+ t = String c (s +:+ t).
Proof. reflexivity. Qed.

Lemma append_assoc (s t u : string) : (s +:+ t) +:+ u = s +:+ t +:+ u.
Proof.
  induction s as [|c s IH]; [done|].
  by rewrite !append_cons, IH.
Qed.

Lemma pretty_N_char_digit x :
  bool_decide (is_Some (Ascii.is_nat (pretty_N_char x))) = true.
Proof.
  unfold pretty_N_char. repeat case_match; reflexivity.
Qed.

Lemma pretty_N_go_digits x s :
  digits_only s = true → digits_only (pretty_N_go x s) = true.
Proof.
  revert s. induction (N.lt_wf_0 x) as [x _ IH]; intros s Hs.
  destruct (decide (x = 0)%N) as [-> | Hx].
  - by rewrite pretty_N_go_0.
  - rewrite pretty_N_go_step by lia.
    apply IH; [apply N.div_lt; lia|].
    simpl. by rewrite pretty_N_char_digit, Hs.
Qed.

Lemma pretty_N_digits (n : N) : digits_only (pretty n) = true.
Proof.
  unfold pretty, pretty_N. case_decide; [reflexivity|].
  by apply pretty_N_go_digits.
Qed.

(** Two strings of digits followed by an underscore: the digits and what
    follows are determined by the concatenation. *)
Lemma digits_underscore_inj d1 d2 x y :
  digits_only d1 = true → digits_only d2 = true →
  d1 +:+ String "_" x = d2 +:+ String "_" y → d1 = d2 ∧ x = y.
Proof.
  revert d2. induction d1 as [|c d1 IH]; intros [|c' d2] H1 H2 Heq.
  - rewrite !append_nil_l in Heq. by injection Heq.
  - rewrite append_nil_l, append_cons in Heq. injection Heq as <- _.
    simpl in H2. discriminate.
  - rewrite append_nil_l, append_cons in Heq. injection Heq as -> _.
    simpl in H1. discriminate.
  - rewrite !append_cons in Heq. injection Heq as -> Heq.
    simpl in H1, H2.
    apply andb_true_iff in H1 as [_ H1]. apply andb_true_iff in H2 as [_ H2].
    destruct (IH d2 H1 H2 Heq) as [-> ->]. done.
Qed.

End SessionIds.

(** C8, as the code has it.  The id is built from the clock reading and the
    first nine base-36 digits of a random draw: two invocations return the
    same id exactly when they read the same millisecond and draw the same nine
    digits, and distinct ids otherwise.  The dashboard builds its session id
    in the same way. *)
Theorem generateSessionId_equal_iff
    (now1 now2 : N) (random1 random2 : string) :
  (SuperAgent.generateSessionId now1 random1
     = SuperAgent.generateSessionId now2 random2
   ↔ now1 = now2 ∧ JS.substr 2 9 random1 = JS.substr 2 9 random2) ∧
  DashboardLayout.sessionId now1 random1
    = SuperAgent.generateSessionId now1 random1.
Proof.
  split; [|reflexivity]. unfold SuperAgent.generateSessionId. split.
  - intros Heq. apply (inj (String.app "session_")) in Heq.
    apply digits_underscore_inj in Heq as [Hnow Hrandom];
      [| apply pretty_N_digits..].
    split; [by apply (inj pretty) | done].
  - by intros [-> ->].
Qed.

(** C8, witness: from the equality of two ids to that of the readings and of
    the nine digits. *)
Lemma generateSessionId_equal_iff_witness :
  SuperAgent.generateSessionId 1700000000000 "0.k3j9x0q2zabc"
    = SuperAgent.generateSessionId 1700000000000 "0.k3j9x0q2zxyz" ∧
  (1700000000000%N = 1700000000000%N ∧
   JS.substr 2 9 "0.k3j9x0q2zabc" = JS.substr 2 9 "0.k3j9x0q2zxyz").
Proof.
  assert (H : SuperAgent.generateSessionId 1700000000000 "0.k3j9x0q2zabc"
    = SuperAgent.generateSessionId 1700000000000 "0.k3j9x0q2zxyz")
    by (vm_compute; reflexivity).
  split; [exact H|].
  exact (proj1 (proj1 (generateSessionId_equal_iff 1700000000000 1700000000000
                         "0.k3j9x0q2zabc" "0.k3j9x0q2zxyz")) H).
Defined.

(** C8, counterexample: two invocations in the same millisecond whose random
    draws agree on the first nine digits, and two invocations with the same
    reading and the same draw, return the same id. *)
Lemma generateSessionId_collision :
  "0.k3j9x0q2zabc" ≠ "0.k3j9x0q2zxyz" ∧
  SuperAgent.generateSessionId 1700000000000 "0.k3j9x0q2zabc"
    = SuperAgent.generateSessionId 1700000000000 "0.k3j9x0q2zxyz" ∧
  SuperAgent.generateSessionId 1700000000000 "0.k3j9x0q2z"
    = "session_1700000000000_k3j9x0q2z".
Proof. split; [discriminate | split; vm_compute; reflexivity]. Qed.

(** ** Consulted agents *)

Section ConsultedAgents.
Import JS Voice TaskStatus.

Lemma getConsultedAgents_tasks workflow tasks :
  get workflow "tasks" = Normal (Arr tasks) →
  getConsultedAgents workflow =
    (completed ← filter_list is_completed tasks; map_list consulted_name completed).
Proof.
  intros Hget. unfold getConsultedAgents.
  assert (truthy workflow = true) as ->.
  { destruct workflow as [| |b|q|s|l|props|ms]; simpl in *; try done.
    destruct s; [discriminate | done]. }
  simpl. rewrite Hget. reflexivity.
Qed.

Lemma is_completed_spec t k : is_completed t = Normal k → completed t = k.
Proof.
  unfold is_completed, completed. destruct (get t "status"); simpl; congruence.
Qed.

Lemma consulted_name_progress t1 t2 : task_progress t1 t2 → consulted_name t1 = consulted_name t2.
Proof. intros [Hname _]. unfold consulted_name. by rewrite Hname. Qed.

Lemma filter_list_cons_inv p x l kept :
  filter_list p (x :: l) = Normal kept →
  ∃ keep kept',
    p x = Normal keep ∧ filter_list p l = Normal kept' ∧
    kept = if keep : bool then x :: kept' else kept'.
Proof.
  simpl. destruct (p x) as [keep|]; simpl; [|done].
  destruct (filter_list p l) as [kept'|]; simpl; [|done].
  intros [= <-]. eauto.
Qed.

Lemma map_list_cons_inv {B} (f : value → completion B) x l ys :
  map_list f (x :: l) = Normal ys →
  ∃ y ys', f x = Normal y ∧ map_list f l = Normal ys' ∧ ys = y :: ys'.
Proof.
  simpl. destruct (f x) as [y|]; simpl; [|done].
  destruct (map_list f l) as [ys'|]; simpl; [|done].
  intros [= <-]. eauto.
Qed.

Lemma consulted_sublist tasks1 tasks2 :
  Forall2 task_progress tasks1 tasks2 →
  ∀ extra kept1 kept2 names1 names2,
    filter_list is_completed tasks1 = Normal kept1 →
    filter_list is_completed (tasks2 ++ extra) = Normal kept2 →
    map_list consulted_name kept1 = Normal names1 →
    map_list consulted_name kept2 = Normal names2 →
    names1 `sublist_of` names2.
Proof.
  induction 1 as [|t1 t2 tasks1 tasks2 Hprog _ IH];
    intros extra kept1 kept2 names1 names2 Hf1 Hf2 Hm1 Hm2.
  - simpl in Hf1. injection Hf1 as <-. simpl in Hm1. injection Hm1 as <-.
    apply sublist_nil_l.
  - apply filter_list_cons_inv in Hf1 as (k1 & kept1' & Hk1 & Hf1 & ->).
    rewrite <-app_comm_cons in Hf2.
    apply filter_list_cons_inv in Hf2 as (k2 & kept2' & Hk2 & Hf2 & ->).
    apply is_completed_spec in Hk1, Hk2.
    destruct Hprog as [Hname Hcompleted].
    destruct k1.
    + rewrite (Hcompleted Hk1) in Hk2. subst k2.
      apply map_list_cons_inv in Hm1 as (n1 & names1' & Hn1 & Hm1 & ->).
      apply map_list_cons_inv in Hm2 as (n2 & names2' & Hn2 & Hm2 & ->).
      rewrite (consulted_name_progress t1 t2) in Hn1 by done.
      assert (n1 = n2) as -> by congruence.
      apply sublist_skip. eapply IH; eauto.
    + destruct k2.
      * apply map_list_cons_inv in Hm2 as (n2 & names2' & Hn2 & Hm2 & ->).
        apply sublist_cons. eapply IH; eauto.
      * eapply IH; eauto.
Qed.

End ConsultedAgents.

(** C9, as the code has it.  The contributing-adapter list of an observation
    is made of the tasks whose status in the current workflow snapshot is
    [completed].  When, from an earlier to a later snapshot, every task keeps
    its agent name and every completed task stays completed (tasks may have
    been added at the end), the later list contains the earlier one, in the
    same order; in particular it is a superset. *)
Theorem consulted_agents_grow
    (earlier later : JS.value) (tasks1 tasks2 extra : list JS.value)
    (names1 names2 : list string) :
  JS.get earlier "tasks" = JS.Normal (JS.Arr tasks1) →
  JS.get later "tasks" = JS.Normal (JS.Arr (tasks2 ++ extra)) →
  Forall2 TaskStatus.task_progress tasks1 tasks2 →
  Voice.getConsultedAgents earlier = JS.Normal names1 →
  Voice.getConsultedAgents later = JS.Normal names2 →
  names1 `sublist_of` names2 ∧ names1 ⊆ names2.
Proof.
  intros Ht1 Ht2 Hprog Hc1 Hc2.
  rewrite (getConsultedAgents_tasks _ _ Ht1) in Hc1.
  rewrite (getConsultedAgents_tasks _ _ Ht2) in Hc2.
  destruct (JS.filter_list _ tasks1) as [kept1|] eqn:Hf1; [|done].
  destruct (JS.filter_list _ (tasks2 ++ extra)) as [kept2|] eqn:Hf2; [|done].
  simpl in Hc1, Hc2.
  assert (names1 `sublist_of` names2) as Hsub
    by (eapply consulted_sublist; eauto).
  split; [done | by apply sublist_subseteq].
Qed.

(** C9, witness: a snapshot in which a second task completes and a third
    one is added. *)
Lemma consulted_agents_grow_witness :
  JS.get (Examples.workflow Examples.tasks_early) "tasks"
    = JS.Normal (JS.Arr Examples.tasks_early) ∧
  JS.get (Examples.workflow (Examples.tasks_late ++ Examples.tasks_added)) "tasks"
    = JS.Normal (JS.Arr (Examples.tasks_late ++ Examples.tasks_added)) ∧
  Forall2 TaskStatus.task_progress Examples.tasks_early Examples.tasks_late ∧
  Voice.getConsultedAgents (Examples.workflow Examples.tasks_early)
    = JS.Normal ["weather watcher"] ∧
  Voice.getConsultedAgents
    (Examples.workflow (Examples.tasks_late ++ Examples.tasks_added))
    = JS.Normal ["soil health"; "weather watcher"] ∧
  ["weather watcher"] `sublist_of` ["soil health"; "weather watcher"] ∧
  ["weather watcher"] ⊆ ["soil health"; "weather watcher"].
Proof.
  assert (H1 : JS.get (Examples.workflow Examples.tasks_early) "tasks"
    = JS.Normal (JS.Arr Examples.tasks_early)) by reflexivity.
  assert (H2 : JS.get
    (Examples.workflow (Examples.tasks_late ++ Examples.tasks_added)) "tasks"
    = JS.Normal (JS.Arr (Examples.tasks_late ++ Examples.tasks_added)))
    by reflexivity.
  assert (H3 : Forall2 TaskStatus.task_progress Examples.tasks_early
                 Examples.tasks_late).
  { repeat constructor; vm_compute; congruence. }
  assert (H4 : Voice.getConsultedAgents (Examples.workflow Examples.tasks_early)
    = JS.Normal ["weather watcher"]) by (vm_compute; reflexivity).
  assert (H5 : Voice.getConsultedAgents
    (Examples.workflow (Examples.tasks_late ++ Examples.tasks_added))
    = JS.Normal ["soil health"; "weather watcher"]) by (vm_compute; reflexivity).
  split; [exact H1 | split; [exact H2 | split; [exact H3 | split;
    [exact H4 | split; [exact H5 |]]]]].
  exact (consulted_agents_grow _ _ _ _ _ _ _ H1 H2 H3 H4 H5).
Defined.

(** C9, counterexample: a later snapshot of the same workflow that reports the
    completed task as running replaces the earlier one, and the
    contributing-adapter list of the later observation loses that task. *)
Lemma consulted_agents_shrink :
  let st1 :=
    Orchestrator.orchestratorReducer Orchestrator.initialState
      (Orchestrator.SET_WORKFLOW (Examples.workflow Examples.tasks_early)) in
  let st2 :=
    Orchestrator.orchestratorReducer st1
      (Orchestrator.SET_WORKFLOW (Examples.workflow Examples.tasks_regressed)) in
  Voice.getConsultedAgents (Orchestrator.currentWorkflow st1)
    = JS.Normal ["weather watcher"] ∧
  Voice.getConsultedAgents (Orchestrator.currentWorkflow st2) = JS.Normal [] ∧
  ¬ (["weather watcher"] ⊆ ([] : list string)).
Proof.
  split; [vm_compute; reflexivity | split; [vm_compute; reflexivity |]].
  intros H. specialize (H "weather watcher"). rewrite elem_of_nil in H.
  apply H. apply list_elem_of_here.
Qed.

(** ** Confidence by provenance *)

(** C4. The confidence is the base minus a fixed deduction per provenance
    level, so that for the same base an exact match is at least as confident
    as a group match, and a group match at least as confident as the generic
    fallback; with the base 0.85 the three levels give 0.85, 0.75 and 0.65. *)
Theorem confidence_by_provenance (base : Q) :
  (Fertilizer.adjust base Fertilizer.generic
     <= Fertilizer.adjust base Fertilizer.group)%Q ∧
  (Fertilizer.adjust base Fertilizer.group
     <= Fertilizer.adjust base Fertilizer.exact)%Q ∧
  (Fertilizer.adjust base Fertilizer.exact == base - 0)%Q ∧
  (Fertilizer.adjust base Fertilizer.group == base - 0.10)%Q ∧
  (Fertilizer.adjust base Fertilizer.generic == base - 0.20)%Q ∧
  (Fertilizer.confidence Fertilizer.exact == 0.85)%Q ∧
  (Fertilizer.confidence Fertilizer.group == 0.75)%Q ∧
  (Fertilizer.confidence Fertilizer.generic == 0.65)%Q.
Proof.
  unfold Fertilizer.confidence, Fertilizer.adjust, Fertilizer.deduction.
  repeat split; try reflexivity.
  - apply Qplus_le_r, Qopp_le_compat. discriminate.
  - apply Qplus_le_r, Qopp_le_compat. discriminate.
Qed.

(** ** Ranking of recommendations *)

Section Ranking.
Import Aggregator.







End Ranking.

(** ** The reply shown to the client *)

Section Reply.
Import JS.

Lemma opt_get_normal v k : ∃ a, opt_get v k = Normal a.
Proof. destruct v; simpl; repeat case_match; eauto. Qed.

Lemma object_keys_truthy v : truthy v = true → ∃ ks, object_keys v = Normal ks.
Proof. destruct v; try discriminate; simpl; eauto. Qed.

(** A reply that the chat context takes as successful becomes an assistant
    message built from the fields [response], [agent_details], [intent],
    [recommendations], [warnings] and [execution_time] of the body. *)
Lemma sendMessage_success message selectedAgent tu tr props st :
  is_false (lookup_prop "success" props) = false →
  ∃ agent reply_agent result,
    Chat.sendMessage message selectedAgent tu tr
      (Chat.Response true (Normal (Obj props))) st =
      ({| Chat.messages :=
            Chat.messages st ++
              [Chat.userMessage message agent tu;
               Chat.assistantMessage
                 (lookup_prop "response" props) reply_agent
                 (lookup_prop "intent" props)
                 (lookup_prop "recommendations" props)
                 (lookup_prop "warnings" props)
                 (lookup_prop "execution_time" props) tr];
          Chat.loading := false;
          Chat.sessionId :=
            Chat.sessionId
              (Chat.sendMessage message selectedAgent tu tr
                 (Chat.Response true (Normal (Obj props))) st).1;
          Chat.currentAgent := Chat.currentAgent st |},
       Normal result).
Proof.
  intros Hsuccess.
  destruct (field_or_null_normal selectedAgent "indian_name") as [agent Hagent].
  exists agent.
  unfold Chat.sendMessage, try_finally, try_catch, mbind, stateful_bind,
    lift, mret, stateful_ret, Chat.setLoading, Chat.appendMessage,
    Chat.setSessionId.
  rewrite Hagent. simpl. rewrite Hsuccess. simpl.
  destruct (opt_get_normal (lookup_prop "session" props) "id") as [sid ->].
  destruct (truthy (lookup_prop "agent_details" props)) eqn:Hdetails.
  - destruct (object_keys_truthy _ Hdetails) as [ks ->].
    repeat case_match; simplify_eq/=; rewrite <-?app_assoc; simpl; eauto.
  - repeat case_match; simplify_eq/=; rewrite <-?app_assoc; simpl; eauto.
Qed.

Lemma append_each_spec {A} (item : A → string) l html :
  SuperAgent.append_each item l html = html +:+ Rendering.concat_map item l.
Proof.
  unfold SuperAgent.append_each. revert html.
  induction l as [|x l IH]; intros html; simpl.
  - induction html as [|c html IHh]; [done|]. by rewrite append_cons, <-IHh.
  - by rewrite IH, append_assoc.
Qed.

(** The block rendered for a reply to which at least one agent contributed. *)
Lemma createAgentResponseDetails_shape data r rs :
  SuperAgent.agent_responses data = Some (r :: rs) →
  SuperAgent.createAgentResponseDetails data =
    Rendering.details (SuperAgent.agent_name <$> r :: rs)
      (default [] (SuperAgent.recommendations data))
      (default [] (SuperAgent.warnings data)).
Proof.
  intros Hres. unfold SuperAgent.createAgentResponseDetails, Rendering.details,
    Rendering.list_section, Rendering.agent_tags, Rendering.list_items.
  rewrite Hres.
  destruct (SuperAgent.recommendations data) as [[|rec recs]|],
    (SuperAgent.warnings data) as [[|warn warns]|];
    unfold default, from_option, id;
    rewrite ?append_each_spec, ?append_assoc; reflexivity.
Qed.






End Reply.




(** C1, as the code has it.  The message built for a successful reply carries
    the answer text, the recommendations and the warnings of the response as
    received, and no blockers: the assistant message of the chat context has
    no [blockers] property, and neither the agent-analysis block of the
    SuperAgent page nor anything else the page does depends on the blockers
    of the reply. *)
Theorem reply_carries_no_blockers :
  (∀ message selectedAgent tu tr props st,
     JS.is_false (JS.lookup_prop "success" props) = false →
     ∃ user reply result,
       Chat.sendMessage message selectedAgent tu tr
         (Chat.Response true (JS.Normal (JS.Obj props))) st =
         ({| Chat.messages := Chat.messages st ++ [user; reply];
             Chat.loading := false;
             Chat.sessionId :=
               Chat.sessionId
                 (Chat.sendMessage message selectedAgent tu tr
                    (Chat.Response true (JS.Normal (JS.Obj props))) st).1;
             Chat.currentAgent := Chat.currentAgent st |},
          JS.Normal result) ∧
       JS.get reply "content" =
         JS.Normal (JS.or_else (JS.lookup_prop "response" props)
                      (JS.Str "No response received")) ∧
       JS.get reply "recommendations" =
         JS.Normal (JS.or_else (JS.lookup_prop "recommendations" props)
                      (JS.Arr [])) ∧
       JS.get reply "warnings" =
         JS.Normal (JS.or_else (JS.lookup_prop "warnings" props) (JS.Arr [])) ∧
       JS.get reply "blockers" = JS.Normal JS.Undefined) ∧
  (∀ data r rs,
     SuperAgent.agent_responses data = Some (r :: rs) →
     SuperAgent.createAgentResponseDetails data =
       Rendering.details (SuperAgent.agent_name <$> r :: rs)
         (default [] (SuperAgent.recommendations data))
         (default [] (SuperAgent.warnings data))) ∧
  (∀ time_user time_reply ok status data b st,
     SuperAgent.sendMessage time_user time_reply
       (SuperAgent.Response ok status
          (JS.Normal (SuperAgent.with_blockers b data))) st =
     SuperAgent.sendMessage time_user time_reply
       (SuperAgent.Response ok status (JS.Normal data)) st).
Proof.
  split; [| split].
  - intros message selectedAgent tu tr props st Hsuccess.
    destruct (sendMessage_success message selectedAgent tu tr props st Hsuccess)
      as (agent & reply_agent & result & Hsend).
    eexists _, _, result. split; [exact Hsend|]. repeat split.
  - apply createAgentResponseDetails_shape.
  - intros. unfold SuperAgent.sendMessage, SuperAgent.callSuperAgentAPI.
    destruct ok; reflexivity.
Qed.

(** C1, witness: a successful reply with an answer text and a blocker. *)
Lemma reply_carries_no_blockers_witness :
  JS.is_false (JS.lookup_prop "success"
    [("success", JS.Bool true); ("response", JS.Str "Do not fertilize today.");
     ("blockers", JS.Arr [JS.Str Examples.moisture_blocker])]) = false ∧
  ∃ user reply result,
    Chat.sendMessage (JS.Str "Can I fertilize today?") JS.Null
      (Chat.Tick 1700000000000 1700000000000)
      (Chat.Tick 1700000000250 1700000000250)
      (Chat.Response true (JS.Normal (JS.Obj
        [("success", JS.Bool true); ("response", JS.Str "Do not fertilize today.");
         ("blockers", JS.Arr [JS.Str Examples.moisture_blocker])])))
      Chat.initialState =
      ({| Chat.messages := Chat.messages Chat.initialState ++ [user; reply];
          Chat.loading := false;
          Chat.sessionId :=
            Chat.sessionId
              (Chat.sendMessage (JS.Str "Can I fertilize today?") JS.Null
                 (Chat.Tick 1700000000000 1700000000000)
                 (Chat.Tick 1700000000250 1700000000250)
                 (Chat.Response true (JS.Normal (JS.Obj
                   [("success", JS.Bool true);
                    ("response", JS.Str "Do not fertilize today.");
                    ("blockers", JS.Arr [JS.Str Examples.moisture_blocker])])))
                 Chat.initialState).1;
          Chat.currentAgent := Chat.currentAgent Chat.initialState |},
       JS.Normal result) ∧
    JS.get reply "content" =
      JS.Normal (JS.or_else
        (JS.lookup_prop "response"
           [("success", JS.Bool true);
            ("response", JS.Str "Do not fertilize today.");
            ("blockers", JS.Arr [JS.Str Examples.moisture_blocker])])
        (JS.Str "No response received")) ∧
    JS.get reply "recommendations" =
      JS.Normal (JS.or_else
        (JS.lookup_prop "recommendations"
           [("success", JS.Bool true);
            ("response", JS.Str "Do not fertilize today.");
            ("blockers", JS.Arr [JS.Str Examples.moisture_blocker])])
        (JS.Arr [])) ∧
    JS.get reply "warnings" =
      JS.Normal (JS.or_else
        (JS.lookup_prop "warnings"
           [("success", JS.Bool true);
            ("response", JS.Str "Do not fertilize today.");
            ("blockers", JS.Arr [JS.Str Examples.moisture_blocker])])
        (JS.Arr [])) ∧
    JS.get reply "blockers" = JS.Normal JS.Undefined.
Proof.
  split; [reflexivity|].
  exact (proj1 reply_carries_no_blockers (JS.Str "Can I fertilize today?")
           JS.Null (Chat.Tick 1700000000000 1700000000000)
           (Chat.Tick 1700000000250 1700000000250)
           [("success", JS.Bool true);
            ("response", JS.Str "Do not fertilize today.");
            ("blockers", JS.Arr [JS.Str Examples.moisture_blocker])]
           Chat.initialState eq_refl).
Defined.

(** C1, counterexample: a reply with a blocker.  The assistant message the
    chat context appends has no blockers, and the blocker occurs nowhere in
    what the SuperAgent page shows for the reply. *)
Lemma blocker_dropped_by_client :
  JS.get Examples.blocked_body "blockers"
    = JS.Normal (JS.Arr [JS.Str Examples.moisture_blocker]) ∧
  (∃ user reply,
     Chat.messages
       (Chat.sendMessage (JS.Str "Can I fertilize today?") JS.Null
          (Chat.Tick 1700000000000 1700000000000)
          (Chat.Tick 1700000000250 1700000000250)
          (Chat.Response true (JS.Normal Examples.blocked_body))
          Chat.initialState).1 = [user; reply] ∧
     JS.get reply "type" = JS.Normal (JS.Str "assistant") ∧
     JS.get reply "blockers" = JS.Normal JS.Undefined) ∧
  SuperAgent.blockers Examples.blocked_reply = [Examples.moisture_blocker] ∧
  (∃ user reply,
     SuperAgent.chatMessages
       (SuperAgent.sendMessage "10:15 AM" "10:16 AM"
          (SuperAgent.Response true 200 (JS.Normal Examples.blocked_reply))
          Examples.page_ready).1 = [user; reply] ∧
     SuperAgent.className reply = "message assistant new" ∧
     String.index 0 Examples.moisture_blocker (SuperAgent.innerHTML reply) = None ∧
     String.index 0 "Wait for the field to drain" (SuperAgent.innerHTML reply)
       ≠ None).
Proof.
  split; [reflexivity | split; [| split; [reflexivity |]]].
  - eexists _, _. split; [vm_compute; reflexivity|]. split; reflexivity.
  - eexists _, _. split; [vm_compute; reflexivity|].
    split; [reflexivity | split; [vm_compute; reflexivity | vm_compute; discriminate]].
Qed.

(** * Further properties of the orchestrator context *)

Section Provider.
Import JS Orchestrator.

Lemma run_trace {A} (p : prog A) st : run p st = dispatch_all st (trace p).
Proof. reflexivity. Qed.

(** What [report_error] adds to a function that throws. *)
Lemma report_error_throw {A} (p : prog A) e :
  outcome (report_error p) = Throw e →
  outcome p = Throw e ∧
  trace (report_error p) = trace p ++ [SET_ERROR (Str (message e))].
Proof.
  unfold report_error, try_catch. destruct (outcome p) as [a | e'] eqn:Hp.
  - rewrite Hp. discriminate.
  - simpl. intros [= ->]. done.
Qed.

Lemma report_error_normal {A} (p : prog A) a :
  outcome (report_error p) = Normal a →
  outcome p = Normal a ∧ trace (report_error p) = trace p.
Proof.
  unfold report_error, try_catch. destruct (outcome p) as [a' | e'] eqn:Hp.
  - rewrite Hp. intros [= ->]. done.
  - simpl. discriminate.
Qed.

Lemma report_error_recorded {A} (p : prog A) st e :
  outcome (report_error p) = Throw e →
  error (run (report_error p) st) = Str (message e) ∧
  loading (run (report_error p) st) = Bool false.
Proof.
  intros [_ Htrace]%report_error_throw.
  rewrite run_trace, Htrace, dispatch_all_snoc. done.
Qed.

(** The actions dispatched by [forEach] over the entries of [status.agents]. *)
Lemma for_each_updates entries :
  for_each entries (λ entry, dispatch (UPDATE_AGENT_STATUS entry.1 entry.2)) =
  Prog (TaskStatus.status_updates entries) (Normal tt).
Proof.
  induction entries as [|entry entries IH]; [done|].
  cbn [for_each]. rewrite IH. reflexivity.
Qed.

End Provider.

(** X1. A provider function that fails records the failure: whenever
    processQuery, getWorkflowStatus, getReasoningTree, submitVoiceInput,
    getVoiceOutput, updateSession or cancelWorkflow throws, the state it
    leaves has the message of the exception as [error] and [loading] false. *)
Theorem provider_failure_recorded (st : Orchestrator.state) (e : JS.exn) :
  (∀ query t1 t2 api,
     Orchestrator.outcome (Orchestrator.processQuery query t1 t2 api)
       = JS.Throw e →
     Orchestrator.error
       (Orchestrator.run (Orchestrator.processQuery query t1 t2 api) st)
       = JS.Str (JS.message e) ∧
     Orchestrator.loading
       (Orchestrator.run (Orchestrator.processQuery query t1 t2 api) st)
       = JS.Bool false) ∧
  (∀ api,
     Orchestrator.outcome (Orchestrator.getWorkflowStatus api) = JS.Throw e →
     Orchestrator.error (Orchestrator.run (Orchestrator.getWorkflowStatus api) st)
       = JS.Str (JS.message e) ∧
     Orchestrator.loading
       (Orchestrator.run (Orchestrator.getWorkflowStatus api) st)
       = JS.Bool false) ∧
  (∀ api,
     Orchestrator.outcome (Orchestrator.getReasoningTree api) = JS.Throw e →
     Orchestrator.error (Orchestrator.run (Orchestrator.getReasoningTree api) st)
       = JS.Str (JS.message e) ∧
     Orchestrator.loading
       (Orchestrator.run (Orchestrator.getReasoningTree api) st)
       = JS.Bool false) ∧
  (∀ t1 t2 api apiQuery,
     Orchestrator.outcome (Orchestrator.submitVoiceInput t1 t2 api apiQuery)
       = JS.Throw e →
     Orchestrator.error
       (Orchestrator.run (Orchestrator.submitVoiceInput t1 t2 api apiQuery) st)
       = JS.Str (JS.message e) ∧
     Orchestrator.loading
       (Orchestrator.run (Orchestrator.submitVoiceInput t1 t2 api apiQuery) st)
       = JS.Bool false) ∧
  (∀ api,
     Orchestrator.outcome (Orchestrator.getVoiceOutput api) = JS.Throw e →
     Orchestrator.error (Orchestrator.run (Orchestrator.getVoiceOutput api) st)
       = JS.Str (JS.message e) ∧
     Orchestrator.loading (Orchestrator.run (Orchestrator.getVoiceOutput api) st)
       = JS.Bool false) ∧
  (∀ st0 api,
     Orchestrator.outcome (Orchestrator.updateSession st0 api) = JS.Throw e →
     Orchestrator.error (Orchestrator.run (Orchestrator.updateSession st0 api) st)
       = JS.Str (JS.message e) ∧
     Orchestrator.loading
       (Orchestrator.run (Orchestrator.updateSession st0 api) st)
       = JS.Bool false) ∧
  (∀ api,
     Orchestrator.outcome (Orchestrator.cancelWorkflow api) = JS.Throw e →
     Orchestrator.error (Orchestrator.run (Orchestrator.cancelWorkflow api) st)
       = JS.Str (JS.message e) ∧
     Orchestrator.loading (Orchestrator.run (Orchestrator.cancelWorkflow api) st)
       = JS.Bool false).
Proof.
  do 6 (split; [intros; by apply report_error_recorded|]).
  intros; by apply report_error_recorded.
Qed.

(** X1, witness: a cancel request that the network fails to deliver. *)
Lemma provider_failure_recorded_witness :
  Orchestrator.outcome
    (Orchestrator.cancelWorkflow (JS.Throw (JS.Error "Failed to fetch")))
    = JS.Throw (JS.Error "Failed to fetch") ∧
  Orchestrator.error
    (Orchestrator.run
       (Orchestrator.cancelWorkflow (JS.Throw (JS.Error "Failed to fetch")))
       Examples.st_running) = JS.Str "Failed to fetch" ∧
  Orchestrator.loading
    (Orchestrator.run
       (Orchestrator.cancelWorkflow (JS.Throw (JS.Error "Failed to fetch")))
       Examples.st_running) = JS.Bool false.
Proof.
  split; [reflexivity|].
  exact (proj2 (proj2 (proj2 (proj2 (proj2 (proj2
           (provider_failure_recorded Examples.st_running
              (JS.Error "Failed to fetch")))))))
           (JS.Throw (JS.Error "Failed to fetch")) eq_refl).
Defined.

Section ProcessQuery.
Import JS Orchestrator.

Lemma get_defined v k : v ≠ Undefined → v ≠ Null → ∃ a, get v k = Normal a.
Proof. destruct v; try done; simpl; repeat case_match; eauto. Qed.

(** The user message [processQuery] dispatches first and the system message
    it dispatches last. *)
Lemma processQuery_resolved query t1 t2 response st :
  response ≠ Undefined → response ≠ Null →
  ∃ workflow session content workflowId,
    get response "workflow" = Normal workflow ∧
    get response "session" = Normal session ∧
    get response "response" = Normal content ∧
    opt_get workflow "id" = Normal workflowId ∧
    outcome (processQuery query t1 t2 (Normal response)) = Normal response ∧
    run (processQuery query t1 t2 (Normal response)) st =
      {| loading := Bool false; error := Null;
         session := if truthy session then session else Orchestrator.session st;
         currentWorkflow := workflow;
         agentStatuses := agentStatuses st;
         messages := messages st ++ [
           Obj [("id", of_Z (now t1)); ("type", Str "user"); ("content", query);
                ("timestamp", Str (iso t1))];
           Obj [("id", of_Z (now t2 + 1)); ("type", Str "system");
                ("content", content); ("timestamp", Str (iso t2));
                ("workflowId", workflowId)]];
         reasoningTree := reasoningTree st;
         systemStatus := systemStatus st |}.
Proof.
  intros Hu Hn.
  destruct (get_defined response "workflow" Hu Hn) as [workflow Hw].
  destruct (get_defined response "session" Hu Hn) as [session Hs].
  destruct (get_defined response "response" Hu Hn) as [content Hc].
  destruct (opt_get_normal workflow "id") as [workflowId Hi].
  exists workflow, session, content, workflowId.
  do 4 (split; [done|]).
  unfold run, processQuery, report_error, Orchestrator.try_catch, mbind,
    prog_bind, await, dispatch, when, mret, prog_ret.
  cbn. rewrite Hw. cbn. rewrite Hs. cbn.
  destruct (truthy session); cbn; rewrite Hc; cbn; rewrite Hi; cbn;
    rewrite <-app_assoc; done.
Qed.

Lemma processQuery_rejected query t1 t2 api st e :
  outcome (processQuery query t1 t2 api) = Throw e →
  run (processQuery query t1 t2 api) st =
    {| loading := Bool false; error := Str (message e);
       session := session st; currentWorkflow := currentWorkflow st;
       agentStatuses := agentStatuses st;
       messages := messages st ++ [
         Obj [("id", of_Z (now t1)); ("type", Str "user"); ("content", query);
              ("timestamp", Str (iso t1))]];
       reasoningTree := reasoningTree st;
       systemStatus := systemStatus st |}.
Proof.
  destruct api as [response | e'].
  - assert (response = Undefined ∨ response = Null ∨
            (response ≠ Undefined ∧ response ≠ Null)) as [-> | [-> | [Hu Hn]]]
      by (destruct response; auto).
    { intros [= <-]. reflexivity. }
    { intros [= <-]. reflexivity. }
    destruct (processQuery_resolved query t1 t2 response st Hu Hn)
      as (? & ? & ? & ? & _ & _ & _ & _ & -> & _). discriminate.
  - intros [= <-]. reflexivity.
Qed.

End ProcessQuery.

(** X2. processQuery appends the user message in every case.  When it
    returns, the API has resolved to the value it returns, one system message
    follows the user message, carrying the [response] of the reply, the
    workflow of the reply is the current one, and [loading] and [error] are
    cleared.  When it throws, nothing follows the user message, and the
    workflow and the session are as before. *)
Theorem processQuery_appends
    (query : JS.value) (t1 t2 : Orchestrator.tick)
    (api : JS.completion JS.value) (st : Orchestrator.state) :
  let p := Orchestrator.processQuery query t1 t2 api in
  let st' := Orchestrator.run p st in
  let user :=
    JS.Obj [("id", JS.of_Z (Orchestrator.now t1)); ("type", JS.Str "user");
            ("content", query); ("timestamp", JS.Str (Orchestrator.iso t1))] in
  match Orchestrator.outcome p with
  | JS.Normal r =>
      api = JS.Normal r ∧
      ∃ reply,
        Orchestrator.messages st' = Orchestrator.messages st ++ [user; reply] ∧
        JS.get reply "type" = JS.Normal (JS.Str "system") ∧
        JS.get reply "content" = JS.get r "response" ∧
        JS.Normal (Orchestrator.currentWorkflow st') = JS.get r "workflow" ∧
        Orchestrator.loading st' = JS.Bool false ∧
        Orchestrator.error st' = JS.Null
  | JS.Throw e =>
      Orchestrator.messages st' = Orchestrator.messages st ++ [user] ∧
      Orchestrator.currentWorkflow st' = Orchestrator.currentWorkflow st ∧
      Orchestrator.session st' = Orchestrator.session st
  end.
Proof.
  cbv zeta.
  destruct (Orchestrator.outcome (Orchestrator.processQuery query t1 t2 api))
    as [r | e] eqn:Hout.
  - destruct api as [response | e']; [|discriminate].
    assert (response = JS.Undefined ∨ response = JS.Null ∨
            (response ≠ JS.Undefined ∧ response ≠ JS.Null))
      as [-> | [-> | [Hu Hn]]] by (destruct response; auto);
      [discriminate.. |].
    destruct (processQuery_resolved query t1 t2 response st Hu Hn)
      as (workflow & session & content & workflowId & Hw & Hs & Hc & Hi & Ho & ->).
    rewrite Ho in Hout. injection Hout as <-.
    split; [done|]. eexists. simpl. by rewrite Hw, Hc.
  - rewrite (processQuery_rejected query t1 t2 api st e Hout). done.
Qed.

Section Loading.
Import JS Orchestrator Traces.

Lemma loading_stays_false st acts :
  loading st = Bool false → Forall (λ a, ¬ raises_loading a) acts →
  loading (dispatch_all st acts) = Bool false.
Proof.
  intros Hst Hacts. revert st Hst.
  induction Hacts as [|a acts Ha _ IH]; intros st Hst; [done|].
  rewrite dispatch_all_cons. apply IH. destruct a; simpl in *; done.
Qed.

Lemma processQuery_trace query t1 t2 api :
  ∃ rest,
    trace (processQuery query t1 t2 api) =
      [SET_LOADING (Bool true); SET_ERROR Null] ++ rest ∧
    Forall (λ a, ¬ raises_loading a) rest.
Proof.
  destruct api as [response | e].
  - assert (response = Undefined ∨ response = Null ∨
            (response ≠ Undefined ∧ response ≠ Null))
      as [-> | [-> | [Hu Hn]]] by (destruct response; auto).
    + eexists. split; [reflexivity|]. repeat constructor; simpl; tauto.
    + eexists. split; [reflexivity|]. repeat constructor; simpl; tauto.
    + destruct (get_defined response "workflow" Hu Hn) as [workflow Hw].
      destruct (get_defined response "session" Hu Hn) as [session Hs].
      destruct (get_defined response "response" Hu Hn) as [content Hc].
      destruct (opt_get_normal workflow "id") as [workflowId Hi].
      unfold processQuery, report_error, Orchestrator.try_catch, mbind,
        prog_bind, await, dispatch, when, mret, prog_ret.
      cbn. rewrite Hw. cbn. rewrite Hs. cbn.
      destruct (truthy session); cbn; rewrite Hc; cbn; rewrite Hi; cbn;
        (eexists; split; [reflexivity|]); repeat constructor; simpl; tauto.
  - eexists. split; [reflexivity|]. repeat constructor; simpl; tauto.
Qed.

End Loading.

(** X3. processQuery raises [loading] with its first dispatch and clears it
    with its second (SET_ERROR null): from the second dispatch on, and so
    during the whole time the request is awaited, [loading] is false. *)
Theorem processQuery_not_loading_while_waiting
    (query : JS.value) (t1 t2 : Orchestrator.tick)
    (api : JS.completion JS.value) (st : Orchestrator.state) (k : nat) :
  2 ≤ k →
  take 2 (Orchestrator.trace (Orchestrator.processQuery query t1 t2 api)) =
    [Orchestrator.SET_LOADING (JS.Bool true); Orchestrator.SET_ERROR JS.Null] ∧
  Orchestrator.loading
    (Orchestrator.dispatch_all st
       (take k (Orchestrator.trace (Orchestrator.processQuery query t1 t2 api))))
    = JS.Bool false.
Proof.
  intros Hk.
  destruct (processQuery_trace query t1 t2 api) as (rest & -> & Hrest).
  split; [reflexivity|].
  destruct k as [|[|k]]; [lia | lia |]. cbn [take app].
  rewrite !dispatch_all_cons. apply loading_stays_false; [reflexivity|].
  by apply Forall_take.
Qed.

(** X3, witness: the state when the request of a query is awaited. *)
Lemma processQuery_not_loading_while_waiting_witness :
  2 ≤ 3 ∧
  take 2 (Orchestrator.trace
    (Orchestrator.processQuery (JS.Str "Which crop?")
       (Orchestrator.Tick 1700000000000 "2023-11-14T22:13:20.000Z")
       (Orchestrator.Tick 1700000000250 "2023-11-14T22:13:20.250Z")
       (JS.Throw (JS.Error "Failed to fetch")))) =
    [Orchestrator.SET_LOADING (JS.Bool true); Orchestrator.SET_ERROR JS.Null] ∧
  Orchestrator.loading
    (Orchestrator.dispatch_all Orchestrator.initialState
       (take 3 (Orchestrator.trace
          (Orchestrator.processQuery (JS.Str "Which crop?")
             (Orchestrator.Tick 1700000000000 "2023-11-14T22:13:20.000Z")
             (Orchestrator.Tick 1700000000250 "2023-11-14T22:13:20.250Z")
             (JS.Throw (JS.Error "Failed to fetch"))))))
    = JS.Bool false.
Proof.
  assert (H : 2 ≤ 3) by lia.
  split; [exact H|].
  exact (processQuery_not_loading_while_waiting (JS.Str "Which crop?")
           (Orchestrator.Tick 1700000000000 "2023-11-14T22:13:20.000Z")
           (Orchestrator.Tick 1700000000250 "2023-11-14T22:13:20.250Z")
           (JS.Throw (JS.Error "Failed to fetch")) Orchestrator.initialState 3 H).
Defined.

(** X4. initializeSystem raises [loading] and, when the status request
    succeeds, stores the status and leaves [loading] raised; when the request
    fails it records the message and clears [loading].  It never throws. *)
Theorem initializeSystem_loading
    (st : Orchestrator.state) (status : JS.value) (e : JS.exn) :
  let ok := Orchestrator.initializeSystem (JS.Normal status) in
  let ko := Orchestrator.initializeSystem (JS.Throw e) in
  (Orchestrator.outcome ok = JS.Normal tt ∧
   Orchestrator.loading (Orchestrator.run ok st) = JS.Bool true ∧
   Orchestrator.systemStatus (Orchestrator.run ok st) = status ∧
   Orchestrator.error (Orchestrator.run ok st) = Orchestrator.error st) ∧
  (Orchestrator.outcome ko = JS.Normal tt ∧
   Orchestrator.loading (Orchestrator.run ko st) = JS.Bool false ∧
   Orchestrator.systemStatus (Orchestrator.run ko st)
     = Orchestrator.systemStatus st ∧
   Orchestrator.error (Orchestrator.run ko st) = JS.Str (JS.message e)).
Proof. cbv zeta. split; repeat split. Qed.

Section VoiceSubmit.
Import JS Orchestrator.

Lemma submitVoiceInput_nested t1 t2 response query apiQuery :
  get response "query" = Normal query → truthy query = true →
  trace (submitVoiceInput t1 t2 (Normal response) apiQuery) =
    SET_LOADING (Bool true) :: trace (processQuery query t1 t2 apiQuery) ++
    match outcome (processQuery query t1 t2 apiQuery) with
    | Normal _ => []
    | Throw e => [SET_ERROR (Str (message e))]
    end ∧
  outcome (submitVoiceInput t1 t2 (Normal response) apiQuery) =
    match outcome (processQuery query t1 t2 apiQuery) with
    | Normal _ => Normal response
    | Throw e => Throw e
    end.
Proof.
  intros Hq Ht.
  unfold submitVoiceInput, report_error, Orchestrator.try_catch at 1,
    mbind, prog_bind, await, dispatch, mret, prog_ret.
  cbn [trace outcome app]. rewrite Hq. cbn [trace outcome app]. rewrite Ht.
  generalize (processQuery query t1 t2 apiQuery). intros [tr [r | e]]; cbn.
  - by rewrite ?app_nil_r.
  - by rewrite ?app_nil_r.
Qed.

Lemma submitVoiceInput_query t1 t2 response query apiQuery st :
  get response "query" = Normal query → truthy query = true →
  run (submitVoiceInput t1 t2 (Normal response) apiQuery) st =
    run (processQuery query t1 t2 apiQuery) st.
Proof.
  intros Hq Ht.
  destruct (submitVoiceInput_nested t1 t2 response query apiQuery Hq Ht)
    as [Htrace _].
  rewrite !run_trace, Htrace.
  destruct (processQuery_trace query t1 t2 apiQuery) as (rest & Hrest & _).
  destruct (outcome (processQuery query t1 t2 apiQuery)) as [r | e] eqn:Hout.
  - rewrite app_nil_r, Hrest. reflexivity.
  - destruct (report_error_throw _ e Hout) as [_ Hlast].
    fold (processQuery query t1 t2 apiQuery) in Hlast.
    rewrite Hlast, <-app_assoc, !app_comm_cons, (app_assoc _ [_] [_]).
    rewrite !dispatch_all_snoc. reflexivity.
Qed.

End VoiceSubmit.

(** X5. submitVoiceInput raises [loading]; when the transcription reply has
    no usable [query], nothing else is dispatched and [loading] stays raised;
    when it has one, the state is the one processQuery leaves for that
    query. *)
Theorem submitVoiceInput_query_or_nothing
    (t1 t2 : Orchestrator.tick) (response query : JS.value)
    (apiQuery : JS.completion JS.value) (st : Orchestrator.state) :
  JS.get response "query" = JS.Normal query →
  let p := Orchestrator.submitVoiceInput t1 t2 (JS.Normal response) apiQuery in
  (JS.truthy query = false →
   Orchestrator.outcome p = JS.Normal response ∧
   Orchestrator.run p st =
     Orchestrator.orchestratorReducer st
       (Orchestrator.SET_LOADING (JS.Bool true)) ∧
   Orchestrator.loading (Orchestrator.run p st) = JS.Bool true) ∧
  (JS.truthy query = true →
   Orchestrator.run p st =
     Orchestrator.run (Orchestrator.processQuery query t1 t2 apiQuery) st).
Proof.
  intros Hq. cbv zeta. split.
  - intros Ht.
    unfold Orchestrator.submitVoiceInput, Orchestrator.run,
      Orchestrator.report_error, Orchestrator.try_catch, mbind,
      Orchestrator.prog_bind, Orchestrator.await, Orchestrator.dispatch, mret,
      Orchestrator.prog_ret.
    cbn. rewrite Hq. cbn. rewrite Ht. cbn. done.
  - intros Ht. by apply submitVoiceInput_query.
Qed.

(** X5, witness: a transcription reply without a query. *)
Lemma submitVoiceInput_query_or_nothing_witness :
  JS.get (JS.Obj [("transcript", JS.Str "")]) "query" = JS.Normal JS.Undefined ∧
  JS.truthy JS.Undefined = false ∧
  Orchestrator.loading
    (Orchestrator.run
       (Orchestrator.submitVoiceInput
          (Orchestrator.Tick 1700000000000 "2023-11-14T22:13:20.000Z")
          (Orchestrator.Tick 1700000000250 "2023-11-14T22:13:20.250Z")
          (JS.Normal (JS.Obj [("transcript", JS.Str "")]))
          (JS.Throw (JS.Error "unused")))
       Orchestrator.initialState) = JS.Bool true.
Proof.
  split; [reflexivity | split; [reflexivity|]].
  exact (proj2 (proj2 (proj1
    (submitVoiceInput_query_or_nothing
       (Orchestrator.Tick 1700000000000 "2023-11-14T22:13:20.000Z")
       (Orchestrator.Tick 1700000000250 "2023-11-14T22:13:20.250Z")
       (JS.Obj [("transcript", JS.Str "")]) JS.Undefined
       (JS.Throw (JS.Error "unused")) Orchestrator.initialState eq_refl)
    eq_refl))).
Defined.

Section WorkflowStatus.
Import JS Orchestrator TaskStatus.

Lemma updates_lookup_in st entries name s :
  NoDup entries.*1 → (name, s) ∈ entries →
  agentStatuses (dispatch_all st (status_updates entries)) !! name = Some s.
Proof.
  induction entries as [|r entries IH] using rev_ind; intros Hdup Hin.
  - by apply elem_of_nil in Hin.
  - rewrite status_updates_snoc, dispatch_all_snoc. simpl.
    rewrite fmap_app in Hdup. apply NoDup_app in Hdup as (Hdup & Hfresh & _).
    apply elem_of_app in Hin as [Hin | Hin].
    + rewrite lookup_insert_ne; [by apply IH|].
      intros Heq. apply (Hfresh name).
      * apply list_elem_of_fmap. by exists (name, s).
      * rewrite <-Heq. simpl. apply list_elem_of_here.
    + apply list_elem_of_singleton in Hin as <-. simpl. apply lookup_insert_eq.
Qed.

Lemma updates_lookup_notin st entries name :
  name ∉ entries.*1 →
  agentStatuses (dispatch_all st (status_updates entries)) !! name
    = agentStatuses st !! name.
Proof.
  induction entries as [|r entries IH] using rev_ind; intros Hnot; [done|].
  rewrite status_updates_snoc, dispatch_all_snoc. simpl.
  rewrite fmap_app in Hnot. apply not_elem_of_app in Hnot as [Hnot Hr].
  rewrite lookup_insert_ne; [by apply IH|].
  intros Heq. apply Hr. rewrite <-Heq. apply list_elem_of_here.
Qed.

Lemma status_updates_frame st entries :
  messages (dispatch_all st (status_updates entries)) = messages st ∧
  currentWorkflow (dispatch_all st (status_updates entries)) = currentWorkflow st.
Proof.
  induction entries as [|r entries IH] using rev_ind; [done|].
  rewrite status_updates_snoc, dispatch_all_snoc. simpl. done.
Qed.

Lemma getWorkflowStatus_trace status entries workflow :
  get status "agents" = Normal (Obj entries) →
  get status "workflow" = Normal workflow →
  trace (getWorkflowStatus (Normal status)) =
    status_updates entries ++
    (if truthy workflow then [SET_WORKFLOW workflow] else []) ∧
  outcome (getWorkflowStatus (Normal status)) = Normal status.
Proof.
  intros Ha Hw.
  unfold getWorkflowStatus, report_error, Orchestrator.try_catch, mbind,
    prog_bind, await, when, mret, prog_ret.
  cbn [trace outcome app]. rewrite Ha. cbn [trace outcome app truthy].
  cbn [object_entries trace outcome app]. rewrite for_each_updates.
  cbn [trace outcome app]. rewrite Hw. cbn [trace outcome app].
  destruct (truthy workflow); cbn; by rewrite ?app_nil_r.
Qed.

End WorkflowStatus.

(** X6. getWorkflowStatus stores what the server reports: every agent listed
    in [status.agents] gets the status listed for it, every other agent keeps
    the status it had, the reported workflow (when there is one) becomes the
    current one, and the messages are untouched. *)
Theorem getWorkflowStatus_records
    (status workflow : JS.value) (entries : list (string * JS.value))
    (st : Orchestrator.state) :
  JS.get status "agents" = JS.Normal (JS.Obj entries) →
  JS.get status "workflow" = JS.Normal workflow →
  NoDup entries.*1 →
  let p := Orchestrator.getWorkflowStatus (JS.Normal status) in
  let st' := Orchestrator.run p st in
  Orchestrator.outcome p = JS.Normal status ∧
  (∀ name s, (name, s) ∈ entries →
     Orchestrator.agentStatuses st' !! name = Some s) ∧
  (∀ name, name ∉ entries.*1 →
     Orchestrator.agentStatuses st' !! name
       = Orchestrator.agentStatuses st !! name) ∧
  Orchestrator.currentWorkflow st' =
    (if JS.truthy workflow then workflow else Orchestrator.currentWorkflow st) ∧
  Orchestrator.messages st' = Orchestrator.messages st.
Proof.
  intros Ha Hw Hdup. cbv zeta.
  destruct (getWorkflowStatus_trace status entries workflow Ha Hw)
    as [Htrace Hout].
  rewrite run_trace, Htrace, dispatch_all_app.
  split; [done|].
  assert (Hagents : ∀ acts name,
    acts = [] ∨ (∃ w, acts = [Orchestrator.SET_WORKFLOW w]) →
    Orchestrator.agentStatuses
      (Orchestrator.dispatch_all
         (Orchestrator.dispatch_all st (TaskStatus.status_updates entries)) acts)
      !! name =
    Orchestrator.agentStatuses
      (Orchestrator.dispatch_all st (TaskStatus.status_updates entries)) !! name).
  { intros acts name [-> | [w ->]]; reflexivity. }
  destruct (status_updates_frame st entries) as [Hmessages Hworkflow].
  assert (Hacts : (if JS.truthy workflow
                   then [Orchestrator.SET_WORKFLOW workflow] else []) = [] ∨
                  ∃ w, (if JS.truthy workflow
                        then [Orchestrator.SET_WORKFLOW workflow] else [])
                       = [Orchestrator.SET_WORKFLOW w])
    by (destruct (JS.truthy workflow); eauto).
  split; [intros name s Hin; rewrite Hagents by done;
          by apply updates_lookup_in|].
  split; [intros name Hnot; rewrite Hagents by done;
          by apply updates_lookup_notin|].
  destruct (JS.truthy workflow); simpl; rewrite ?dispatch_all_nil; done.
Qed.

(** X6, witness: a report on two agents. *)
Lemma getWorkflowStatus_records_witness :
  JS.get MoreExamples.status_report "agents"
    = JS.Normal (JS.Obj MoreExamples.reported_agents) ∧
  JS.get MoreExamples.status_report "workflow"
    = JS.Normal (Examples.workflow Examples.tasks_early) ∧
  NoDup MoreExamples.reported_agents.*1 ∧
  Orchestrator.agentStatuses
    (Orchestrator.run
       (Orchestrator.getWorkflowStatus (JS.Normal MoreExamples.status_report))
       Examples.st_completed) !! "weather_watcher"
    = Some (JS.Str "completed").
Proof.
  assert (Hdup : NoDup MoreExamples.reported_agents.*1).
  { apply (bool_decide_unpack _). vm_compute. exact I. }
  split; [reflexivity | split; [reflexivity | split; [exact Hdup |]]].
  apply (proj1 (proj2 (getWorkflowStatus_records MoreExamples.status_report
           (Examples.workflow Examples.tasks_early) MoreExamples.reported_agents
           Examples.st_completed eq_refl eq_refl Hdup))).
  apply list_elem_of_In. simpl. auto.
Defined.

(** X7. Without an active session (no session, or a session without an id)
    updateSession throws [No active session] at once, whatever the server
    would have answered, and records this message; the session is
    unchanged. *)
Theorem updateSession_without_session
    (closure st : Orchestrator.state) (api : JS.completion JS.value)
    (id : JS.value) :
  JS.opt_get (Orchestrator.session closure) "id" = JS.Normal id →
  JS.truthy id = false →
  let p := Orchestrator.updateSession closure api in
  Orchestrator.outcome p = JS.Throw (JS.Error "No active session") ∧
  Orchestrator.error (Orchestrator.run p st) = JS.Str "No active session" ∧
  Orchestrator.session (Orchestrator.run p st) = Orchestrator.session st ∧
  Orchestrator.loading (Orchestrator.run p st) = JS.Bool false.
Proof.
  intros Hid Ht. cbv zeta.
  unfold Orchestrator.updateSession, Orchestrator.run,
    Orchestrator.report_error, Orchestrator.try_catch, mbind,
    Orchestrator.prog_bind, Orchestrator.await, Orchestrator.dispatch,
    Orchestrator.throw, mret, Orchestrator.prog_ret.
  cbn. rewrite Hid. cbn. rewrite Ht. cbn. done.
Qed.

(** X7, witness: the initial state has no session. *)
Lemma updateSession_without_session_witness :
  JS.opt_get (Orchestrator.session Orchestrator.initialState) "id"
    = JS.Normal JS.Undefined ∧
  JS.truthy JS.Undefined = false ∧
  Orchestrator.outcome
    (Orchestrator.updateSession Orchestrator.initialState
       (JS.Normal (JS.Obj [("id", JS.Str "s1")])))
    = JS.Throw (JS.Error "No active session").
Proof.
  split; [reflexivity | split; [reflexivity|]].
  exact (proj1 (updateSession_without_session Orchestrator.initialState
           Orchestrator.initialState (JS.Normal (JS.Obj [("id", JS.Str "s1")]))
           JS.Undefined eq_refl eq_refl)).
Defined.

(** * Further properties of the chat context *)

Section Mentions.
Import JS ChatQueries.

Lemma all_word_app s t : all_word (s +:+ t) = all_word s && all_word t.
Proof.
  induction s as [|c s IH]; [done|].
  rewrite append_cons. simpl. by rewrite IH, andb_assoc.
Qed.

Lemma emit_wordy w :
  all_word w = true → Forall (λ m, m ≠ "" ∧ all_word m = true) (emit w).
Proof.
  intros Hw. unfold emit. destruct (String.eqb w "") eqn:He; [constructor|].
  apply String.eqb_neq in He. by repeat constructor.
Qed.

(** Every match is a non-empty run of word characters. *)
Lemma scan_wordy s cur :
  (∀ w, cur = Some w → all_word w = true) →
  Forall (λ m, m ≠ "" ∧ all_word m = true) (scan cur s).
Proof.
  revert cur. induction s as [|c s IH]; intros cur Hcur.
  - destruct cur as [w|]; simpl; [by apply emit_wordy, Hcur | constructor].
  - destruct cur as [w|]; simpl.
    + destruct (is_word c) eqn:Hc.
      * apply IH. intros w' [= <-]. rewrite all_word_app, (Hcur w eq_refl).
        simpl. by rewrite Hc.
      * apply Forall_app. split; [by apply emit_wordy, Hcur|].
        destruct (Ascii.eqb c "@"); apply IH; by intros w' [= <-].
    + destruct (Ascii.eqb c "@"); apply IH; [by intros w' [= <-] | done].
Qed.

Lemma contains_cons pat c s :
  contains pat (String c s) = false → contains pat s = false.
Proof. simpl. by intros [_ ?]%orb_false_iff. Qed.

Lemma contains_at_head c s : contains "@" (String c s) = false → Ascii.eqb c "@" = false.
Proof.
  simpl. intros [H _]%orb_false_iff.
  destruct (Ascii.eqb c "@") eqn:He; [|done].
  apply Ascii.eqb_eq in He as ->. simpl in H. by destruct s.
Qed.

(** Without an [@] there is no match. *)
Lemma scan_no_at s : contains "@" s = false → scan None s = [].
Proof.
  induction s as [|c s IH]; [done|]. intros H. simpl.
  rewrite (contains_at_head c s H). apply IH. by apply (contains_cons _ c).
Qed.

(** A name made of word characters, read after an [@] up to a space. *)
Lemma scan_name name w rest :
  all_word name = true →
  scan (Some w) (name +:+ String " " rest) = emit (w +:+ name) ++ scan None rest.
Proof.
  revert w. induction name as [|c name IH]; intros w Hname.
  - rewrite append_nil_l. simpl.
    replace (w +:+ "") with w; [done|].
    clear. induction w as [|c w IHw]; [done|]. by rewrite append_cons, <-IHw.
  - simpl in Hname. apply andb_true_iff in Hname as [Hc Hname].
    rewrite append_cons. simpl. rewrite Hc, IH by done.
    by rewrite append_assoc.
Qed.

End Mentions.

(** X8. The mentions parseMessage finds are non-empty runs of word
    characters (letters, digits, underscore); [hasMentions] tells whether
    there is one; a message without [@] has none; and the original message is
    returned as given. *)
Theorem parseMessage_mentions (message : string) :
  let parsed := ChatQueries.parseMessage message in
  Forall (λ m, m ≠ "" ∧ ChatQueries.all_word m = true)
    (ChatQueries.mentions parsed) ∧
  (ChatQueries.hasMentions parsed = true ↔ ChatQueries.mentions parsed ≠ []) ∧
  (ChatQueries.contains "@" message = false → ChatQueries.mentions parsed = []) ∧
  ChatQueries.originalMessage parsed = message.
Proof.
  cbv zeta. unfold ChatQueries.parseMessage. simpl. repeat split.
  - by apply scan_wordy.
  - intros H%Nat.ltb_lt Hnil. rewrite Hnil in H. simpl in H. lia.
  - intros H. apply Nat.ltb_lt. destruct (ChatQueries.scan None message);
      [done | simpl; lia].
  - apply scan_no_at.
Qed.

Section SendToAgent.
Import JS Chat ChatQueries.

(** [sendMessage_outcome] with the agent of the user message made explicit. *)
Lemma sendMessage_user message selectedAgent agent tu tr net st :
  field_or_null selectedAgent "indian_name" = Normal agent →
  ∃ reply result,
    sendMessage message selectedAgent tu tr net st =
      ({| messages := messages st ++ [userMessage message agent tu; reply];
          loading := false;
          sessionId := sessionId (sendMessage message selectedAgent tu tr net st).1;
          currentAgent := currentAgent st |}, Normal result) ∧
    (get reply "type" = Normal (Str "assistant") ∨
     get reply "type" = Normal (Str "error")).
Proof.
  intros Hagent.
  unfold sendMessage, try_finally, try_catch, mbind, stateful_bind, lift, mret,
    stateful_ret, setLoading, appendMessage, setSessionId.
  rewrite Hagent. simpl.
  destruct net as [e | ok [data | e]].
  - simpl. rewrite <-app_assoc. simpl. eauto 10.
  - destruct ok, data; simpl; repeat case_match; simplify_eq/=;
      rewrite <-?app_assoc; simpl; eauto 10.
  - destruct ok; simpl; rewrite <-app_assoc; simpl; eauto 10.
Qed.

Lemma sendMessageToAgent_user message a tu tr net st :
  ∃ reply result,
    sendMessageToAgent message a tu tr net st =
      ({| messages := messages st ++ [
            userMessage (Str ("@" +:+ indian_name a +:+ " " +:+ message))
              (Str (indian_name a)) tu;
            reply];
          loading := false;
          sessionId := sessionId (sendMessageToAgent message a tu tr net st).1;
          currentAgent := currentAgent st |}, Normal result) ∧
    (get reply "type" = Normal (Str "assistant") ∨
     get reply "type" = Normal (Str "error")).
Proof.
  unfold sendMessageToAgent. apply sendMessage_user. reflexivity.
Qed.

End SendToAgent.

(** X9. A message sent to an agent whose name is made of word characters
    parses back to that agent: the text sendMessageToAgent puts in the chat is
    [@name message], its first mention is the name of the agent, and the
    others are those of the message itself. *)
Theorem sendMessageToAgent_mentions_agent
    (message : string) (a : ChatQueries.agent) (tu tr : Chat.tick)
    (net : Chat.fetch_result) (st : Chat.state) :
  ChatQueries.indian_name a ≠ "" →
  ChatQueries.all_word (ChatQueries.indian_name a) = true →
  let text := "@" +:+ ChatQueries.indian_name a +:+ " " +:+ message in
  (∃ reply,
     Chat.messages (ChatQueries.sendMessageToAgent message a tu tr net st).1 =
       Chat.messages st ++
         [Chat.userMessage (JS.Str text) (JS.Str (ChatQueries.indian_name a)) tu;
          reply]) ∧
  ChatQueries.mentions (ChatQueries.parseMessage text) =
    ChatQueries.indian_name a
      :: ChatQueries.mentions (ChatQueries.parseMessage message).
Proof.
  intros Hne Hword. cbv zeta. split.
  - destruct (sendMessageToAgent_user message a tu tr net st)
      as (reply & result & -> & _). by exists reply.
  - unfold ChatQueries.parseMessage. cbn [ChatQueries.mentions].
    change ("@" +:+ ChatQueries.indian_name a +:+ " " +:+ message)
      with (String "@" (ChatQueries.indian_name a +:+ String " " message)).
    change (ChatQueries.scan None (String "@" ?s))
      with (ChatQueries.scan (Some "") s).
    rewrite scan_name by done. rewrite append_nil_l.
    unfold ChatQueries.emit. apply String.eqb_neq in Hne. by rewrite Hne.
Qed.

(** X9, witness: a question sent to the agent Mitti. *)
Lemma sendMessageToAgent_mentions_agent_witness :
  ChatQueries.indian_name ChatExamples.mitti ≠ "" ∧
  ChatQueries.all_word (ChatQueries.indian_name ChatExamples.mitti) = true ∧
  ChatQueries.mentions
    (ChatQueries.parseMessage ("@" +:+ "Mitti" +:+ " " +:+ "ask @Mausam too"))
    = ["Mitti"; "Mausam"].
Proof.
  split; [discriminate | split; [reflexivity|]].
  exact (proj2 (sendMessageToAgent_mentions_agent "ask @Mausam too"
           ChatExamples.mitti ChatExamples.asked ChatExamples.answered
           (Chat.Rejected (JS.Error "Failed to fetch")) Chat.initialState
           ltac:(discriminate) eq_refl)).
Defined.

Section ChatQueriesFacts.
Import JS Chat ChatQueries.

(** [sendMessage_user] with the reply known to be an object of type
    [assistant] or [error]. *)
Lemma sendMessage_shape message selectedAgent agent tu tr net st :
  field_or_null selectedAgent "indian_name" = Normal agent →
  ∃ props result,
    sendMessage message selectedAgent tu tr net st =
      ({| messages := messages st ++ [userMessage message agent tu; Obj props];
          loading := false;
          sessionId := sessionId (sendMessage message selectedAgent tu tr net st).1;
          currentAgent := currentAgent st |}, Normal result) ∧
    (lookup_prop "type" props = Str "assistant" ∨
     lookup_prop "type" props = Str "error").
Proof.
  intros Hagent.
  unfold sendMessage, try_finally, try_catch, mbind, stateful_bind, lift, mret,
    stateful_ret, setLoading, appendMessage, setSessionId, assistantMessage.
  rewrite Hagent. simpl.
  destruct net as [e | ok [data | e]].
  - simpl. rewrite <-app_assoc. simpl. eauto 10.
  - destruct ok, data; simpl; repeat case_match; simplify_eq/=;
      rewrite <-?app_assoc; simpl; eauto 10.
  - destruct ok; simpl; rewrite <-app_assoc; simpl; eauto 10.
Qed.

Lemma filter_list_app p l1 l2 k1 k2 :
  filter_list p l1 = Normal k1 → filter_list p l2 = Normal k2 →
  filter_list p (l1 ++ l2) = Normal (k1 ++ k2).
Proof.
  revert k1. induction l1 as [|x l1 IH]; intros k1 H1 H2; simpl in *.
  - by simplify_eq.
  - destruct (p x) as [keep|]; [|done]. simpl in *.
    destruct (filter_list p l1) as [kept|]; [|done]. simpl in *.
    simplify_eq. rewrite (IH kept eq_refl H2). simpl. by destruct keep.
Qed.

Lemma map_list_app {B} (f : value → completion B) l1 l2 k1 k2 :
  map_list f l1 = Normal k1 → map_list f l2 = Normal k2 →
  map_list f (l1 ++ l2) = Normal (k1 ++ k2).
Proof.
  revert k1. induction l1 as [|x l1 IH]; intros k1 H1 H2; simpl in *.
  - by simplify_eq.
  - destruct (f x) as [y|]; [|done]. simpl in *.
    destruct (map_list f l1) as [ys|]; [|done]. simpl in *.
    simplify_eq. by rewrite (IH ys eq_refl H2).
Qed.

Lemma filter_list_sublist p l k : filter_list p l = Normal k → sublist k l.
Proof.
  revert k. induction l as [|x l IH]; intros k H; simpl in *.
  - by simplify_eq.
  - destruct (p x) as [keep|]; [|done]. simpl in *.
    destruct (filter_list p l) as [kept|]; [|done]. simpl in *.
    simplify_eq. destruct keep; constructor; by apply IH.
Qed.

Lemma after_sends_snoc calls c st :
  after_sends (calls ++ [c]) st =
    (sendMessage (send_message c) (send_agent c) (send_tu c) (send_tr c)
       (send_net c) (after_sends calls st)).1.
Proof. unfold after_sends. by rewrite foldl_app. Qed.

(** What a conversation that began empty looks like to the queries. *)
Lemma after_sends_summary calls :
  ∃ us ass ers tss ags,
    let msgs := messages (after_sends calls initialState) in
    filter_list (has_type "user") msgs = Normal us ∧
    filter_list (has_type "assistant") msgs = Normal ass ∧
    filter_list (has_type "error") msgs = Normal ers ∧
    map_list (λ msg, get msg "agent") msgs = Normal ags ∧
    map_list (λ msg, get msg "timestamp") msgs = Normal tss ∧
    length msgs = 2 * length calls ∧
    length us = length calls ∧
    length ass + length ers = length calls.
Proof.
  induction calls as [|c calls IH] using rev_ind.
  - exists [], [], [], [], []. by repeat split.
  - destruct IH as (us & ass & ers & tss & ags & Hus & Has & Her & Hag & Hts
                    & Hlen & Hlu & Hla).
    cbv zeta in *. rewrite after_sends_snoc.
    destruct (field_or_null_normal (send_agent c) "indian_name") as [agent Hagent].
    destruct (sendMessage_shape (send_message c) (send_agent c) agent
                (send_tu c) (send_tr c) (send_net c) (after_sends calls initialState)
                Hagent) as (props & result & -> & Htype).
    cbn [fst messages].
    set (u := userMessage (send_message c) agent (send_tu c)).
    destruct Htype as [Ht | Ht].
    + exists (us ++ [u]), (ass ++ [Obj props]), ers,
        (tss ++ [Date (date (send_tu c)); lookup_prop "timestamp" props]),
        (ags ++ [agent; lookup_prop "agent" props]).
      split; [apply filter_list_app; [done|]; simpl; unfold has_type; simpl; by rewrite Ht|].
      split; [apply filter_list_app; [done|]; simpl; unfold has_type; simpl; by rewrite Ht|].
      split; [rewrite <-(app_nil_r ers); apply filter_list_app; [done|];
              simpl; unfold has_type; simpl; by rewrite Ht|].
      split; [by apply map_list_app|].
      split; [by apply map_list_app|].
      rewrite !length_app. simpl. lia.
    + exists (us ++ [u]), ass, (ers ++ [Obj props]),
        (tss ++ [Date (date (send_tu c)); lookup_prop "timestamp" props]),
        (ags ++ [agent; lookup_prop "agent" props]).
      split; [apply filter_list_app; [done|]; simpl; unfold has_type; simpl; by rewrite Ht|].
      split; [rewrite <-(app_nil_r ass); apply filter_list_app; [done|];
              simpl; unfold has_type; simpl; by rewrite Ht|].
      split; [apply filter_list_app; [done|]; simpl; unfold has_type; simpl; by rewrite Ht|].
      split; [by apply map_list_app|].
      split; [by apply map_list_app|].
      rewrite !length_app. simpl. lia.
Qed.

End ChatQueriesFacts.

(** X10. After any call of sendMessage the last message of the chat is the
    reply to it, of type [assistant] or [error], never the user's own
    message; after clearChat there is no last message. *)
Theorem getLastMessage_is_reply
    (message selectedAgent : JS.value) (tu tr : Chat.tick)
    (net : Chat.fetch_result) (st : Chat.state) :
  let st' := (Chat.sendMessage message selectedAgent tu tr net st).1 in
  (JS.get (ChatQueries.getLastMessage st') "type" = JS.Normal (JS.Str "assistant") ∨
   JS.get (ChatQueries.getLastMessage st') "type" = JS.Normal (JS.Str "error")) ∧
  ChatQueries.getLastMessage (Chat.clearChat st') = JS.Null.
Proof.
  cbv zeta. split; [|reflexivity].
  destruct (sendMessage_outcome message selectedAgent tu tr net st)
    as (agent & reply & result & -> & Htype).
  unfold ChatQueries.getLastMessage. cbn [fst Chat.messages].
  rewrite last_app. by simpl.
Qed.

(** X11. The messages getMessagesByAgent selects are a sublist of the chat;
    and once the filter succeeds on a chat, a message sent to an agent with
    sendMessageToAgent is selected for that agent, right after the messages
    selected before, followed by the reply or by nothing. *)
Theorem getMessagesByAgent_finds_sent
    (message : string) (a : ChatQueries.agent) (tu tr : Chat.tick)
    (net : Chat.fetch_result) (st : Chat.state) (before : list JS.value) :
  ChatQueries.getMessagesByAgent (ChatQueries.indian_name a) st
    = JS.Normal before →
  let st' := (ChatQueries.sendMessageToAgent message a tu tr net st).1 in
  let sent :=
    Chat.userMessage
      (JS.Str ("@" +:+ ChatQueries.indian_name a +:+ " " +:+ message))
      (JS.Str (ChatQueries.indian_name a)) tu in
  sublist before (Chat.messages st) ∧
  ∃ reply after,
    Chat.messages st' = Chat.messages st ++ [sent; reply] ∧
    ChatQueries.getMessagesByAgent (ChatQueries.indian_name a) st'
      = JS.Normal (before ++ sent :: after) ∧
    (after = [] ∨ after = [reply]).
Proof.
  intros Hbefore. cbv zeta. split; [by eapply filter_list_sublist|].
  unfold ChatQueries.sendMessageToAgent.
  destruct (sendMessage_shape
              (JS.Str ("@" +:+ ChatQueries.indian_name a +:+ " " +:+ message))
              (ChatQueries.agent_object a) (JS.Str (ChatQueries.indian_name a))
              tu tr net st eq_refl) as (props & result & -> & Htype).
  cbn [fst Chat.messages]. unfold ChatQueries.getMessagesByAgent in *.
  cbn [Chat.messages].
  exists (JS.Obj props).
  assert (Hsent :
    ChatQueries.of_agent (ChatQueries.indian_name a)
      (Chat.userMessage
         (JS.Str ("@" +:+ ChatQueries.indian_name a +:+ " " +:+ message))
         (JS.Str (ChatQueries.indian_name a)) tu) = JS.Normal true).
  { unfold ChatQueries.of_agent. simpl. by rewrite String.eqb_refl. }
  assert (Hreply : ∃ keep,
    ChatQueries.of_agent (ChatQueries.indian_name a) (JS.Obj props) = JS.Normal keep).
  { unfold ChatQueries.of_agent. simpl.
    destruct (JS.is_str _ (JS.lookup_prop "agent" props)); [by eexists|].
    destruct Htype as [-> | ->]; simpl; by eexists. }
  destruct Hreply as [keep Hkeep].
  exists (if keep then [JS.Obj props] else []). split; [done|]. split.
  - apply filter_list_app; [done|]. simpl. rewrite Hsent, Hkeep. simpl.
    by destruct keep.
  - destruct keep; auto.
Qed.

(** X11, witness: the first message of a chat, sent to the agent Mitti. *)
Lemma getMessagesByAgent_finds_sent_witness :
  ChatQueries.getMessagesByAgent "Mitti" Chat.initialState = JS.Normal [] ∧
  sublist [] (Chat.messages Chat.initialState) ∧
  ∃ reply after,
    Chat.messages
      (ChatQueries.sendMessageToAgent "is the soil dry?" ChatExamples.mitti
         ChatExamples.asked ChatExamples.answered
         (Chat.Rejected (JS.Error "Failed to fetch")) Chat.initialState).1
      = Chat.messages Chat.initialState ++
          [Chat.userMessage (JS.Str ("@" +:+ "Mitti" +:+ " " +:+ "is the soil dry?"))
             (JS.Str "Mitti") ChatExamples.asked; reply] ∧
    ChatQueries.getMessagesByAgent "Mitti"
      (ChatQueries.sendMessageToAgent "is the soil dry?" ChatExamples.mitti
         ChatExamples.asked ChatExamples.answered
         (Chat.Rejected (JS.Error "Failed to fetch")) Chat.initialState).1
      = JS.Normal ([] ++
          Chat.userMessage (JS.Str ("@" +:+ "Mitti" +:+ " " +:+ "is the soil dry?"))
             (JS.Str "Mitti") ChatExamples.asked :: after) ∧
    (after = [] ∨ after = [reply]).
Proof.
  split; [reflexivity|].
  exact (getMessagesByAgent_finds_sent "is the soil dry?" ChatExamples.mitti
           ChatExamples.asked ChatExamples.answered
           (Chat.Rejected (JS.Error "Failed to fetch")) Chat.initialState []
           eq_refl).
Defined.

(** X12. In a conversation that began empty and went through any calls of
    sendMessage, getConversationSummary returns, and it counts two messages
    for each call: one user message, and one assistant or error message. *)
Theorem getConversationSummary_counts (calls : list ChatQueries.send) :
  ∃ s,
    ChatQueries.getConversationSummary
      (ChatQueries.after_sends calls Chat.initialState) = JS.Normal s ∧
    ChatQueries.totalMessages s = 2 * length calls ∧
    ChatQueries.userMessages s = length calls ∧
    ChatQueries.assistantMessages s + ChatQueries.errorMessages s = length calls.
Proof.
  destruct (after_sends_summary calls)
    as (us & ass & ers & tss & ags & Hus & Has & Her & Hag & Hts & Hlen & Hlu & Hla).
  cbv zeta in *. unfold ChatQueries.getConversationSummary.
  rewrite Hus, Has, Her, Hag. simpl.
  assert (Hlast : ∃ ts,
    match last (Chat.messages (ChatQueries.after_sends calls Chat.initialState)) with
    | Some m => JS.get m "timestamp"
    | None => JS.Normal JS.Null
    end = JS.Normal ts).
  { revert Hts. generalize (Chat.messages (ChatQueries.after_sends calls Chat.initialState)).
    intros l. revert tss. induction l as [|x l IH] using rev_ind; intros tss Hts.
    - by eexists.
    - rewrite last_snoc.
      clear IH. revert tss Hts. induction l as [|y l IHl]; intros tss Hts; simpl in *.
      + destruct (JS.get x "timestamp"); [by eexists | done].
      + destruct (JS.get y "timestamp"); [|done]. simpl in Hts.
        destruct (JS.map_list _ (l ++ [x])) eqn:E; [|done].
        by eapply IHl. }
  destruct Hlast as [ts ->]. simpl. eexists. split; [reflexivity|]. simpl.
  by rewrite Hlen, Hlu, Hla.
Qed.

(** * Further properties of the SuperAgent page *)

Section SuperAgentSend.
Import JS SuperAgent.

(** The whole page after a send that passes the guard. *)
Lemma sendMessage_page_state time_user time_reply net st :
  trim (chatInput_value st) ≠ "" →
  isLoading st = false →
  ∃ nodes,
    SuperAgent.sendMessage time_user time_reply net st =
      ({| sessionId := sessionId st; isLoading := false;
          chatInput_value := ""; chatInput_disabled := false;
          sendButton_disabled := false; loadingOverlay_show := false;
          chatMessages := nodes |}, Normal tt) ∧
    (Forall (λ n, id n ≠ "typing-indicator") (chatMessages st) →
     ∃ html_user type html_reply,
       nodes = chatMessages st ++
         [ {| className := "message user new"; id := ""; innerHTML := html_user |};
           {| className := "message " +:+ type +:+ " new"; id := "";
              innerHTML := html_reply |} ]).
Proof.
  intros Hmsg Hload. unfold SuperAgent.sendMessage.
  apply String.eqb_neq in Hmsg. rewrite Hmsg, Hload.
  destruct (addMessage_text "user" (trim (chatInput_value st)) None time_user)
    as [html Huser].
  destruct (addMessage_text "system"
    "Sorry, I encountered an error processing your request. Please try again."
    None time_reply) as [html_error Herror].
  destruct (addMessage_text "system"
    "Sorry, I'm having trouble connecting to the server. Please check your connection and try again."
    None time_reply) as [html_failed Hfailed].
  assert (Hremove : ∀ l : list node,
    Forall (λ n, id n ≠ "typing-indicator") l →
    ∀ user, id user = "" →
    remove_by_id "typing-indicator" ((l ++ [user]) ++ [typingDiv]) = l ++ [user]).
  { intros l Hl user Huid. rewrite remove_by_id_app_absent; [by rewrite app_nil_r|].
    apply Forall_app. split; [done|]. constructor; [|done]. by rewrite Huid. }
  assert (Hagain : ∀ l : list node,
    Forall (λ n, id n ≠ "typing-indicator") l →
    ∀ user, id user = "" →
    remove_by_id "typing-indicator" (l ++ [user]) = l ++ [user]).
  { intros l Hl user Huid. apply remove_by_id_absent.
    apply Forall_app. split; [done|]. constructor; [|done]. by rewrite Huid. }
  unfold try_finally, try_catch, mbind, stateful_bind, lift, clearInput,
    setLoading, addTypingIndicator, removeTypingIndicator.
  rewrite Huser. cbn [orb appendChild chatMessages].
  destruct (callSuperAgentAPI net) as [data | e].
  - destruct (success data).
    + destruct (response data) as [text|].
      * destruct (addMessage_text "assistant" text (Some data) time_reply)
          as [html_reply ->].
        eexists. cbn. split; [reflexivity|]. intros Hno.
        rewrite Hremove by done. rewrite <-app_assoc. by eexists _, "assistant", _.
      * rewrite addMessage_not_text, Hfailed.
        eexists. cbn. split; [reflexivity|]. intros Hno.
        rewrite Hremove, Hagain by done. rewrite <-app_assoc.
        by eexists _, "system", _.
    + rewrite Herror.
      eexists. cbn. split; [reflexivity|]. intros Hno.
      rewrite Hremove by done. rewrite <-app_assoc. by eexists _, "system", _.
  - rewrite Hfailed.
    eexists. cbn. split; [reflexivity|]. intros Hno.
    rewrite Hremove by done. rewrite <-app_assoc. by eexists _, "system", _.
Qed.

End SuperAgentSend.

(** X13. Sending twice without typing in between sends once: whatever the
    first send met, a second send right after it changes nothing on the page
    and returns, because an accepted send has emptied the input and a refused
    one has left the page as it was. *)
Theorem sendMessage_twice_sends_once
    (t1 t2 t3 t4 : string) (net net' : SuperAgent.fetch_result)
    (st : SuperAgent.state) :
  let st' := (SuperAgent.sendMessage t1 t2 net st).1 in
  SuperAgent.sendMessage t3 t4 net' st' = (st', JS.Normal tt).
Proof.
  cbv zeta.
  destruct (String.eqb (JS.trim (SuperAgent.chatInput_value st)) "") eqn:Hmsg.
  - apply String.eqb_eq in Hmsg.
    rewrite (sendMessage_guarded t1 t2 net st) by auto. simpl.
    apply sendMessage_guarded. auto.
  - apply String.eqb_neq in Hmsg.
    destruct (SuperAgent.isLoading st) eqn:Hload.
    + rewrite (sendMessage_guarded t1 t2 net st) by auto. simpl.
      apply sendMessage_guarded. auto.
    + destruct (sendMessage_page_state t1 t2 net st Hmsg Hload) as (nodes & -> & _).
      apply sendMessage_guarded. left. reflexivity.
Qed.

(** X14. On a page with no typing indicator left over, a send that the guard
    accepts leaves none either: the page gains exactly the user message and
    one reply, both without an element id, the input is emptied, the controls
    are enabled again and the session id is the one before. *)
Theorem sendMessage_leaves_no_typing_indicator
    (time_user time_reply : string) (net : SuperAgent.fetch_result)
    (st : SuperAgent.state) :
  JS.trim (SuperAgent.chatInput_value st) ≠ "" →
  SuperAgent.isLoading st = false →
  Forall (λ n, SuperAgent.id n ≠ "typing-indicator") (SuperAgent.chatMessages st) →
  let st' := (SuperAgent.sendMessage time_user time_reply net st).1 in
  Forall (λ n, SuperAgent.id n ≠ "typing-indicator") (SuperAgent.chatMessages st') ∧
  length (SuperAgent.chatMessages st') = length (SuperAgent.chatMessages st) + 2 ∧
  SuperAgent.chatInput_value st' = "" ∧
  SuperAgent.sendButton_disabled st' = false ∧
  SuperAgent.sessionId st' = SuperAgent.sessionId st.
Proof.
  intros Hmsg Hload Hno. cbv zeta.
  destruct (sendMessage_page_state time_user time_reply net st Hmsg Hload)
    as (nodes & -> & Hnodes).
  destruct (Hnodes Hno) as (html_user & type & html_reply & ->).
  cbn [fst SuperAgent.chatMessages SuperAgent.chatInput_value
       SuperAgent.sendButton_disabled SuperAgent.sessionId].
  repeat split.
  - apply Forall_app. split; [done|]. by repeat constructor.
  - rewrite length_app. simpl. lia.
Qed.

(** X14, witness: the page with a question typed in. *)
Lemma sendMessage_leaves_no_typing_indicator_witness :
  JS.trim (SuperAgent.chatInput_value Examples.page_ready) ≠ "" ∧
  SuperAgent.isLoading Examples.page_ready = false ∧
  Forall (λ n, SuperAgent.id n ≠ "typing-indicator")
    (SuperAgent.chatMessages Examples.page_ready) ∧
  SuperAgent.chatInput_value
    (SuperAgent.sendMessage "10:00" "10:01"
       (SuperAgent.Rejected (JS.Error "Failed to fetch")) Examples.page_ready).1 = "".
Proof.
  split; [by vm_compute|]. split; [reflexivity|]. split; [constructor|].
  exact (proj1 (proj2 (proj2
    (sendMessage_leaves_no_typing_indicator "10:00" "10:01"
       (SuperAgent.Rejected (JS.Error "Failed to fetch")) Examples.page_ready
       ltac:(by vm_compute) eq_refl ltac:(constructor))))).
Defined.

(** X15. A reply that reports success but carries no answer text is shown as
    a failure to connect: on a page with no typing indicator left over, the
    send ends in the very state in which a rejected request ends, with the
    notice that the server could not be reached in place of an answer. *)
Theorem success_without_text_shown_as_failure
    (time_user time_reply : string) (status : N)
    (data : SuperAgent.response_data) (e : JS.exn) (st : SuperAgent.state) :
  SuperAgent.success data = true →
  SuperAgent.response data = None →
  Forall (λ n, SuperAgent.id n ≠ "typing-indicator") (SuperAgent.chatMessages st) →
  SuperAgent.sendMessage time_user time_reply
    (SuperAgent.Response true status (JS.Normal data)) st =
  SuperAgent.sendMessage time_user time_reply (SuperAgent.Rejected e) st.
Proof.
  intros Hsuccess Hresponse Hno. unfold SuperAgent.sendMessage.
  destruct (String.eqb _ "" || SuperAgent.isLoading st); [done|].
  destruct (addMessage_text "user" (JS.trim (SuperAgent.chatInput_value st)) None
              time_user) as [html Huser].
  unfold JS.try_finally, JS.try_catch, mbind, JS.stateful_bind, JS.lift,
    SuperAgent.clearInput, SuperAgent.setLoading, SuperAgent.addTypingIndicator,
    SuperAgent.removeTypingIndicator, SuperAgent.callSuperAgentAPI.
  rewrite Huser. cbn [negb SuperAgent.appendChild SuperAgent.chatMessages].
  rewrite Hsuccess, Hresponse, addMessage_not_text.
  cbn [SuperAgent.chatMessages SuperAgent.sessionId SuperAgent.isLoading
       SuperAgent.chatInput_value SuperAgent.chatInput_disabled
       SuperAgent.sendButton_disabled SuperAgent.loadingOverlay_show].
  assert (Hagain :
    SuperAgent.remove_by_id "typing-indicator"
      (SuperAgent.remove_by_id "typing-indicator"
         ((SuperAgent.chatMessages st ++
           [ {| SuperAgent.className := "message " +:+ "user" +:+ " new";
                SuperAgent.id := ""; SuperAgent.innerHTML := html |} ])
          ++ [SuperAgent.typingDiv])) =
    SuperAgent.remove_by_id "typing-indicator"
      ((SuperAgent.chatMessages st ++
        [ {| SuperAgent.className := "message " +:+ "user" +:+ " new";
             SuperAgent.id := ""; SuperAgent.innerHTML := html |} ])
       ++ [SuperAgent.typingDiv])).
  { assert (Hall : Forall (λ n, SuperAgent.id n ≠ "typing-indicator")
      (SuperAgent.chatMessages st ++
        [ {| SuperAgent.className := "message " +:+ "user" +:+ " new";
             SuperAgent.id := ""; SuperAgent.innerHTML := html |} ])).
    { apply Forall_app. split; [done|]. by repeat constructor. }
    rewrite (remove_by_id_app_absent _ _ _ Hall). simpl. rewrite app_nil_r.
    by apply remove_by_id_absent. }
  by rewrite Hagain.
Qed.

(** X15, witness: a successful reply whose [response] is missing. *)
Lemma success_without_text_shown_as_failure_witness :
  SuperAgent.success
    (SuperAgent.ResponseData true None None None None []) = true ∧
  SuperAgent.response
    (SuperAgent.ResponseData true None None None None []) = None ∧
  Forall (λ n, SuperAgent.id n ≠ "typing-indicator")
    (SuperAgent.chatMessages Examples.page_ready) ∧
  SuperAgent.sendMessage "10:00" "10:01"
    (SuperAgent.Response true 200
       (JS.Normal (SuperAgent.ResponseData true None None None None [])))
    Examples.page_ready =
  SuperAgent.sendMessage "10:00" "10:01"
    (SuperAgent.Rejected (JS.Error "Failed to fetch")) Examples.page_ready.
Proof.
  split; [reflexivity|]. split; [reflexivity|]. split; [constructor|].
  exact (success_without_text_shown_as_failure "10:00" "10:01" 200
           (SuperAgent.ResponseData true None None None None [])
           (JS.Error "Failed to fetch") Examples.page_ready
           eq_refl eq_refl ltac:(constructor)).
Defined.

Section Formatting.
Import JS SuperAgent.

Lemma append_nil_r (s : string) : s +:+ "" = s.
Proof. induction s as [|c s IH]; [done|]. by rewrite append_cons, IH. Qed.

Lemma replace_all_app c by_ s t :
  replace_all c by_ (s +:+ t) = replace_all c by_ s +:+ replace_all c by_ t.
Proof.
  induction s as [|c' s IH]; [done|].
  rewrite append_cons. simpl. rewrite IH.
  destruct (Ascii.eqb c' c); [by rewrite append_assoc | done].
Qed.

Lemma in_string_app c s t :
  In c (list_ascii_of_string (s +:+ t)) ↔
  In c (list_ascii_of_string s) ∨ In c (list_ascii_of_string t).
Proof.
  induction s as [|c' s IH].
  - rewrite append_nil_l. simpl. tauto.
  - rewrite append_cons. simpl. rewrite IH. tauto.
Qed.

(** The characters of the result are those of the replacement and those of
    the text other than [c]. *)
Lemma replace_all_chars c by_ s x :
  In x (list_ascii_of_string (replace_all c by_ s)) →
  In x (list_ascii_of_string by_) ∨ (x ≠ c ∧ In x (list_ascii_of_string s)).
Proof.
  induction s as [|c' s IH]; simpl; [done|].
  destruct (Ascii.eqb c' c) eqn:E.
  - rewrite in_string_app. intros [H | H]; [by left|].
    destruct (IH H) as [? | [? ?]]; auto.
  - simpl. apply Ascii.eqb_neq in E. intros [<- | H]; [auto|].
    destruct (IH H) as [? | [? ?]]; auto.
Qed.

Lemma replace_all_absent c by_ s :
  ¬ In c (list_ascii_of_string s) → replace_all c by_ s = s.
Proof.
  induction s as [|c' s IH]; simpl; [done|]. intros Hnot.
  destruct (Ascii.eqb c' c) eqn:E.
  - apply Ascii.eqb_eq in E. tauto.
  - rewrite IH; [done | tauto].
Qed.

End Formatting.

(** X16. formatMessage leaves no line feed in a text: every line feed becomes
    [<br>], every other character is kept where it is (markup in the text
    included), a text without line feed is returned as it is, and the
    formatting of two texts put together is the two formattings put
    together.  A content that is not a text makes it throw. *)
Theorem formatMessage_line_breaks (text more : string) :
  ∃ html html_more,
    SuperAgent.formatMessage (Some text) = JS.Normal html ∧
    SuperAgent.formatMessage (Some more) = JS.Normal html_more ∧
    ¬ In "010"%char (list_ascii_of_string html) ∧
    (¬ In "010"%char (list_ascii_of_string text) → html = text) ∧
    SuperAgent.formatMessage (Some (text +:+ SuperAgent.nl +:+ more))
      = JS.Normal (html +:+ "<br>" +:+ html_more) ∧
    (∃ e, SuperAgent.formatMessage None = JS.Throw e).
Proof.
  eexists _, _. split; [reflexivity|]. split; [reflexivity|]. repeat split.
  - intros [Hbr | [Hne _]]%replace_all_chars; [|done].
    simpl in Hbr. intuition discriminate.
  - apply replace_all_absent.
  - unfold SuperAgent.formatMessage. f_equal.
    by rewrite !replace_all_app.
  - by eexists.
Qed.

(** X17. The recommendations and the warnings of a reply reach the page only
    with the agents that answered: for a reply without agent responses
    (absent or empty) addMessage renders the text alone, as it does with no
    reply data at all. *)
Theorem addMessage_without_agents_drops_details
    (type text time : string) (data : SuperAgent.response_data)
    (st : SuperAgent.state) :
  SuperAgent.agent_responses data = None ∨
  SuperAgent.agent_responses data = Some [] →
  SuperAgent.createAgentResponseDetails data = "" ∧
  SuperAgent.addMessage type (Some text) (Some data) time st =
  SuperAgent.addMessage type (Some text) None time st.
Proof.
  intros Hnone. split.
  - unfold SuperAgent.createAgentResponseDetails. by destruct Hnone as [-> | ->].
  - unfold SuperAgent.addMessage, SuperAgent.createAgentResponseDetails.
    unfold mbind, JS.stateful_bind, JS.lift, SuperAgent.formatMessage.
    destruct Hnone as [-> | ->]; [done|]. cbv beta iota. by rewrite append_nil_r.
Qed.

(** X17, witness: a reply with recommendations and warnings but no agent
    responses. *)
Lemma addMessage_without_agents_drops_details_witness :
  SuperAgent.agent_responses
    (SuperAgent.ResponseData true (Some "Sow in June.") (Some [])
       (Some ["Use treated seed"]) (Some ["Late rain"]) []) = Some [] ∧
  SuperAgent.addMessage "assistant" (Some "Sow in June.")
    (Some (SuperAgent.ResponseData true (Some "Sow in June.") (Some [])
             (Some ["Use treated seed"]) (Some ["Late rain"]) []))
    "10:01" Examples.page_ready =
  SuperAgent.addMessage "assistant" (Some "Sow in June.") None "10:01"
    Examples.page_ready.
Proof.
  split; [reflexivity|].
  exact (proj2 (addMessage_without_agents_drops_details "assistant"
           "Sow in June." "10:01"
           (SuperAgent.ResponseData true (Some "Sow in June.") (Some [])
              (Some ["Use treated seed"]) (Some ["Late rain"]) [])
           Examples.page_ready (or_intror eq_refl))).
Defined.

(** * The chat of the orchestrator page *)

(** X18. handleSendMessage sends the trimmed text and empties the input box
    only when the query went through.  A blank text, or a query in progress,
    dispatches nothing and keeps the text.  Otherwise the user message with
    the trimmed text is appended; on success a reply follows it, no error is
    recorded and the box is emptied; on failure nothing follows it, the error
    is recorded and the text stays in the box. *)
Theorem handleSendMessage_clears_on_success
    (inputText : string) (st : Orchestrator.state) (t1 t2 : Orchestrator.tick)
    (api : JS.completion JS.value) :
  let handled := EnhancedChat.handleSendMessage inputText st t1 t2 api in
  let st' := Orchestrator.dispatch_all st handled.1 in
  let user :=
    JS.Obj [("id", JS.of_Z (Orchestrator.now t1)); ("type", JS.Str "user");
            ("content", JS.Str (JS.trim inputText));
            ("timestamp", JS.Str (Orchestrator.iso t1))] in
  (JS.trim inputText = "" ∨ JS.truthy (Orchestrator.loading st) = true →
   handled = ([], inputText)) ∧
  (JS.trim inputText ≠ "" → JS.truthy (Orchestrator.loading st) = false →
   Orchestrator.loading st' = JS.Bool false ∧
   ((handled.2 = "" ∧ Orchestrator.error st' = JS.Null ∧
     ∃ reply, Orchestrator.messages st' = Orchestrator.messages st ++ [user; reply]) ∨
    (handled.2 = inputText ∧
     Orchestrator.messages st' = Orchestrator.messages st ++ [user] ∧
     ∃ e, Orchestrator.error st' = JS.Str (JS.message e)))).
Proof.
  cbv zeta. unfold EnhancedChat.handleSendMessage. split.
  - intros [H | H]; rewrite H; [done|]. by rewrite andb_false_r.
  - intros Htext%String.eqb_neq Hload. rewrite Htext, Hload. simpl negb. simpl andb.
    cbv iota.
    destruct (Orchestrator.outcome
                (Orchestrator.processQuery (JS.Str (JS.trim inputText)) t1 t2 api))
      as [r | e] eqn:Hout.
    + destruct api as [response | e']; [|discriminate].
      assert (response = JS.Undefined ∨ response = JS.Null ∨
              (response ≠ JS.Undefined ∧ response ≠ JS.Null))
        as [-> | [-> | [Hu Hn]]] by (destruct response; auto);
        [discriminate.. |].
      destruct (processQuery_resolved (JS.Str (JS.trim inputText)) t1 t2 response
                  st Hu Hn)
        as (workflow & session & content & workflowId & _ & _ & _ & _ & _ & Hrun).
      cbn [fst snd]. rewrite <-run_trace, Hrun. cbn. split; [done|]. left.
      repeat split. by eexists.
    + cbn [fst snd]. rewrite <-run_trace.
      rewrite (processQuery_rejected _ t1 t2 api st e Hout). cbn.
      split; [done|]. right. repeat split. by eexists.
Qed.

(** X19. After processQuery the voice interface is handed the reply of a
    query that went through, and the empty text after one that failed: the
    message of a failure is never read out. *)
Theorem textToSpeak_after_processQuery
    (query : JS.value) (t1 t2 : Orchestrator.tick)
    (api : JS.completion JS.value) (st : Orchestrator.state) :
  let p := Orchestrator.processQuery query t1 t2 api in
  let spoken := EnhancedChat.textToSpeak (Orchestrator.messages (Orchestrator.run p st)) in
  match Orchestrator.outcome p with
  | JS.Normal r => spoken = JS.get r "response"
  | JS.Throw _ => spoken = JS.Normal (JS.Str "")
  end.
Proof.
  cbv zeta.
  destruct (Orchestrator.outcome (Orchestrator.processQuery query t1 t2 api))
    as [r | e] eqn:Hout.
  - destruct api as [response | e']; [|discriminate].
    assert (response = JS.Undefined ∨ response = JS.Null ∨
            (response ≠ JS.Undefined ∧ response ≠ JS.Null))
      as [-> | [-> | [Hu Hn]]] by (destruct response; auto);
      [discriminate.. |].
    destruct (processQuery_resolved query t1 t2 response st Hu Hn)
      as (workflow & session & content & workflowId & _ & _ & Hc & _ & Ho & ->).
    rewrite Ho in Hout. injection Hout as <-.
    unfold EnhancedChat.textToSpeak. cbn [Orchestrator.messages].
    rewrite last_app. simpl. by rewrite Hc.
  - rewrite (processQuery_rejected query t1 t2 api st e Hout).
    unfold EnhancedChat.textToSpeak. cbn [Orchestrator.messages].
    rewrite last_app. reflexivity.
Qed.

(** * White space at the ends of a text *)

Section Trimming.
Import JS.

Lemma rev_app_spec (s t : string) : String.rev_app s t = String.rev s +:+ t.
Proof.
  revert t. induction s as [|c s IH]; intros t; [done|].
  unfold String.rev. simpl. rewrite (IH (String c t)), (IH (String c "")).
  by rewrite append_assoc.
Qed.

Lemma rev_cons c (s : string) :
  String.rev (String c s) = String.rev s +:+ String c "".
Proof. unfold String.rev at 1. simpl. apply rev_app_spec. Qed.

Lemma rev_app (s t : string) :
  String.rev (s +:+ t) = String.rev t +:+ String.rev s.
Proof.
  induction s as [|c s IH].
  - by rewrite append_nil_l, append_nil_r.
  - by rewrite append_cons, !rev_cons, IH, append_assoc.
Qed.

Lemma rev_involutive (s : string) : String.rev (String.rev s) = s.
Proof.
  induction s as [|c s IH]; [done|].
  by rewrite rev_cons, rev_app, IH.
Qed.

Lemma trim_start_length s : String.length (trim_start s) ≤ String.length s.
Proof.
  induction s as [|c s IH]; simpl; [done|].
  destruct (Ascii.is_space c); simpl; lia.
Qed.

(** A text that [trimStart] leaves alone is empty or begins with a character
    that is no white space. *)
Lemma trim_start_fixed_inv c s :
  trim_start (String c s) = String c s → Ascii.is_space c = false.
Proof.
  simpl. destruct (Ascii.is_space c); [|done]. intros H.
  pose proof (trim_start_length s) as Hlen. rewrite H in Hlen. simpl in Hlen. lia.
Qed.

Lemma trim_start_idem s : trim_start (trim_start s) = trim_start s.
Proof.
  induction s as [|c s IH]; simpl; [done|].
  destruct (Ascii.is_space c) eqn:E; [done|]. simpl. by rewrite E.
Qed.

Lemma trim_start_keeps_end x c y :
  Ascii.is_space c = false →
  ∃ x', trim_start (x +:+ String c y) = x' +:+ String c y ∧
        trim_start (x' +:+ String c y) = x' +:+ String c y.
Proof.
  intros Hc. induction x as [|d x IH].
  - exists "". rewrite append_nil_l. simpl. by rewrite Hc.
  - rewrite append_cons. simpl. destruct (Ascii.is_space d) eqn:Hd; [done|].
    exists (String d x). rewrite append_cons. simpl. by rewrite Hd.
Qed.

(** Trimming the end of a text keeps its beginning free of white space. *)
Lemma trim_end_keeps_start a :
  trim_start a = a →
  trim_start (String.rev (trim_start (String.rev a)))
    = String.rev (trim_start (String.rev a)).
Proof.
  destruct a as [|c a]; [done|]. intros Hc%trim_start_fixed_inv.
  rewrite rev_cons.
  destruct (trim_start_keeps_end (String.rev a) c "" Hc) as (x' & -> & _).
  rewrite rev_app. change (String.rev (String c "")) with (String c "").
  rewrite append_cons. simpl. by rewrite Hc.
Qed.

Lemma trim_leading s : trim_start (trim s) = trim s.
Proof. unfold trim. apply trim_end_keeps_start, trim_start_idem. Qed.

Lemma trim_trailing s : trim_start (String.rev (trim s)) = String.rev (trim s).
Proof. unfold trim. rewrite rev_involutive. apply trim_start_idem. Qed.

(** [trim] does nothing to a trimmed text. *)
Lemma trim_idem s : trim (trim s) = trim s.
Proof.
  unfold trim at 1. rewrite trim_leading, trim_trailing, rev_involutive. done.
Qed.

Lemma in_rev x s :
  In x (list_ascii_of_string (String.rev s)) ↔ In x (list_ascii_of_string s).
Proof.
  induction s as [|c s IH]; [done|].
  rewrite rev_cons, in_string_app, IH. simpl. tauto.
Qed.

Lemma in_trim_start x s :
  In x (list_ascii_of_string (trim_start s)) → In x (list_ascii_of_string s).
Proof.
  induction s as [|c s IH]; simpl; [done|].
  destruct (Ascii.is_space c); simpl; auto.
Qed.

(** [trim] brings in no character. *)
Lemma in_trim x s :
  In x (list_ascii_of_string (trim s)) → In x (list_ascii_of_string s).
Proof.
  unfold trim. intros H.
  apply (proj1 (in_rev _ _)) in H. apply in_trim_start in H.
  apply (proj1 (in_rev _ _)) in H. by apply in_trim_start.
Qed.

End Trimming.

Section DisplayNames.
Import JS Voice.

Lemma in_drop_chars x n s :
  In x (list_ascii_of_string (drop_chars n s)) → In x (list_ascii_of_string s).
Proof.
  revert s. induction n as [|n IH]; intros [|c s]; simpl; auto.
Qed.

Lemma in_replace_first_erased x pat s :
  In x (list_ascii_of_string (replace_first pat "" s)) →
  In x (list_ascii_of_string s).
Proof.
  induction s as [|c s IH].
  - cbn [replace_first]. case_match; [|done].
    rewrite append_nil_l. apply in_drop_chars.
  - cbn [replace_first]. case_match.
    + rewrite append_nil_l. apply in_drop_chars.
    + simpl. intros [? | ?]; auto.
Qed.

End DisplayNames.

(** X20. The name shown for an agent has no underscore and no white space at
    either end; its characters are characters of the agent name, or spaces
    that stand for underscores.  Only a text has a name to show. *)
Theorem display_name_clean (name : JS.value) (shown : string) :
  Voice.display_name name = JS.Normal shown →
  (∃ s, name = JS.Str s ∧
        ∀ x, In x (list_ascii_of_string shown) →
             x = " "%char ∨ In x (list_ascii_of_string s)) ∧
  ¬ In "_"%char (list_ascii_of_string shown) ∧
  JS.trim_start shown = shown ∧
  JS.trim_start (String.rev shown) = String.rev shown.
Proof.
  destruct name as [| | | |s| | |]; try discriminate. simpl. intros [= <-].
  assert (Hchars : ∀ x,
    In x (list_ascii_of_string
            (JS.trim (JS.replace_first "agent" "" (JS.replace_all "_" " " s)))) →
    In x (list_ascii_of_string " ") ∨ (x ≠ "_"%char ∧ In x (list_ascii_of_string s))).
  { intros x H. apply in_trim, in_replace_first_erased in H.
    by apply replace_all_chars in H. }
  split; [|split; [|split]].
  - exists s. split; [done|]. intros x [[<- | []] | [_ ?]]%Hchars; auto.
  - intros [[H | []] | [? _]]%Hchars; [discriminate | done].
  - apply trim_leading.
  - apply trim_trailing.
Qed.

(** X20, witness: the soil health agent. *)
Lemma display_name_clean_witness :
  Voice.display_name (JS.Str "soil_health_agent") = JS.Normal "soil health" ∧
  ¬ In "_"%char (list_ascii_of_string "soil health").
Proof.
  split; [reflexivity|].
  exact (proj1 (proj2 (display_name_clean (JS.Str "soil_health_agent")
                         "soil health" eq_refl))).
Defined.

(** * The voice interface *)

Section Transcripts.
Import JS VoiceInterface.

Lemma trimmed_ends s :
  trim s = s → trim_start s = s ∧ trim_start (String.rev s) = String.rev s.
Proof.
  intros H. split; rewrite <-H; [apply trim_leading | apply trim_trailing].
Qed.

(** A space after a trimmed text is trimmed away. *)
Lemma trim_space_after s : trim s = s → trim (trim_start (s +:+ " ")) = s.
Proof.
  intros [Hstart Hend]%trimmed_ends. destruct s as [|c s]; [done|].
  pose proof (trim_start_fixed_inv c s Hstart) as Hc.
  assert (Hfix : trim_start (String c s +:+ " ") = String c s +:+ " ").
  { rewrite append_cons. simpl. by rewrite Hc. }
  rewrite Hfix. unfold trim. rewrite Hfix, rev_app.
  change (String.rev " ") with " ". rewrite append_cons, append_nil_l.
  change (trim_start (String " " ?x)) with (trim_start x).
  by rewrite Hend, rev_involutive.
Qed.

Lemma gather_from acc results :
  Forall (λ x, isFinal x = true) results →
  (foldl (λ acc r,
     if isFinal r then (acc.1 +:+ transcript r, acc.2)
     else (acc.1, acc.2 +:+ transcript r)) acc results).2 = acc.2.
Proof.
  intros H. revert acc. induction H as [|x l Hx _ IH]; intros acc; [done|].
  simpl. rewrite Hx. by rewrite IH.
Qed.

Lemma gather_all_final results :
  Forall (λ x, isFinal x = true) results → (gather results).2 = "".
Proof. intros H. unfold gather. by rewrite gather_from. Qed.

End Transcripts.

(** X21. commitTranscript hands over a transcript once: the text it passes
    on is the trimmed transcript, never empty, and a recognised text goes to
    processQuery exactly as passed; a blank transcript is not passed on; the
    transcript refs are emptied, so that a second commit passes nothing. *)
Theorem commitTranscript_sends_once
    (onVoiceInput : bool) (r : VoiceInterface.refs)
    (t1 t2 : Orchestrator.tick) (api apiQuery : JS.completion JS.value) :
  let committed := VoiceInterface.commitTranscript onVoiceInput r in
  VoiceInterface.transcriptRef committed.1 = "" ∧
  VoiceInterface.finalTranscriptRef committed.1 = "" ∧
  (VoiceInterface.commitTranscript onVoiceInput committed.1).2 = None ∧
  match committed.2 with
  | Some text =>
      onVoiceInput = true ∧
      text = JS.trim (VoiceInterface.transcriptRef r) ∧ text ≠ "" ∧
      EnhancedChat.handleVoiceInput (JS.Str text) t1 t2 api apiQuery =
        Orchestrator.trace
          (Orchestrator.processQuery (JS.Str text) t1 t2 apiQuery)
  | None =>
      onVoiceInput = false ∨ JS.trim (VoiceInterface.transcriptRef r) = ""
  end.
Proof.
  cbv zeta. unfold VoiceInterface.commitTranscript. cbn [fst snd].
  split; [done|]. split; [done|]. split; [done|].
  cbn [VoiceInterface.transcriptRef].
  destruct (String.eqb (JS.trim (VoiceInterface.transcriptRef r)) "") eqn:He.
  - right. by apply String.eqb_eq.
  - destruct onVoiceInput; simpl; [|by left].
    apply String.eqb_neq in He. repeat split; [done|].
    unfold EnhancedChat.handleVoiceInput. cbv zeta. rewrite trim_idem.
    apply String.eqb_neq in He. by rewrite He.
Qed.

(** X22. onresult keeps the final transcript trimmed and the shown
    transcript free of leading white space; and after results that are all
    final, what commitTranscript passes on is the final transcript itself,
    or nothing when that is empty. *)
Theorem onresult_keeps_transcript_trimmed
    (results : list VoiceInterface.result) (r : VoiceInterface.refs) :
  JS.trim (VoiceInterface.finalTranscriptRef r)
    = VoiceInterface.finalTranscriptRef r →
  let r' := VoiceInterface.onresult results r in
  JS.trim (VoiceInterface.finalTranscriptRef r')
    = VoiceInterface.finalTranscriptRef r' ∧
  JS.trim_start (VoiceInterface.transcriptRef r')
    = VoiceInterface.transcriptRef r' ∧
  (Forall (λ x, VoiceInterface.isFinal x = true) results →
   (VoiceInterface.commitTranscript true r').2 =
     if String.eqb (VoiceInterface.finalTranscriptRef r') "" then None
     else Some (VoiceInterface.finalTranscriptRef r')).
Proof.
  intros Htrimmed. cbv zeta.
  assert (Hfinal :
    JS.trim (VoiceInterface.finalTranscriptRef (VoiceInterface.onresult results r))
    = VoiceInterface.finalTranscriptRef (VoiceInterface.onresult results r)).
  { unfold VoiceInterface.onresult. cbn [VoiceInterface.finalTranscriptRef].
    destruct (negb _); [apply trim_idem | done]. }
  split; [done|]. split.
  - unfold VoiceInterface.onresult. cbn [VoiceInterface.transcriptRef].
    apply trim_start_idem.
  - intros Hall. unfold VoiceInterface.commitTranscript. cbn [snd].
    rewrite andb_true_r.
    assert (Hshown :
      VoiceInterface.transcriptRef (VoiceInterface.onresult results r) =
      JS.trim_start
        (VoiceInterface.finalTranscriptRef (VoiceInterface.onresult results r)
         +:+ " ")).
    { unfold VoiceInterface.onresult.
      cbn [VoiceInterface.transcriptRef VoiceInterface.finalTranscriptRef].
      by rewrite (gather_all_final results Hall). }
    rewrite Hshown, (trim_space_after _ Hfinal).
    by destruct (String.eqb _ "").
Qed.

(** X22, witness: two final results on fresh refs. *)
Lemma onresult_keeps_transcript_trimmed_witness :
  JS.trim (VoiceInterface.finalTranscriptRef VoiceInterface.initialRefs)
    = VoiceInterface.finalTranscriptRef VoiceInterface.initialRefs ∧
  (VoiceInterface.commitTranscript true
     (VoiceInterface.onresult
        [VoiceInterface.Result " is the soil" true;
         VoiceInterface.Result " dry " true]
        VoiceInterface.initialRefs)).2 = Some "is the soil dry".
Proof.
  split; [reflexivity|].
  exact (proj2 (proj2 (onresult_keeps_transcript_trimmed
           [VoiceInterface.Result " is the soil" true;
            VoiceInterface.Result " dry " true]
           VoiceInterface.initialRefs eq_refl))
         ltac:(repeat constructor)).
Defined.

Section Speech.
Import JS VoiceInterface.

(** One run of the effect: it speaks a text that is trimmed, not empty and
    not the one spoken last, and remembers it; or it speaks nothing and
    remembers what it did. *)
Lemma speakEffect_spoken text synth r r' spoken :
  speakEffect text synth r = Normal (r', spoken) →
  match spoken with
  | Some s =>
      s ≠ "" ∧ trim s = s ∧ s ≠ lastSpokenTextRef r ∧ lastSpokenTextRef r' = s ∧
      synth = true
  | None => r' = r
  end.
Proof.
  unfold speakEffect.
  destruct (or_else text (Str "")) as [| | | |s| | |]; try discriminate.
  simpl. destruct (String.eqb (trim s) "") eqn:Hempty; [by intros [= <- <-]|].
  destruct synth; simpl; [|by intros [= <- <-]].
  destruct (String.eqb (trim s) (lastSpokenTextRef r)) eqn:Hlast;
    [by intros [= <- <-]|].
  intros [= <- <-]. apply String.eqb_neq in Hempty, Hlast.
  repeat split; [done | apply trim_idem | done].
Qed.

(** The texts spoken over successive runs: the first differs from the text
    remembered at the start, each differs from the one before it, and the
    last is the text remembered at the end. *)
Lemma speak_all_spoken runs : ∀ r r' spoken,
  speak_all runs r = Normal (r', spoken) →
  Forall (λ s, s ≠ "" ∧ trim s = s) spoken ∧
  (∀ i s t, (lastSpokenTextRef r :: spoken) !! i = Some s →
            spoken !! i = Some t → s ≠ t) ∧
  lastSpokenTextRef r' = default (lastSpokenTextRef r) (last spoken).
Proof.
  induction runs as [|[text synth] runs IH]; intros r r' spoken.
  - intros [= <- <-]. repeat split; [constructor | by intros [|i] s t ? ?].
  - simpl. destruct (speakEffect text synth r) as [[r1 first]|] eqn:Hfirst;
      [|done]. simpl.
    destruct (speak_all runs r1) as [[r2 more]|] eqn:Hmore; [|done]. simpl.
    intros [= <- <-].
    destruct (IH r1 r2 more Hmore) as (Hall & Hadj & Hlast).
    pose proof (speakEffect_spoken text synth r r1 first Hfirst) as Hspoken.
    destruct first as [s0|]; simpl.
    + destruct Hspoken as (Hne & Htrim & Hnew & Href & _).
      rewrite Href in Hadj, Hlast. repeat split.
      * by constructor.
      * intros [|i] s t; simpl; [by intros [= <-] [= <-]|]. apply Hadj.
      * rewrite Hlast. destruct more as [|m more]; [done|].
        change (last (s0 :: m :: more)) with (last (m :: more)).
        destruct (last (m :: more)) eqn:Hm; [done|]. by apply last_None in Hm.
    + subst r1. done.
Qed.

End Speech.

(** X23. Over any successive runs of the speech effect that complete, no text
    is spoken twice in a row, and none is blank: every text spoken is
    trimmed, not empty, and differs from the text spoken before it (the
    first, from the text last spoken before the runs). *)
Theorem speech_never_repeats
    (runs : list (JS.value * bool)) (r r' : VoiceInterface.refs)
    (spoken : list string) :
  VoiceInterface.speak_all runs r = JS.Normal (r', spoken) →
  Forall (λ s, s ≠ "" ∧ JS.trim s = s) spoken ∧
  (∀ i s t, spoken !! i = Some s → spoken !! S i = Some t → s ≠ t) ∧
  head spoken ≠ Some (VoiceInterface.lastSpokenTextRef r) ∧
  VoiceInterface.lastSpokenTextRef r'
    = default (VoiceInterface.lastSpokenTextRef r) (last spoken).
Proof.
  intros Hruns.
  destruct (speak_all_spoken runs r r' spoken Hruns) as (Hall & Hadj & Hlast).
  repeat split; [done | | | done].
  - intros i s t Hs Ht. by apply (Hadj (S i) s t).
  - destruct spoken as [|s spoken]; [done|]. simpl. intros [= ->].
    by apply (Hadj 0 (VoiceInterface.lastSpokenTextRef r)
                (VoiceInterface.lastSpokenTextRef r)).
Qed.

(** X23, witness: the same reply handed over twice, then another. *)
Lemma speech_never_repeats_witness :
  VoiceInterface.speak_all
    [(JS.Str "Sow in June. ", true); (JS.Str "Sow in June.", true);
     (JS.Undefined, true); (JS.Str "Irrigate tonight.", true)]
    VoiceInterface.initialRefs
  = JS.Normal
      ({| VoiceInterface.transcriptRef := "";
          VoiceInterface.finalTranscriptRef := "";
          VoiceInterface.lastSpokenTextRef := "Irrigate tonight." |},
       ["Sow in June."; "Irrigate tonight."]) ∧
  Forall (λ s, s ≠ "" ∧ JS.trim s = s) ["Sow in June."; "Irrigate tonight."].
Proof.
  split; [reflexivity|].
  exact (proj1 (speech_never_repeats
           [(JS.Str "Sow in June. ", true); (JS.Str "Sow in June.", true);
            (JS.Undefined, true); (JS.Str "Irrigate tonight.", true)]
           VoiceInterface.initialRefs _ _ eq_refl)).
Defined.

(** * Routing and farm data of the dashboard *)

Section Routing.
Import JS DashboardRoutes.

Lemma last_segment_from_plain cur path :
  forallb (λ c, negb (Ascii.eqb c "/")) (list_ascii_of_string path) = true →
  last_segment_from cur path = cur +:+ path.
Proof.
  revert cur. induction path as [|c path IH]; intros cur; simpl.
  - by rewrite append_nil_r.
  - intros [Hc Hrest]%andb_true_iff. apply negb_true_iff in Hc. rewrite Hc.
    rewrite IH by done. by rewrite append_assoc.
Qed.

Lemma last_segment_from_app cur base path :
  forallb (λ c, negb (Ascii.eqb c "/")) (list_ascii_of_string path) = true →
  last_segment_from cur (base +:+ "/" +:+ path) = path.
Proof.
  intros Hpath. revert cur. induction base as [|c base IH]; intros cur.
  - rewrite append_nil_l. change ("/" +:+ path) with (String "/" path).
    simpl. rewrite last_segment_from_plain by done. apply append_nil_l.
  - rewrite append_cons. simpl. destruct (Ascii.eqb c "/"); apply IH.
Qed.

(** The last segment of a path that ends with a slash and a segment. *)
Lemma last_segment_app base path :
  forallb (λ c, negb (Ascii.eqb c "/")) (list_ascii_of_string path) = true →
  last_segment (base +:+ "/" +:+ path) = path.
Proof. apply last_segment_from_app. Qed.

Lemma switch_in last cs default :
  switch last cs default = default ∨ In (last, switch last cs default) cs.
Proof.
  induction cs as [|[k v] cs IH]; simpl; [by left|].
  destruct (String.eqb last k) eqn:E.
  - apply String.eqb_eq in E as ->. right. by left.
  - destruct IH; auto.
Qed.

End Routing.

(** X24. routeToAgent agrees with the routes of the dashboard: on a location
    that ends with the path of a route, whatever comes before it, it names
    the agent of the chat panel that route renders; and on any location it
    names the super agent or the agent of the route whose path is the last
    segment of the location. *)
Theorem routeToAgent_agrees_with_routes :
  Forall (λ route, ∀ base,
            DashboardRoutes.routeToAgent (base +:+ "/" +:+ route.1) = route.2)
    DashboardRoutes.routes ∧
  ∀ pathname,
    DashboardRoutes.routeToAgent pathname = "super-agent" ∨
    In (DashboardRoutes.last_segment pathname,
        DashboardRoutes.routeToAgent pathname) DashboardRoutes.routes.
Proof.
  split.
  - unfold DashboardRoutes.routes.
    repeat (constructor; [
      intros base; unfold DashboardRoutes.routeToAgent;
      rewrite last_segment_app by reflexivity; reflexivity |]).
    constructor.
  - intros pathname. unfold DashboardRoutes.routeToAgent.
    destruct (switch_in (DashboardRoutes.last_segment pathname)
                DashboardRoutes.cases "super-agent") as [H | H]; [by left|].
    right. unfold DashboardRoutes.routes.
    change (In (DashboardRoutes.last_segment pathname,
                DashboardRoutes.switch (DashboardRoutes.last_segment pathname)
                  DashboardRoutes.cases "super-agent")
              (DashboardRoutes.cases ++ [("", "super-agent")])).
    apply in_or_app. by left.
Qed.

Section FarmData.
Import JS DashboardRoutes.

Lemma or_else_truthy a b : truthy b = true → truthy (or_else a b) = true.
Proof. unfold or_else. by destruct (truthy a) eqn:E. Qed.

End FarmData.

(** X25. Loading the farm data never blanks a field: if the name, the
    location, the size and the weather of the farm are set before the effect
    (as they are initially), they are set after it, whatever the request
    delivers, a failure included. *)
Theorem loadFarmData_keeps_fields_set
    (api : JS.completion JS.value) (farmData : JS.value) :
  Forall (λ k, ∃ v, JS.get farmData k = JS.Normal v ∧ JS.truthy v = true)
    ["farm_name"; "location"; "size_acres"; "weather"] →
  Forall (λ k, ∃ v, JS.get (DashboardRoutes.loadFarmData api farmData) k
                      = JS.Normal v ∧ JS.truthy v = true)
    ["farm_name"; "location"; "size_acres"; "weather"].
Proof.
  intros Hset. unfold DashboardRoutes.loadFarmData.
  destruct api as [dashboardData | e]; [|done]. simpl.
  unfold DashboardRoutes.loadedFarmData.
  destruct (JS.get dashboardData "farm") as [farm|]; [|done]. simpl.
  destruct (JS.truthy farm) eqn:Hfarm; [|done].
  destruct (JS.get farm "name") as [name|]; [|done]. simpl.
  destruct (JS.get farm "location") as [location|]; [|done]. simpl.
  destruct (JS.get farm "size_acres") as [size_acres|]; [|done]. simpl.
  destruct (JS.get dashboardData "weather") as [weather|]; [|done]. simpl.
  repeat constructor; eexists; (split; [reflexivity|]); by apply or_else_truthy.
Qed.

(** X25, witness: the initial farm data and a farm without a name. *)
Lemma loadFarmData_keeps_fields_set_witness :
  Forall (λ k, ∃ v, JS.get DashboardRoutes.initialFarmData k = JS.Normal v ∧
                    JS.truthy v = true)
    ["farm_name"; "location"; "size_acres"; "weather"] ∧
  Forall (λ k, ∃ v,
            JS.get (DashboardRoutes.loadFarmData
                      (JS.Normal (JS.Obj [("farm", JS.Obj [("name", JS.Str "")])]))
                      DashboardRoutes.initialFarmData) k = JS.Normal v ∧
            JS.truthy v = true)
    ["farm_name"; "location"; "size_acres"; "weather"].
Proof.
  assert (Hset : Forall (λ k, ∃ v,
      JS.get DashboardRoutes.initialFarmData k = JS.Normal v ∧ JS.truthy v = true)
    ["farm_name"; "location"; "size_acres"; "weather"]).
  { repeat constructor; eexists; split; reflexivity. }
  split; [exact Hset|].
  exact (loadFarmData_keeps_fields_set
           (JS.Normal (JS.Obj [("farm", JS.Obj [("name", JS.Str "")])]))
           DashboardRoutes.initialFarmData Hset).
Defined.

(** * The API service of the orchestrator *)

Section RequestConfig.
Import JS ApiService.

Lemma lookup_set_prop_eq k v props : lookup_prop k (set_prop k v props) = v.
Proof.
  induction props as [|[k' v'] props IH]; simpl.
  - by rewrite String.eqb_refl.
  - destruct (String.eqb k' k) eqn:E; simpl; by rewrite E.
Qed.

Lemma lookup_set_prop_ne k k' v props :
  k ≠ k' → lookup_prop k (set_prop k' v props) = lookup_prop k props.
Proof.
  intros Hne. induction props as [|[k0 v0] props IH]; simpl.
  - apply not_eq_sym in Hne. apply String.eqb_neq in Hne. by rewrite Hne.
  - destruct (String.eqb k0 k') eqn:E; simpl.
    + apply String.eqb_eq in E as ->.
      apply not_eq_sym in Hne. apply String.eqb_neq in Hne. by rewrite Hne.
    + by rewrite IH.
Qed.

(** Reading a property after a spread of entries with distinct keys. *)
Lemma lookup_spread k entries : ∀ acc,
  NoDup entries.*1 →
  (k ∈ entries.*1 →
   lookup_prop k (foldl (λ acc entry, set_prop entry.1 entry.2 acc) acc entries)
     = lookup_prop k entries) ∧
  (k ∉ entries.*1 →
   lookup_prop k (foldl (λ acc entry, set_prop entry.1 entry.2 acc) acc entries)
     = lookup_prop k acc).
Proof.
  induction entries as [|[k1 v1] entries IH]; intros acc Hnodup.
  - split; [by intros ?%elem_of_nil | done].
  - apply NoDup_cons in Hnodup as [Hk1 Hnodup]. simpl in *.
    destruct (IH (set_prop k1 v1 acc) Hnodup) as [Hin Hout]. split.
    + intros [-> | Hk]%elem_of_cons.
      * rewrite Hout by done. rewrite lookup_set_prop_eq. by rewrite String.eqb_refl.
      * rewrite Hin by done.
        assert (k1 ≠ k) as Hne%String.eqb_neq by (by intros ->). by rewrite Hne.
    + intros Hk. apply not_elem_of_cons in Hk as [Hne Hk].
      rewrite Hout by done. by apply lookup_set_prop_ne.
Qed.

Lemma lookup_prop_absent k props : k ∉ props.*1 → lookup_prop k props = Undefined.
Proof.
  induction props as [|[k' v'] props IH]; simpl; [done|].
  intros [Hne Hk]%not_elem_of_cons.
  apply not_eq_sym in Hne. apply String.eqb_neq in Hne. rewrite Hne. by apply IH.
Qed.

Lemma spread_obj target props :
  spread target (Obj props) =
  foldl (λ acc entry, set_prop entry.1 entry.2 acc) target props.
Proof. reflexivity. Qed.

End RequestConfig.

(** X26. The headers of a request are the caller's or the default ones,
    never a mix: when the options carry a [headers] property, the config
    handed to fetch has exactly that value as [headers] and the default
    content type is not added; when they carry none, it has the default
    headers.  Every other option is passed on unchanged. *)
Theorem request_headers_caller_or_default (props : list (string * JS.value)) :
  NoDup props.*1 →
  ∃ passed,
    ApiService.config (JS.Obj props) = JS.Normal (JS.Obj passed) ∧
    ("headers" ∈ props.*1 →
     JS.lookup_prop "headers" passed = JS.lookup_prop "headers" props) ∧
    ("headers" ∉ props.*1 →
     JS.lookup_prop "headers" passed = ApiService.defaultHeaders) ∧
    (∀ k, k ≠ "headers" → JS.lookup_prop k passed = JS.lookup_prop k props).
Proof.
  intros Hnodup.
  exists (ApiService.spread
            [("headers",
              JS.Obj (ApiService.spread
                        (ApiService.spread [] ApiService.defaultHeaders)
                        (JS.lookup_prop "headers" props)))]
            (JS.Obj props)).
  split; [reflexivity|]. rewrite spread_obj.
  split; [|split].
  - intros Hin. by apply (lookup_spread "headers" props).
  - intros Hout.
    rewrite (proj2 (lookup_spread "headers" props _ Hnodup) Hout).
    rewrite (lookup_prop_absent "headers" props Hout). reflexivity.
  - intros k Hne.
    destruct (decide (k ∈ props.*1)) as [Hin | Hout].
    + by apply (lookup_spread k props).
    + rewrite (proj2 (lookup_spread k props _ Hnodup) Hout).
      rewrite (lookup_prop_absent k props Hout). cbn [JS.lookup_prop].
      apply not_eq_sym in Hne. apply String.eqb_neq in Hne. by rewrite Hne.
Qed.

(** X26, witness: the options of [submitVoiceInput], with empty headers. *)
Lemma request_headers_caller_or_default_witness :
  NoDup [("method", JS.Str "POST"); ("headers", JS.Obj []);
         ("body", JS.Str "audio")].*1 ∧
  ∃ passed,
    ApiService.config
      (JS.Obj [("method", JS.Str "POST"); ("headers", JS.Obj []);
               ("body", JS.Str "audio")]) = JS.Normal (JS.Obj passed) ∧
    JS.lookup_prop "headers" passed = JS.Obj [].
Proof.
  assert (Hnodup : NoDup [("method", JS.Str "POST"); ("headers", JS.Obj []);
                          ("body", JS.Str "audio")].*1).
  { simpl. repeat (apply NoDup_cons; split;
      [rewrite ?elem_of_cons, elem_of_nil; intuition discriminate|]).
    apply NoDup_nil_2. }
  split; [exact Hnodup|].
  destruct (request_headers_caller_or_default
              [("method", JS.Str "POST"); ("headers", JS.Obj []);
               ("body", JS.Str "audio")] Hnodup)
    as (passed & Hconfig & Hin & _).
  exists passed. split; [exact Hconfig|].
  rewrite Hin; [reflexivity | simpl; right; left].
Defined.

(** X27. request returns exactly the body of a reply that is ok and parses;
    a reply that is not ok makes it throw [API Error: <status> <statusText>]
    whatever its body, and a rejected fetch or a body that fails to parse
    makes it throw that failure.  The guarded calls of [api] never throw:
    any failure becomes [null] for the session and the log calls and the
    empty array for the device and field lists, which otherwise return a
    reply that is an array as it is. *)
Theorem request_outcomes (net : ApiService.fetch_result) (field : string) :
  (∀ body, ApiService.request net = JS.Normal body ↔
           ∃ status statusText,
             net = ApiService.Response true status statusText (JS.Normal body)) ∧
  (∀ status statusText json,
     net = ApiService.Response false status statusText json →
     ApiService.request net =
       JS.Throw (JS.Error ("API Error: " +:+ pretty status +:+ " " +:+ statusText))) ∧
  (∃ v, ApiService.or_null net = JS.Normal v ∧
        ((∃ e, ApiService.request net = JS.Throw e) → v = JS.Null)) ∧
  (∃ v, ApiService.list_of field net = JS.Normal v ∧
        ((∃ e, ApiService.request net = JS.Throw e) → v = JS.Arr []) ∧
        (∀ l, ApiService.request net = JS.Normal (JS.Arr l) → v = JS.Arr l) ∧
        JS.truthy v = true).
Proof.
  split; [|split; [|split]].
  - intros body. split.
    + destruct net as [e | [] status statusText [b | e]]; simpl; try discriminate.
      intros [= ->]. eauto.
    + by intros (status & statusText & ->).
  - by intros status statusText json ->.
  - unfold ApiService.or_null. destruct (ApiService.request net) as [res | e].
    + eexists. split; [reflexivity|]. by intros [e [=]].
    + eexists. split; [reflexivity|]. done.
  - unfold ApiService.list_of. destruct (ApiService.request net) as [res | e]; simpl.
    + destruct (ApiService.is_array res) eqn:Harr.
      * exists res. destruct res; try discriminate. repeat split.
        -- by intros [e [=]].
        -- by intros l [= ->].
      * destruct (opt_get_normal res field) as [listed ->]. simpl.
        eexists. split; [reflexivity|]. repeat split.
        -- by intros [e [=]].
        -- intros l [= ->]. discriminate.
        -- by apply or_else_truthy.
    + eexists. split; [reflexivity|]. repeat split. by intros l [=].
Qed.

(** * The session of the chat context *)

Section ChatSession.
Import JS Chat.

(** The session id after a send is the one before, or the truthy id of the
    session of a reply that was ok and parsed. *)
Lemma sendMessage_session_kept_or_set message selectedAgent tu tr net st :
  sessionId (sendMessage message selectedAgent tu tr net st).1 = sessionId st ∨
  ∃ data session,
    net = Response true (Normal data) ∧
    get data "session" = Normal session ∧
    opt_get session "id"
      = Normal (sessionId (sendMessage message selectedAgent tu tr net st).1) ∧
    truthy (sessionId (sendMessage message selectedAgent tu tr net st).1) = true.
Proof.
  destruct (field_or_null_normal selectedAgent "indian_name") as [agent Hagent].
  unfold sendMessage, try_finally, try_catch, mbind, stateful_bind, lift, mret,
    stateful_ret, setLoading, appendMessage, setSessionId.
  rewrite Hagent. simpl.
  destruct net as [e | ok [data | e]].
  - by left.
  - destruct ok; [|simpl; repeat case_match; simplify_eq/=; by left].
    simpl. destruct (opt_get data "success") as [success|] eqn:Hsuccess;
      simpl; [|by left].
    destruct (is_false success); simpl; [repeat case_match; simplify_eq/=; by left|].
    destruct (get data "session") as [session|] eqn:Hsession; simpl; [|by left].
    destruct (opt_get session "id") as [id|] eqn:Hid; simpl; [|by left].
    destruct (truthy id) eqn:Htruthy; simpl.
    + repeat case_match; simplify_eq/=; first [by left | right; by eexists _, _].
    + repeat case_match; simplify_eq/=; by left.
  - destruct ok; simpl; by left.
Qed.

End ChatSession.

(** X28. A send changes the session id of the chat only to the id a reply
    brings: after sendMessage the session id is the one before, unless the
    request was answered ok with a body that parsed and whose session has a
    truthy id, which is then the new one.  A rejected request, a reply that
    is not ok and a body that fails to parse leave it alone; a reply taken
    as successful whose session has a truthy id sets it; clearChat resets
    it. *)
Theorem sendMessage_session_id
    (message selectedAgent : JS.value) (tu tr : Chat.tick)
    (net : Chat.fetch_result) (st : Chat.state) :
  let st' := (Chat.sendMessage message selectedAgent tu tr net st).1 in
  (Chat.sessionId st' = Chat.sessionId st ∨
   ∃ data session,
     net = Chat.Response true (JS.Normal data) ∧
     JS.get data "session" = JS.Normal session ∧
     JS.opt_get session "id" = JS.Normal (Chat.sessionId st') ∧
     JS.truthy (Chat.sessionId st') = true) ∧
  (∀ props id,
     net = Chat.Response true (JS.Normal (JS.Obj props)) →
     JS.is_false (JS.lookup_prop "success" props) = false →
     JS.opt_get (JS.lookup_prop "session" props) "id" = JS.Normal id →
     JS.truthy id = true →
     Chat.sessionId st' = id) ∧
  Chat.sessionId (Chat.clearChat st') = JS.Null.
Proof.
  cbv zeta. split; [apply sendMessage_session_kept_or_set|]. split; [|done].
  intros props id -> Hsuccess Hid Htruthy.
  destruct (field_or_null_normal selectedAgent "indian_name") as [agent Hagent].
  unfold Chat.sendMessage, JS.try_finally, JS.try_catch, mbind, JS.stateful_bind,
    JS.lift, mret, JS.stateful_ret, Chat.setLoading, Chat.appendMessage,
    Chat.setSessionId.
  rewrite Hagent. simpl. rewrite Hsuccess. simpl. rewrite Hid. simpl.
  rewrite Htruthy. simpl.
  repeat case_match; simplify_eq/=; done.
Qed.

(** * Mentions and the messages of an agent *)

Section MentionsSelected.
Import JS Chat ChatQueries.

Lemma prefix_app p rest : String.prefix p (p +:+ rest) = true.
Proof.
  induction p as [|c p IH]; [by destruct rest|].
  rewrite append_cons. simpl. by destruct (Ascii.ascii_dec c c).
Qed.

Lemma contains_further pat c s :
  contains pat s = true → contains pat (String c s) = true.
Proof. intros H. cbn [contains]. rewrite H. apply orb_true_r. Qed.

Lemma contains_prefix p rest : contains p (p +:+ rest) = true.
Proof.
  destruct (p +:+ rest) eqn:E; cbn [contains]; rewrite <-E, prefix_app; done.
Qed.

(** A match of the scan is the word under construction continued by the
    text, or stands in the text after an [@]. *)
Lemma scan_mention s : ∀ cur m,
  m ∈ scan cur s →
  (∃ w p rest, cur = Some w ∧ s = p +:+ rest ∧ m = w +:+ p) ∨
  contains ("@" +:+ m) s = true.
Proof.
  induction s as [|c s IH]; intros cur m.
  - destruct cur as [w|]; simpl; [|by intros ?%elem_of_nil].
    unfold emit. destruct (String.eqb w ""); [by intros ?%elem_of_nil|].
    intros ->%list_elem_of_singleton. left. exists w, "", "".
    by rewrite !append_nil_r.
  - destruct cur as [w|]; cbn [scan].
    + destruct (is_word c).
      * intros [(w' & p & rest & [= <-] & -> & ->) | H]%IH.
        -- left. exists w, (String c p), rest. by rewrite append_assoc.
        -- right. by apply contains_further.
      * intros [Hm | Hm]%elem_of_app.
        { unfold emit in Hm. destruct (String.eqb w ""); [by apply elem_of_nil in Hm|].
          apply list_elem_of_singleton in Hm as ->. left.
          exists w, "", (String c s). by rewrite append_nil_r, append_nil_l. }
        destruct (Ascii.eqb c "@") eqn:Hc.
        -- apply Ascii.eqb_eq in Hc as ->.
           apply IH in Hm as [(w' & p & rest & [= <-] & -> & Hm) | H].
           ++ right. rewrite append_nil_l in Hm. subst m.
              change (String "@" (p +:+ rest)) with (("@" +:+ p) +:+ rest).
              apply contains_prefix.
           ++ right. by apply contains_further.
        -- apply IH in Hm as [(w' & p & rest & [=] & _) | H].
           right. by apply contains_further.
    + destruct (Ascii.eqb c "@") eqn:Hc.
      * apply Ascii.eqb_eq in Hc as ->.
        intros [(w' & p & rest & [= <-] & -> & Hm) | H]%IH.
        -- right. rewrite append_nil_l in Hm. subst m.
           change (String "@" (p +:+ rest)) with (("@" +:+ p) +:+ rest).
           apply contains_prefix.
        -- right. by apply contains_further.
      * intros [(w' & p & rest & [=] & _) | H]%IH.
        right. by apply contains_further.
Qed.

(** A mention of a message stands in it after an [@]. *)
Lemma mention_contained text name :
  name ∈ mentions (parseMessage text) → contains ("@" +:+ name) text = true.
Proof.
  unfold parseMessage. cbn [mentions].
  by intros [(w & p & rest & [=] & _) | H]%scan_mention.
Qed.

(** The filter of [getMessagesByAgent] decides on a reply. *)
Lemma of_agent_reply name props :
  lookup_prop "type" props = Str "assistant" ∨
  lookup_prop "type" props = Str "error" →
  ∃ keep, of_agent name (Obj props) = Normal keep.
Proof.
  intros Htype. unfold of_agent. simpl.
  destruct (is_str _ (lookup_prop "agent" props)); [by eexists|].
  destruct Htype as [-> | ->]; simpl; by eexists.
Qed.

End MentionsSelected.

(** X29. Every agent mentioned in a message gets it in its history: when
    parseMessage finds the mention [name] in a text, the user message that
    sendMessage adds for this text is selected by getMessagesByAgent for
    [name], whichever agent the message was sent to, right after the
    messages selected before the send. *)
Theorem mentioned_agent_gets_message
    (text name : string) (selectedAgent : JS.value) (tu tr : Chat.tick)
    (net : Chat.fetch_result) (st : Chat.state) (before : list JS.value) :
  name ∈ ChatQueries.mentions (ChatQueries.parseMessage text) →
  ChatQueries.getMessagesByAgent name st = JS.Normal before →
  let st' := (Chat.sendMessage (JS.Str text) selectedAgent tu tr net st).1 in
  ∃ agent reply after,
    Chat.messages st' =
      Chat.messages st ++ [Chat.userMessage (JS.Str text) agent tu; reply] ∧
    ChatQueries.getMessagesByAgent name st' =
      JS.Normal (before ++ Chat.userMessage (JS.Str text) agent tu :: after).
Proof.
  intros Hmention Hbefore. cbv zeta.
  destruct (field_or_null_normal selectedAgent "indian_name") as [agent Hagent].
  destruct (sendMessage_shape (JS.Str text) selectedAgent agent tu tr net st Hagent)
    as (props & result & -> & Htype).
  destruct (of_agent_reply name props Htype) as [keep Hkeep].
  exists agent, (JS.Obj props), (if keep then [JS.Obj props] else []).
  split; [done|].
  unfold ChatQueries.getMessagesByAgent in *. cbn [fst Chat.messages].
  apply filter_list_app; [done|]. cbn [JS.filter_list].
  assert (Hsent : ChatQueries.of_agent name
                    (Chat.userMessage (JS.Str text) agent tu) = JS.Normal true).
  { unfold ChatQueries.of_agent. simpl.
    destruct (JS.is_str name agent); [done|]. simpl.
    by rewrite (mention_contained text name Hmention). }
  rewrite Hsent, Hkeep. simpl. by destruct keep.
Qed.

(** X29, witness: a question to the soil agent that mentions the weather
    agent. *)
Lemma mentioned_agent_gets_message_witness :
  "Mausam" ∈ ChatQueries.mentions
    (ChatQueries.parseMessage "@Mitti is rain due, @Mausam?") ∧
  ChatQueries.getMessagesByAgent "Mausam" Chat.initialState = JS.Normal [] ∧
  ∃ agent reply after,
    Chat.messages
      (Chat.sendMessage (JS.Str "@Mitti is rain due, @Mausam?")
         (ChatQueries.agent_object ChatExamples.mitti)
         ChatExamples.asked ChatExamples.answered
         (Chat.Rejected (JS.Error "Failed to fetch")) Chat.initialState).1 =
      Chat.messages Chat.initialState ++
        [Chat.userMessage (JS.Str "@Mitti is rain due, @Mausam?") agent
           ChatExamples.asked; reply] ∧
    ChatQueries.getMessagesByAgent "Mausam"
      (Chat.sendMessage (JS.Str "@Mitti is rain due, @Mausam?")
         (ChatQueries.agent_object ChatExamples.mitti)
         ChatExamples.asked ChatExamples.answered
         (Chat.Rejected (JS.Error "Failed to fetch")) Chat.initialState).1 =
      JS.Normal ([] ++ Chat.userMessage (JS.Str "@Mitti is rain due, @Mausam?")
                         agent ChatExamples.asked :: after).
Proof.
  assert (Hmention : "Mausam" ∈ ChatQueries.mentions
            (ChatQueries.parseMessage "@Mitti is rain due, @Mausam?")).
  { vm_compute. right. left. }
  split; [exact Hmention|]. split; [reflexivity|].
  exact (mentioned_agent_gets_message "@Mitti is rain due, @Mausam?" "Mausam"
           (ChatQueries.agent_object ChatExamples.mitti)
           ChatExamples.asked ChatExamples.answered
           (Chat.Rejected (JS.Error "Failed to fetch")) Chat.initialState []
           Hmention eq_refl).
Defined.
